(** * 0xjam3z-webscanner: the data pipeline of main.cpp

    A shallow embedding of the pure and file-level functions of
    [src/0xjam3z-webscanner/main.cpp] and the properties of its
    natural-language specification that they decide.

    Conventions of the embedding.
    - [std::string] is [string]; a [char] is an [ascii] (one byte).
    - The character classification functions of <cctype> are taken in the
      default C locale, which is the locale the program runs in (it never
      calls setlocale).
    - [s.find(p, pos)] is [String.index pos p s], [s.substr(pos, n)] is
      [String.substring pos n s], [s.size()] is [String.length s].
    - A function that can throw returns an [option]; [None] is the
      exception. *)

From Stdlib Require Import ZArith Lia List Bool Ascii.
From Stdlib Require String.
From stdpp Require Import gmap strings pretty.

Import ListNotations.
Local Open Scope Z_scope.
Local Open Scope nat_scope.

(** stdpp blocks the unfolding of string concatenation; the proofs below
    compute with it. *)
#[local] Arguments String.append !_ _ / : simpl nomatch.

(** ** Characters *)

(** The double quote, the backslash and the control characters, by code. *)
Definition dquote : ascii := ascii_of_nat 34.
Definition backslash : ascii := ascii_of_nat 92.
Definition char_bs : ascii := ascii_of_nat 8.
Definition char_ht : ascii := ascii_of_nat 9.
Definition char_nl : ascii := ascii_of_nat 10.
Definition char_ff : ascii := ascii_of_nat 12.
Definition char_cr : ascii := ascii_of_nat 13.

(** [std::isspace] in the C locale: space, and the codes 9 to 13. *)
Definition isspace (c : ascii) : bool :=
  let n := nat_of_ascii c in
  (n =? 32) || ((9 <=? n) && (n <=? 13)).

(** [std::isdigit]: the ten decimal digits. *)
Definition isdigit (c : ascii) : bool :=
  let n := nat_of_ascii c in
  (48 <=? n) && (n <=? 57).

(** [std::tolower] in the C locale: only A to Z change. *)
Definition tolower (c : ascii) : ascii :=
  let n := nat_of_ascii c in
  if (65 <=? n) && (n <=? 90) then ascii_of_nat (n + 32) else c.

(** ** Strings *)

(** [s.push_back(c)]. *)
Definition push_back (s : string) (c : ascii) : string :=
  s +:+ String c "".

(** [s[i]] for an index the caller has checked; the default is never read. *)
Definition at_index (s : string) (i : nat) : ascii :=
  match String.get i s with
  | Some c => c
  | None => ascii_of_nat 0
  end.

(** [to_lower], main.cpp 26-29: [std::transform] with [std::tolower]. *)
Fixpoint to_lower (s : string) : string :=
  match s with
  | EmptyString => EmptyString
  | String c s' => String (tolower c) (to_lower s')
  end.

(** The first loop of [trim]: advance [start] while it is inside the string
    and on a whitespace character. [n] bounds the number of iterations; the
    loop runs at most [s.size()] times. *)
Fixpoint trim_start (n : nat) (s : string) (start : nat) : nat :=
  match n with
  | 0 => start
  | S n' =>
      if (start <? String.length s) && isspace (at_index s start)
      then trim_start n' s (S start)
      else start
  end.

(** The second loop of [trim]: retreat [end] while it is above [start] and
    the character before it is whitespace. *)
Fixpoint trim_end (s : string) (start : nat) (end_ : nat) : nat :=
  match end_ with
  | 0 => 0
  | S e =>
      if (start <? end_) && isspace (at_index s e)
      then trim_end s start e
      else end_
  end.

(** [trim], main.cpp 31-41. *)
Definition trim (s : string) : string :=
  let start := trim_start (String.length s) s 0 in
  let end_ := trim_end s start (String.length s) in
  String.substring start (end_ - start) s.

(** ** Input string streams *)

(** [std::getline(iss, part, delim)] as a single step on the unread rest of
    the stream: [None] when nothing is left (the extraction fails and the
    loop stops), otherwise the characters before the first delimiter and the
    rest after it (the delimiter is consumed and not stored). *)
Fixpoint getline_chars (delim : ascii) (s : string) : string * string :=
  match s with
  | EmptyString => (EmptyString, EmptyString)
  | String c s' =>
      if Ascii.eqb c delim then (EmptyString, s')
      else let '(part, rest) := getline_chars delim s' in (String c part, rest)
  end.

Definition getline (delim : ascii) (s : string) : option (string * string) :=
  match s with
  | EmptyString => None
  | _ => Some (getline_chars delim s)
  end.

(** The parts that [while (std::getline(iss, part, delim))] visits, in
    order. A final delimiter is consumed with the part before it, so it does
    not open a last empty part. *)
Fixpoint getline_all (delim : ascii) (s : string) : list string :=
  match s with
  | EmptyString => []
  | String c s' =>
      if Ascii.eqb c delim then EmptyString :: getline_all delim s'
      else match getline_all delim s' with
           | [] => [String c EmptyString]
           | part :: parts => String c part :: parts
           end
  end.

(** [iss >> token] repeated until it fails ([split_ws], main.cpp 43-51):
    leading whitespace is skipped, a token is a maximal run of
    non-whitespace characters. *)
Fixpoint split_ws (line : string) : list string :=
  match line with
  | EmptyString => []
  | String c rest =>
      if isspace c then split_ws rest
      else match rest with
           | EmptyString => [String c EmptyString]
           | String c' _ =>
               if isspace c' then String c EmptyString :: split_ws rest
               else match split_ws rest with
                    | [] => [String c EmptyString]
                    | token :: tokens => String c token :: tokens
                    end
           end
  end.

(** ** The IPv4 validator *)

Definition INT_MAX : Z := 2147483647.
Definition INT_MIN : Z := -2147483648.

Definition digit_value (c : ascii) : Z := Z.of_nat (nat_of_ascii c) - 48.

(** The decimal value of the leading digits of [s], from accumulator [acc]. *)
Fixpoint leading_digits (acc : Z) (s : string) : Z :=
  match s with
  | EmptyString => acc
  | String c s' =>
      if isdigit c then leading_digits (acc * 10 + digit_value c) s' else acc
  end.

Fixpoint skip_ws (s : string) : string :=
  match s with
  | EmptyString => EmptyString
  | String c s' => if isspace c then skip_ws s' else s
  end.

(** [std::stoi(s)]: leading whitespace, an optional sign, decimal digits.
    [None] is [std::invalid_argument] (no digit) or [std::out_of_range]. *)
Definition stoi (s : string) : option Z :=
  let s1 := skip_ws s in
  let '(negative, s2) :=
    match s1 with
    | String c r =>
        if Ascii.eqb c "-" then (true, r)
        else if Ascii.eqb c "+" then (false, r)
        else (false, s1)
    | EmptyString => (false, s1)
    end in
  match s2 with
  | EmptyString => None
  | String c _ =>
      if isdigit c then
        let v := leading_digits 0%Z s2 in
        let v := if negative then (- v)%Z else v in
        if (INT_MIN <=? v)%Z && (v <=? INT_MAX)%Z then Some v else None
      else None
  end.

Fixpoint string_forallb (p : ascii -> bool) (s : string) : bool :=
  match s with
  | EmptyString => true
  | String c s' => p c && string_forallb p s'
  end.

Definition string_empty (s : string) : bool :=
  match s with
  | EmptyString => true
  | _ => false
  end.

(** [ip.find(c) != std::string::npos]. *)
Definition contains_char (c : ascii) (s : string) : bool :=
  match String.index 0 (String c EmptyString) s with
  | Some _ => true
  | None => false
  end.

(** The body of the [while] loop of [is_ipv4] (main.cpp 60-74) over the
    parts still to come; [parts] is the counter. *)
Fixpoint is_ipv4_loop (todo : list string) (parts : nat) : option bool :=
  match todo with
  | [] => Some (parts =? 4)
  | part :: todo' =>
      if string_empty part || (3 <? String.length part) then Some false
      else if negb (string_forallb isdigit part) then Some false
      else
        match stoi part with
        | None => None
        | Some value =>
            if (value <? 0)%Z || (255 <? value)%Z then Some false
            else is_ipv4_loop todo' (S parts)
        end
  end.

(** [is_ipv4], main.cpp 53-76, with the exception of [std::stoi] kept. *)
Definition is_ipv4_run (ip : string) : option bool :=
  if contains_char ":" ip then Some false
  else is_ipv4_loop (getline_all "." ip) 0.

(** [is_ipv4] as its callers use it; [is_ipv4_run] never throws (see
    [is_ipv4_run_total]), so the [None] branch is never taken. *)
Definition is_ipv4 (ip : string) : bool :=
  match is_ipv4_run ip with
  | Some b => b
  | None => false
  end.


(** *** The validator as the specification words it *)

(** Splitting on a delimiter in the usual sense: every delimiter separates
    two segments, so a string with n delimiters has n + 1 segments (the
    empty string has one empty segment, a final delimiter is followed by an
    empty last segment). *)
Fixpoint split_on (delim : ascii) (s : string) : list string :=
  match s with
  | EmptyString => [EmptyString]
  | String c s' =>
      if Ascii.eqb c delim then EmptyString :: split_on delim s'
      else match split_on delim s' with
           | [] => [String c EmptyString]
           | seg :: segs => String c seg :: segs
           end
  end.

(** The integer a string of decimal digits denotes. *)
Fixpoint decimal_from (acc : Z) (s : string) : Z :=
  match s with
  | EmptyString => acc
  | String c s' => decimal_from (10 * acc + digit_value c) s'
  end.

Definition decimal_value (s : string) : Z := decimal_from 0%Z s.

(** A segment is 1 to 3 ASCII digits that denote an integer in [0,255]. *)
Definition segment_ok (seg : string) : bool :=
  (1 <=? String.length seg) && (String.length seg <=? 3)
  && string_forallb isdigit seg
  && (0 <=? decimal_value seg)%Z && (decimal_value seg <=? 255)%Z.

(** Exactly four segments, each of them accepted. *)
Definition quad_ok (s : string) : bool :=
  let segs := split_on "." s in
  (length segs =? 4) && forallb segment_ok segs.

(** Section 4.1 of the specification: no colon, and four good segments. *)
Definition isIPv4_spec (s : string) : bool :=
  negb (contains_char ":" s) && quad_ok s.

(** [s] without its last character when that is a dot. *)
Fixpoint drop_final_dot (s : string) : string :=
  match s with
  | EmptyString => EmptyString
  | String c s' =>
      match s' with
      | EmptyString => if Ascii.eqb c "." then EmptyString else s
      | String _ _ => String c (drop_final_dot s')
      end
  end.

(** ** The JSON string unescaper *)

(** The value of a hexadecimal digit. *)
Definition hex_digit (c : ascii) : option Z :=
  let n := nat_of_ascii c in
  if (48 <=? n) && (n <=? 57) then Some (Z.of_nat n - 48)%Z
  else if (97 <=? n) && (n <=? 102) then Some (Z.of_nat n - 87)%Z
  else if (65 <=? n) && (n <=? 70) then Some (Z.of_nat n - 55)%Z
  else None.

(** The leading hexadecimal digits of [s]: their value from [acc], and
    whether there was one. *)
Fixpoint hex_digits (acc : Z) (seen : bool) (s : string) : Z * bool :=
  match s with
  | EmptyString => (acc, seen)
  | String c s' =>
      match hex_digit c with
      | Some d => hex_digits (16 * acc + d) true s'
      | None => (acc, seen)
      end
  end.

(** [iss >> std::hex >> code] for an [unsigned int] on a stream that holds
    [hex]: leading whitespace, an optional sign, an optional 0x prefix, then
    hexadecimal digits up to the first other character. A failed extraction
    stores 0; a minus sign negates modulo 2^32. *)
Definition read_hex (hex : string) : Z :=
  let s1 := skip_ws hex in
  let '(negative, s2) :=
    match s1 with
    | String c r =>
        if Ascii.eqb c "-" then (true, r)
        else if Ascii.eqb c "+" then (false, r)
        else (false, s1)
    | EmptyString => (false, s1)
    end in
  let s3 :=
    match s2 with
    | String z (String x r) =>
        if Ascii.eqb z "0" && (Ascii.eqb x "x" || Ascii.eqb x "X") then r else s2
    | _ => s2
    end in
  let '(v, _) := hex_digits 0%Z false s3 in
  if negative then ((4294967296 - v) mod 4294967296)%Z else v.

(** The character pushed for a [u] escape with code [code]. *)
Definition code_char (code : Z) : ascii :=
  if (code <=? 127)%Z then ascii_of_nat (Z.to_nat code) else "?".

(** The [for] loop of [unescape_json_string], main.cpp 321-356, on the loop
    variable [i] and the output [out]. Every iteration advances [i], so
    [s.size() + 1] units of fuel are enough; [None] is fuel exhausted. *)
Fixpoint unescape_loop (fuel : nat) (s : string) (i : nat) (out : string)
  : option string :=
  match fuel with
  | 0 => None
  | S fuel' =>
      if String.length s <=? i then Some out
      else
        let c := at_index s i in
        if negb (Ascii.eqb c backslash) || (String.length s <=? i + 1)
        then unescape_loop fuel' s (i + 1) (push_back out c)
        else
          let i := i + 1 in
          let n := at_index s i in
          if Ascii.eqb n backslash
          then unescape_loop fuel' s (i + 1) (push_back out backslash)
          else if Ascii.eqb n dquote
          then unescape_loop fuel' s (i + 1) (push_back out dquote)
          else if Ascii.eqb n "/"
          then unescape_loop fuel' s (i + 1) (push_back out "/")
          else if Ascii.eqb n "b"
          then unescape_loop fuel' s (i + 1) (push_back out char_bs)
          else if Ascii.eqb n "f"
          then unescape_loop fuel' s (i + 1) (push_back out char_ff)
          else if Ascii.eqb n "n"
          then unescape_loop fuel' s (i + 1) (push_back out char_nl)
          else if Ascii.eqb n "r"
          then unescape_loop fuel' s (i + 1) (push_back out char_cr)
          else if Ascii.eqb n "t"
          then unescape_loop fuel' s (i + 1) (push_back out char_ht)
          else if Ascii.eqb n "u"
          then
            if i + 4 <? String.length s
            then
              let hex := String.substring (i + 1) 4 s in
              let code := read_hex hex in
              unescape_loop fuel' s (i + 4 + 1) (push_back out (code_char code))
            else unescape_loop fuel' s (i + 1) out
          else unescape_loop fuel' s (i + 1) (push_back out n)
  end.

Definition unescape_json_string_run (s : string) : option string :=
  unescape_loop (S (String.length s)) s 0 EmptyString.

(** [unescape_json_string], main.cpp 318-358; the loop always ends within
    its fuel (see [unescape_json_string_scan]). *)
Definition unescape_json_string (s : string) : string :=
  match unescape_json_string_run s with
  | Some out => out
  | None => EmptyString
  end.

(** The same decoding as one left-to-right scan of the unread characters,
    the form in which section 4.6 of the specification describes it. *)
Fixpoint unescape_scan (s : string) : string :=
  match s with
  | EmptyString => EmptyString
  | String c rest =>
      if negb (Ascii.eqb c backslash) then String c (unescape_scan rest)
      else
        match rest with
        | EmptyString => String c EmptyString
        | String n rest' =>
            if Ascii.eqb n backslash then String backslash (unescape_scan rest')
            else if Ascii.eqb n dquote then String dquote (unescape_scan rest')
            else if Ascii.eqb n "/" then String "/" (unescape_scan rest')
            else if Ascii.eqb n "b" then String char_bs (unescape_scan rest')
            else if Ascii.eqb n "f" then String char_ff (unescape_scan rest')
            else if Ascii.eqb n "n" then String char_nl (unescape_scan rest')
            else if Ascii.eqb n "r" then String char_cr (unescape_scan rest')
            else if Ascii.eqb n "t" then String char_ht (unescape_scan rest')
            else if Ascii.eqb n "u" then
              match rest' with
              | String h1 (String h2 (String h3 (String h4 rest''))) =>
                  String
                    (code_char
                       (read_hex
                          (String h1 (String h2 (String h3 (String h4 EmptyString))))))
                    (unescape_scan rest'')
              | _ => unescape_scan rest'
              end
            else String n (unescape_scan rest')
        end
  end.

(** *** The escapes as the specification lists them *)

(** The escapes that stand for themselves. *)
Definition literal_escape (n : ascii) : bool :=
  Ascii.eqb n backslash || Ascii.eqb n dquote || Ascii.eqb n "/".

(** The escapes that stand for a control character. *)
Definition control_escape (n : ascii) : option ascii :=
  if Ascii.eqb n "b" then Some char_bs
  else if Ascii.eqb n "f" then Some char_ff
  else if Ascii.eqb n "n" then Some char_nl
  else if Ascii.eqb n "r" then Some char_cr
  else if Ascii.eqb n "t" then Some char_ht
  else None.

(** The characters section 4.6 names after a backslash. *)
Definition named_escape (n : ascii) : bool :=
  literal_escape n || match control_escape n with Some _ => true | None => false end || Ascii.eqb n "u".

(** The code point of four hexadecimal digits. *)
Definition hex4_value (d1 d2 d3 d4 : Z) : Z :=
  (4096 * d1 + 256 * d2 + 16 * d3 + d4)%Z.

(** ** Title extraction *)

Definition no_title : string := "No title found".

(** [extract_title], main.cpp 369-389. [std::string::npos] is [None]. *)
Definition extract_title (html : string) : string :=
  let lower := to_lower html in
  match String.index 0 "<title" lower with
  | None => no_title
  | Some start =>
      match String.index start ">" lower with
      | None => no_title
      | Some gt =>
          match String.index gt "</title>" lower with
          | None => no_title
          | Some end_ =>
              if end_ <=? gt then no_title
              else
                let title := String.substring (gt + 1) (end_ - gt - 1) html in
                let title := trim title in
                if string_empty title then no_title else title
          end
      end
  end.

(** *** Searching and trimming as the specification words them *)

(** [pat] stands in [s] at position [p]. *)
Definition occurs_at (pat s : string) (p : nat) : bool :=
  String.eqb (String.substring p (String.length pat) s) pat.

(** [p] is the first position at or after [from] where [pat] stands. *)
Definition first_at (pat s : string) (from p : nat) : bool :=
  (from <=? p) && occurs_at pat s p
  && forallb (fun q => negb (occurs_at pat s q)) (seq from (p - from)).

(** [pat] stands nowhere in [s] at or after [from]. *)
Definition absent_from (pat s : string) (from : nat) : bool :=
  forallb (fun q => negb (occurs_at pat s q))
    (seq from (S (String.length s) - from)).

(** [s] without its trailing whitespace. *)
Fixpoint rstrip (s : string) : string :=
  match s with
  | EmptyString => EmptyString
  | String c s' =>
      match rstrip s' with
      | EmptyString => if isspace c then EmptyString else String c EmptyString
      | String _ _ as r => String c r
      end
  end.

Definition starts_with_space (s : string) : bool :=
  match s with
  | EmptyString => false
  | String c _ => isspace c
  end.

Fixpoint ends_with_space (s : string) : bool :=
  match s with
  | EmptyString => false
  | String c EmptyString => isspace c
  | String _ s' => ends_with_space s'
  end.

(** ** Regular expressions *)

(** The fragment of the ECMAScript grammar of [std::regex] that main.cpp
    uses: characters, character classes (bracket expressions, the class of
    whitespace, the dot), sequence, alternation, the greedy star, and the
    one capture group. A non-capturing group is plain nesting. *)
Inductive regex : Type :=
| RChar (c : ascii)
| RClass (p : ascii -> bool)
| RSeq (r1 r2 : regex)
| RAlt (r1 r2 : regex)
| RStar (r : regex)
| RGroup (r : regex).

(** [r+]. *)
Definition RPlus (r : regex) : regex := RSeq r (RStar r).

(** A string of ordinary characters, followed by [r]. *)
Fixpoint RLit (s : string) (r : regex) : regex :=
  match s with
  | EmptyString => r
  | String c s' => RSeq (RChar c) (RLit s' r)
  end.

(** The backtracking matcher, in continuation-passing style: [k] receives
    the unread input and the text of the capture group; the first
    alternative and the longest repetition are tried first. An iteration of
    a star that consumes nothing is refused, as ECMAScript requires, so a
    star on [s] iterates at most [String.length s] times, which is the bound
    [n] of its loop. *)
Fixpoint rmatch {A : Type} (r : regex) (s : string) (cap : option string)
    (k : string -> option string -> option A) {struct r} : option A :=
  match r with
  | RChar c =>
      match s with
      | String a s' => if Ascii.eqb a c then k s' cap else None
      | EmptyString => None
      end
  | RClass p =>
      match s with
      | String a s' => if p a then k s' cap else None
      | EmptyString => None
      end
  | RSeq r1 r2 => rmatch r1 s cap (fun s1 cap1 => rmatch r2 s1 cap1 k)
  | RAlt r1 r2 =>
      match rmatch r1 s cap k with
      | Some x => Some x
      | None => rmatch r2 s cap k
      end
  | RStar r' =>
      (fix star (n : nat) (s : string) (cap : option string) : option A :=
         match n with
         | 0 => k s cap
         | S n' =>
             match
               rmatch r' s cap
                 (fun s1 cap1 =>
                    if String.length s1 <? String.length s
                    then star n' s1 cap1 else None)
             with
             | Some x => Some x
             | None => k s cap
             end
         end) (String.length s) s cap
  | RGroup r' =>
      rmatch r' s cap
        (fun s1 _ =>
           k s1 (Some (String.substring 0 (String.length s - String.length s1) s)))
  end.

(** A match of [r] that starts at the head of [s]: the unread input after
    it and [match[1].str()] (empty when the group took no part). *)
Definition match_here (r : regex) (s : string) : option (string * string) :=
  rmatch r s None
    (fun rest cap =>
       Some (rest, match cap with Some c => c | None => EmptyString end)).

(** [std::regex_search]: the match at the leftmost position; the result is
    [match[1].str()]. *)
Fixpoint regex_search (r : regex) (s : string) : option string :=
  match match_here r s with
  | Some (_, cap) => Some cap
  | None =>
      match s with
      | EmptyString => None
      | String _ s' => regex_search r s'
      end
  end.

(** The loop over [std::sregex_iterator] that pushes the first group of
    every match: the matches from left to right, each search resuming where the previous
    match ended. [skip] counts the characters of the previous match that are
    still to be passed. The expressions of main.cpp match six characters or
    more; for an empty match the scan moves on by one character. *)
Fixpoint regex_captures_from (r : regex) (s : string) (skip : nat)
  : list string :=
  match s with
  | EmptyString => []
  | String _ s' =>
      match skip with
      | S skip' => regex_captures_from r s' skip'
      | 0 =>
          match match_here r s with
          | Some (rest, cap) =>
              cap :: regex_captures_from r s'
                       (String.length s - String.length rest - 1)
          | None => regex_captures_from r s' 0
          end
      end
  end.

Definition regex_captures (r : regex) (s : string) : list string :=
  regex_captures_from r s 0.

(** *** The stack of the matcher *)

(** The executor of [std::regex_search] walks the automaton of the
    expression by recursion: every state it enters (a character or class
    matched, an alternative or a repetition tried, the start and the end of
    the group) is a call that returns only when the attempt from that state
    has failed or the whole match is found. An attempt therefore ends in one
    of two ways: it returns, or its recursion outgrows the stack of the
    process, which is then killed. *)
Inductive attempt (A : Type) : Type :=
| Overflow
| Returned (r : A).

Arguments Overflow {A}.
Arguments Returned {A} r.

(** [rmatch] with the depth of the recursion followed: [stack] is the number
    of calls the stack holds, [depth] the number of calls that are open
    when [r] is entered; the continuation receives the depth at which the
    next state is entered. *)
Fixpoint rmatch_in {A : Type} (stack : nat) (r : regex) (s : string)
    (cap : option string) (depth : nat)
    (k : string -> option string -> nat -> attempt (option A)) {struct r}
  : attempt (option A) :=
  if stack <? depth then Overflow
  else
    match r with
    | RChar c =>
        match s with
        | String a s' => if Ascii.eqb a c then k s' cap (S depth)
                         else Returned None
        | EmptyString => Returned None
        end
    | RClass p =>
        match s with
        | String a s' => if p a then k s' cap (S depth) else Returned None
        | EmptyString => Returned None
        end
    | RSeq r1 r2 =>
        rmatch_in stack r1 s cap depth
          (fun s1 cap1 depth1 => rmatch_in stack r2 s1 cap1 depth1 k)
    | RAlt r1 r2 =>
        match rmatch_in stack r1 s cap (S depth) k with
        | Returned None => rmatch_in stack r2 s cap (S depth) k
        | other => other
        end
    | RStar r' =>
        (fix star (n : nat) (s : string) (cap : option string) (depth : nat)
           : attempt (option A) :=
           if stack <? depth then Overflow
           else
             match n with
             | 0 => k s cap (S depth)
             | S n' =>
                 match
                   rmatch_in stack r' s cap (S depth)
                     (fun s1 cap1 depth1 =>
                        if String.length s1 <? String.length s
                        then star n' s1 cap1 depth1 else Returned None)
                 with
                 | Returned None => k s cap (S depth)
                 | other => other
                 end
             end) (String.length s) s cap depth
    | RGroup r' =>
        rmatch_in stack r' s cap (S depth)
          (fun s1 _ depth1 =>
             k s1
               (Some (String.substring 0 (String.length s - String.length s1) s))
               (S depth1))
    end.

(** [match_here] on a stack of [stack] calls; the last call is the accepting
    state. *)
Definition match_here_in (stack : nat) (r : regex) (s : string)
  : attempt (option (string * string)) :=
  rmatch_in stack r s None 0
    (fun rest cap depth =>
       if stack <? depth then Overflow
       else
         Returned
           (Some (rest, match cap with Some c => c | None => EmptyString end))).

(** [std::regex_search] on a stack of [stack] calls: the start positions
    are tried in a loop, from left to right, each with a recursion of its
    own. *)
Fixpoint regex_search_in (stack : nat) (r : regex) (s : string)
  : attempt (option string) :=
  match match_here_in stack r s with
  | Overflow => Overflow
  | Returned (Some (_, cap)) => Returned (Some cap)
  | Returned None =>
      match s with
      | EmptyString => Returned None
      | String _ s' => regex_search_in stack r s'
      end
  end.

(** The loop of the star of [rmatch], by its name: [n] iterations at most
    of [r], then the continuation [k]. *)
Definition star_loop {A : Type} (r : regex)
    (k : string -> option string -> option A)
  : nat -> string -> option string -> option A :=
  fix star (n : nat) (s : string) (cap : option string) : option A :=
    match n with
    | 0 => k s cap
    | S n' =>
        match
          rmatch r s cap
            (fun s1 cap1 =>
               if String.length s1 <? String.length s
               then star n' s1 cap1 else None)
        with
        | Some x => Some x
        | None => k s cap
        end
    end.

(** The loop of the star of [rmatch_in], by its name. *)
Definition star_loop_in {A : Type} (stack : nat) (r : regex)
    (k : string -> option string -> nat -> attempt (option A))
  : nat -> string -> option string -> nat -> attempt (option A) :=
  fix star (n : nat) (s : string) (cap : option string) (depth : nat)
    : attempt (option A) :=
    if stack <? depth then Overflow
    else
      match n with
      | 0 => k s cap (S depth)
      | S n' =>
          match
            rmatch_in stack r s cap (S depth)
              (fun s1 cap1 depth1 =>
                 if String.length s1 <? String.length s
                 then star n' s1 cap1 depth1 else Returned None)
          with
          | Returned None => k s cap (S depth)
          | other => other
          end
      end.

(** An attempt on a stack agrees with the matcher when it returns. *)
Definition agrees {A : Type} (a : attempt (option A)) (r : option A) : Prop :=
  a = Overflow \/ a = Returned r.

(** The class [\s]. *)
Definition re_space : regex := RClass isspace.

(** The dot of ECMAScript: any character but a line terminator. *)
Definition re_dot : regex :=
  RClass (fun c => negb (Ascii.eqb c char_nl || Ascii.eqb c char_cr)).

(** Optional whitespace, a colon, optional whitespace and a double quote:
    the text between a key and its value. *)
Definition re_colon_quote (r : regex) : regex :=
  RSeq (RStar re_space)
    (RSeq (RChar ":") (RSeq (RStar re_space) (RSeq (RChar dquote) r))).

(** A key in double quotes, as a literal. *)
Definition quoted_key (name : string) : string :=
  String dquote (name +:+ String dquote EmptyString).

(** The expressions of [build_list_from_asn_json], main.cpp 222-224: the
    quoted key, a colon between optional whitespace, and a non-empty value
    without double quote, captured. *)
Definition field_re (name : string) : regex :=
  RLit (quoted_key name)
    (re_colon_quote
       (RSeq (RGroup (RPlus (RClass (fun c => negb (Ascii.eqb c dquote)))))
          (RChar dquote))).

Definition start_re : regex := field_re "start_ip".
Definition end_re : regex := field_re "end_ip".
Definition country_re : regex := field_re "country_name".

(** The expression of [extract_json_string_value], main.cpp 361: the key,
    then a value of characters other than backslash and double quote, or
    backslash and one more character, captured. The source builds the
    expression from the text of a key pattern; [key] is the expression that
    the pattern denotes. *)
Definition value_re (key : regex) : regex :=
  RSeq key
    (re_colon_quote
       (RSeq
          (RGroup
             (RStar
                (RAlt
                   (RClass
                      (fun c => negb (Ascii.eqb c backslash || Ascii.eqb c dquote)))
                   (RSeq (RChar backslash) re_dot))))
          (RChar dquote))).

(** The key patterns of [parse_zgrab_titles], main.cpp 400-401: a name in
    double quotes. *)
Definition quoted_re (name : string) : regex :=
  RSeq (RChar dquote) (RLit name (RChar dquote)).

(** [extract_json_string_value], main.cpp 360-367, on a stack of [stack]
    calls. *)
Definition extract_json_string_value (stack : nat) (line : string)
    (key : regex) : attempt (option string) :=
  match regex_search_in stack (value_re key) line with
  | Overflow => Overflow
  | Returned (Some value) => Returned (Some (unescape_json_string value))
  | Returned None => Returned None
  end.

(** What [extract_json_string_value] returns when the stack holds its
    recursion. *)
Definition json_string_value (line : string) (key : regex) : option string :=
  match regex_search (value_re key) line with
  | Some value => Some (unescape_json_string value)
  | None => None
  end.

(** The stack holds the search of the key in the line. *)
Definition search_fits (stack : nat) (line : string) (key : regex) : bool :=
  match extract_json_string_value stack line key with
  | Overflow => false
  | Returned _ => true
  end.

(** The stack holds the two searches that [parse_zgrab_titles] makes in a
    line. *)
Definition line_fits (stack : nat) (line : string) : bool :=
  search_fits stack line (quoted_re "ip")
  && search_fits stack line (quoted_re "body").

(** ** The environment of the process *)

(** What the process does to the outside, in the order it does it. A line
    written with [std::endl] is recorded without its newline. *)
Inductive event : Type :=
| Stdout (text : string)
| Stderr (text : string)
| OpenRead (path : string)
| OpenWrite (path : string)
| CreateDirectories (path : string)
| Exists (path : string)
| Equivalent (path1 path2 : string)
| CopyFile (source target : string)
| FileSize (path : string)
| GetEnv (name : string)
| System (command : string).

(** The file system and the environment of the process.
    - [names]: the file that a path names. The file system resolves a path
      against the working directory, through dot segments, repeated
      separators and links; its answer is the name under which the file is
      kept here, so two paths name the same file exactly when [names]
      gives them the same name.
    - [files]: the regular files, with their contents;
      [dirs]: the directories; both by name.
    - [locked]: the names that cannot be opened for writing.
    - [faulty]: the names whose status cannot be queried: the query fails
      with an error other than not found (a component longer than the file
      system allows, a directory that may not be searched).
    - [stack]: the number of calls of the regular expression matcher that
      the stack of the process holds.
    - [cwd]: the working directory; [env_path]: the PATH variable;
      [trace]: the events so far, the latest last.
    Every regular file that exists can be opened for reading. The
    contents of a file that a stream is writing are those the stream has
    been given; they reach the file when the stream is flushed or closed,
    so that the file may hold less when the process is aborted or killed
    with the stream open. An input stream gives the contents its file has
    when the reading loop starts. *)
Record world : Type := World {
  files : gmap string string;
  dirs : gset string;
  locked : gset string;
  faulty : gset string;
  names : string -> string;
  stack : nat;
  cwd : string;
  env_path : option string;
  trace : list event
}.

Definition set_files (f : gmap string string) (w : world) : world :=
  {| files := f; dirs := dirs w; locked := locked w; faulty := faulty w;
     names := names w; stack := stack w; cwd := cwd w;
     env_path := env_path w; trace := trace w |}.

Definition set_dirs (d : gset string) (w : world) : world :=
  {| files := files w; dirs := d; locked := locked w; faulty := faulty w;
     names := names w; stack := stack w; cwd := cwd w;
     env_path := env_path w; trace := trace w |}.

Definition log (e : event) (w : world) : world :=
  {| files := files w; dirs := dirs w; locked := locked w; faulty := faulty w;
     names := names w; stack := stack w; cwd := cwd w;
     env_path := env_path w; trace := trace w ++ [e] |}.

Definition newline : string := String char_nl EmptyString.

(** *** Steps that can end the process *)

(** How the process ends: [return] from main, [std::terminate] after an
    exception that nothing catches, or the signal that kills it when the
    stack overflows. *)
Inductive exit_status : Type :=
| Exited (code : Z)
| Aborted
| Crashed.

(** A step either gives a value or ends the process. *)
Inductive result (A : Type) : Type :=
| Value (a : A)
| Stop (status : exit_status).

Arguments Value {A} a.
Arguments Stop {A} status.

Definition prog (A : Type) : Type := world -> result A * world.

Definition ret {A : Type} (a : A) : prog A := fun w => (Value a, w).

Definition bind {A B : Type} (c : prog A) (k : A -> prog B) : prog B :=
  fun w =>
    match c w with
    | (Value a, w') => k a w'
    | (Stop status, w') => (Stop status, w')
    end.

Notation "'let*' x := c 'in' k" := (bind c (fun x => k))
  (at level 10, x name, c at level 100, k at level 200).

(** A function of the program that returns normally. *)
Definition call {A : Type} (f : world -> A * world) : prog A :=
  fun w => let '(a, w') := f w in (Value a, w').

Definition exit_with {A : Type} (code : Z) : prog A :=
  fun w => (Stop (Exited code), w).

Definition emit (e : event) : prog unit := fun w => (Value tt, log e w).

(** *** Paths (POSIX) *)

Definition is_absolute (p : string) : bool :=
  match p with
  | String c _ => Ascii.eqb c "/"
  | EmptyString => false
  end.

Fixpoint ends_with_slash (p : string) : bool :=
  match p with
  | EmptyString => false
  | String c EmptyString => Ascii.eqb c "/"
  | String _ p' => ends_with_slash p'
  end.

(** [a / b] of [std::filesystem::path]. *)
Definition path_join (a b : string) : string :=
  if is_absolute b then b
  else if string_empty a || ends_with_slash a then a +:+ b
  else a +:+ "/" +:+ b.

(** The file that a path names. *)
Definition resolve (w : world) (p : string) : string := names w p.

(** The names of a file system without links, for paths without dot
    segments and repeated separators: a relative path starts at the
    working directory. The worlds of the examples use it. *)
Definition plain_names (cwd p : string) : string :=
  if is_absolute p then p else path_join cwd p.

(** [os << p] for a [std::filesystem::path]: the path in double quotes, with
    a backslash before every double quote and backslash. *)
Fixpoint escape_quoted (s : string) : string :=
  match s with
  | EmptyString => EmptyString
  | String c s' =>
      if Ascii.eqb c dquote || Ascii.eqb c backslash
      then String backslash (String c (escape_quoted s'))
      else String c (escape_quoted s')
  end.

Definition show_path (p : string) : string :=
  String dquote (escape_quoted p +:+ String dquote EmptyString).

(** *** File streams *)

(** [std::ifstream in(p)]: the file read, or [None] when the stream is in
    the failed state. A directory opens like a regular file; it is the
    first read that fails. *)
Definition ifstream_open (p : string) (w : world) : option string * world :=
  let w := log (OpenRead p) w in
  if bool_decide (is_Some (files w !! resolve w p))
     || bool_decide (resolve w p ∈ dirs w)
  then (Some (resolve w p), w)
  else (None, w).

(** Everything an open input stream still has to give to [std::getline]:
    the contents of a regular file, and nothing for a directory, on which
    the first read fails and leaves the stream in the failed state. *)
Definition ifstream_content (f : string) (w : world) : string :=
  match files w !! f with
  | Some content => content
  | None => EmptyString
  end.

(** The whole input through [std::istreambuf_iterator]: on a directory the
    stream buffer throws, and nothing catches it. *)
Definition istreambuf_read (f : string) : prog string :=
  fun w =>
    match files w !! f with
    | Some content => (Value content, w)
    | None => (Stop Aborted, w)
    end.

(** [std::ofstream out(p)]: the file is created or truncated; [None] is the
    failed state. *)
Definition ofstream_open (p : string) (w : world) : option string * world :=
  let w := log (OpenWrite p) w in
  let f := resolve w p in
  if string_empty p || bool_decide (f ∈ locked w) || bool_decide (f ∈ dirs w)
  then (None, w)
  else (Some f, set_files (<[f := EmptyString]> (files w)) w).

(** [out << data]; a stream in the failed state ignores it. *)
Definition ofstream_write (out : option string) (data : string) (w : world)
  : world :=
  match out with
  | Some f => set_files (alter (fun content => content +:+ data) f (files w)) w
  | None => w
  end.

(** The file can be opened for reading. *)
Definition can_read (w : world) (p : string) : bool :=
  match files w !! resolve w p with
  | Some _ => true
  | None => false
  end.

(** The file can be opened for writing. *)
Definition can_write (w : world) (p : string) : bool :=
  negb (string_empty p || bool_decide (resolve w p ∈ locked w)
        || bool_decide (resolve w p ∈ dirs w)).

(** The path names a directory. *)
Definition is_directory (w : world) (p : string) : bool :=
  bool_decide (resolve w p ∈ dirs w).

(** ** The ASN range extractor *)

(** The [for] loop of [build_list_from_asn_json], main.cpp 252-265: [n]
    iterations are left, [i] is the index, [count] the counter. *)
Fixpoint emit_ranges (n i : nat) (starts ends countries : list string)
    (country_filter : string) (out : option string) (count : nat) (w : world)
  : nat * world :=
  match n with
  | 0 => (count, w)
  | S n' =>
      if negb (string_empty country_filter)
         && ((length countries <=? i)
             || negb (String.eqb (to_lower (nth i countries EmptyString))
                        (to_lower country_filter)))
      then emit_ranges n' (S i) starts ends countries country_filter out count w
      else if is_ipv4 (nth i starts EmptyString)
              && is_ipv4 (nth i ends EmptyString)
      then
        emit_ranges n' (S i) starts ends countries country_filter out (S count)
          (ofstream_write out
             (nth i starts EmptyString +:+ "-" +:+ nth i ends EmptyString
              +:+ newline) w)
      else emit_ranges n' (S i) starts ends countries country_filter out count w
  end.

(** [build_list_from_asn_json], main.cpp 213-269. A match of the three
    expressions is one field of the document, a key and an address or a
    name; the recursion of the matcher, which [search_value] counts for
    the bodies of the grabber output, is not counted for them. *)
Definition build_list_from_asn_json (json_path list_path country_filter : string)
  : prog bool :=
  let* in_ := call (ifstream_open json_path) in
  match in_ with
  | None =>
      let* _ := emit (Stderr ("Failed to open " +:+ show_path json_path)) in
      ret false
  | Some f =>
      let* content := istreambuf_read f in
      let starts := regex_captures start_re content in
      let ends := regex_captures end_re content in
      let countries := regex_captures country_re content in
      if (length starts =? 0) || (length ends =? 0)
         || negb (length starts =? length ends)
      then
        let* _ :=
          emit (Stderr ("Could not parse start/end IPs from "
                        +:+ show_path json_path)) in
        ret false
      else
        let* out := call (ofstream_open list_path) in
        match out with
        | None =>
            let* _ := emit (Stderr ("Failed to write " +:+ show_path list_path)) in
            ret false
        | Some _ =>
            let* count :=
              call (emit_ranges (length starts) 0 starts ends countries
                      country_filter out 0) in
            let* _ :=
              emit (Stdout ("Wrote " +:+ pretty count +:+ " IPv4 ranges to "
                            +:+ show_path list_path)) in
            ret (0 <? count)
        end
  end.

(** [write_single_input_list], main.cpp 271-279. *)
Definition write_single_input_list (list_path input : string) (w : world)
  : bool * world :=
  let '(out, w) := ofstream_open list_path w in
  match out with
  | None => (false, log (Stderr ("Failed to write " +:+ show_path list_path)) w)
  | Some _ => (true, ofstream_write out (input +:+ newline) w)
  end.

(** ** The scan-result splitter *)

(** The [while] loop of [parse_masscan_results], main.cpp 298-311, over the
    lines still to be read. *)
Fixpoint split_hits (lines : list string) (out_80 out_443 : option string)
    (count_80 count_443 : nat) (w : world) : nat * nat * world :=
  match lines with
  | [] => (count_80, count_443, w)
  | line :: lines' =>
      let tokens := split_ws line in
      if (4 <=? length tokens)
         && String.eqb (nth 0 tokens EmptyString) "open"
         && String.eqb (nth 1 tokens EmptyString) "tcp"
      then
        let port := nth 2 tokens EmptyString in
        let ip := nth 3 tokens EmptyString in
        if String.eqb port "80"
        then split_hits lines' out_80 out_443 (S count_80) count_443
               (ofstream_write out_80 (ip +:+ newline) w)
        else if String.eqb port "443"
        then split_hits lines' out_80 out_443 count_80 (S count_443)
               (ofstream_write out_443 (ip +:+ newline) w)
        else split_hits lines' out_80 out_443 count_80 count_443 w
      else split_hits lines' out_80 out_443 count_80 count_443 w
  end.

(** [parse_masscan_results], main.cpp 281-316. The input is read after the
    two output files have been opened. *)
Definition parse_masscan_results (masscan_file out80 out443 : string)
    (w : world) : bool * world :=
  let '(in_, w) := ifstream_open masscan_file w in
  match in_ with
  | None => (false, log (Stderr ("Failed to read " +:+ show_path masscan_file)) w)
  | Some f =>
      let '(out_80, w) := ofstream_open out80 w in
      let '(out_443, w) := ofstream_open out443 w in
      match out_80, out_443 with
      | Some _, Some _ =>
          let lines := getline_all char_nl (ifstream_content f w) in
          let '(count_80, count_443, w) :=
            split_hits lines out_80 out_443 0 0 w in
          let w := log (Stdout ("Open port 80 IPs: " +:+ pretty count_80)) w in
          let w := log (Stdout ("Open port 443 IPs: " +:+ pretty count_443)) w in
          (true, w)
      | _, _ => (false, log (Stderr "Failed to open output IP files.") w)
      end
  end.

(** ** The title extractor *)

(** A search of [extract_json_string_value] as a step of the process: the
    process is killed when the recursion of the matcher outgrows the
    stack. *)
Definition search_value (line : string) (key : regex) : prog (option string) :=
  fun w =>
    match extract_json_string_value (stack w) line key with
    | Overflow => (Stop Crashed, w)
    | Returned value => (Value value, w)
    end.

(** The [while] loop of [parse_zgrab_titles], main.cpp 399-411. Both
    values are searched before the first is looked at. *)
Fixpoint emit_titles (lines : list string) (out : option string)
  : prog unit :=
  match lines with
  | [] => ret tt
  | line :: lines' =>
      let* ip := search_value line (quoted_re "ip") in
      let* body := search_value line (quoted_re "body") in
      match ip with
      | None => emit_titles lines' out
      | Some ip =>
          match body with
          | None =>
              let* _ :=
                call (fun w =>
                        (tt, ofstream_write out
                               ("IP: " +:+ ip +:+ " - No response body found"
                                +:+ newline) w)) in
              emit_titles lines' out
          | Some body =>
              let title := extract_title body in
              let* _ :=
                call (fun w =>
                        (tt, ofstream_write out
                               ("IP: " +:+ ip +:+ " - Title: " +:+ title
                                +:+ newline) w)) in
              emit_titles lines' out
          end
      end
  end.

(** [parse_zgrab_titles], main.cpp 391-414; [out] is the open sink of the
    caller. *)
Definition parse_zgrab_titles (zgrab_file : string) (out : option string)
  : prog bool :=
  let* in_ := call (ifstream_open zgrab_file) in
  match in_ with
  | None =>
      let* _ := emit (Stderr ("Failed to read " +:+ show_path zgrab_file)) in
      ret false
  | Some f =>
      let* lines :=
        (fun w => (Value (getline_all char_nl (ifstream_content f w)), w)) in
      let* _ := emit_titles lines out in
      ret true
  end.

(** ** The driver *)

(** *** The file system library *)

(** The path names a file or a directory. *)
Definition present (w : world) (p : string) : bool :=
  bool_decide (is_Some (files w !! resolve w p))
  || bool_decide (resolve w p ∈ dirs w).

(** The status of the path cannot be queried. *)
Definition status_fails (w : world) (p : string) : bool :=
  bool_decide (resolve w p ∈ faulty w).

(** [fs::exists(p)]: throws when the status query fails with an error other
    than not found. *)
Definition fs_exists (p : string) : prog bool :=
  fun w =>
    if status_fails w p then (Stop Aborted, log (Exists p) w)
    else (Value (present w p), log (Exists p) w).

(** [fs::create_directories(p)]: throws when the status of the path cannot
    be queried, when the path names a regular file, or when the directory
    cannot be written. Parent directories are not recorded. *)
Definition create_directories (p : string) : prog unit :=
  fun w =>
    let w := log (CreateDirectories p) w in
    if status_fails w p
       || bool_decide (is_Some (files w !! resolve w p))
       || bool_decide (resolve w p ∈ locked w)
    then (Stop Aborted, w)
    else (Value tt, set_dirs (dirs w ∪ {[resolve w p]}) w).

(** [fs::equivalent(p1, p2)]: throws when the status of one of the paths
    cannot be queried, and when neither path exists. *)
Definition fs_equivalent (p1 p2 : string) : prog bool :=
  fun w =>
    let w' := log (Equivalent p1 p2) w in
    if status_fails w p1 || status_fails w p2 then (Stop Aborted, w')
    else if present w p1 && present w p2
    then (Value (bool_decide (resolve w p1 = resolve w p2)), w')
    else if negb (present w p1) && negb (present w p2)
    then (Stop Aborted, w')
    else (Value false, w').

(** [fs::copy_file(source, target, overwrite_existing)]: throws when the
    source is no regular file, when both name the same file, or when the
    target cannot be written. *)
Definition copy_file (source target : string) : prog unit :=
  fun w =>
    let w' := log (CopyFile source target) w in
    match files w !! resolve w source with
    | None => (Stop Aborted, w')
    | Some content =>
        if bool_decide (resolve w source = resolve w target)
           || negb (can_write w target)
        then (Stop Aborted, w')
        else (Value tt, set_files (<[resolve w target := content]> (files w)) w')
    end.

(** [fs::file_size(p)]: throws when the path names no regular file. *)
Definition file_size (p : string) : prog nat :=
  fun w =>
    let w' := log (FileSize p) w in
    match files w !! resolve w p with
    | Some content => (Value (String.length content), w')
    | None => (Stop Aborted, w')
    end.

(** [quote_path], main.cpp 78-84, outside Windows. *)
Definition quote_path (path : string) : string := "'" +:+ path +:+ "'".

(** The [while] loop of [find_in_path], main.cpp 99-107, over the
    directories still to come. *)
Fixpoint find_in_dirs (todo : list string) (name : string)
  : prog (option string) :=
  match todo with
  | [] => ret None
  | dir :: todo' =>
      if string_empty dir then find_in_dirs todo' name
      else
        let candidate := path_join dir name in
        let* found := fs_exists candidate in
        if found then ret (Some candidate) else find_in_dirs todo' name
  end.

(** [find_in_path], main.cpp 86-109, outside Windows. *)
Definition find_in_path (name : string) : prog (option string) :=
  let* _ := emit (GetEnv "PATH") in
  fun w =>
    match env_path w with
    | None => (Value None, w)
    | Some paths => find_in_dirs (getline_all ":" paths) name w
    end.

(** [print_usage], main.cpp 416-426. *)
Definition usage : string :=
  "Usage: 0xjam3z-scanner <ip|cidr|range|list|country_asn.json> [options]"
  +:+ newline +:+ "Options:" +:+ newline
  +:+ "  --ports <list>        Ports to scan (default: 80,443)" +:+ newline
  +:+ "  --rate <n>            Masscan rate (default: 10000)" +:+ newline
  +:+ "  --no-download         Do not auto-download tools" +:+ newline
  +:+ "  --output <file>       Output file for titles (default: opendomains)"
  +:+ newline
  +:+ "  --list                Treat input as a pre-built masscan list file"
  +:+ newline
  +:+ "  --country <name>      Filter country_name when parsing country_asn.json"
  +:+ newline
  +:+ "  --help                Show this help" +:+ newline.

Definition print_usage : prog unit := emit (Stdout usage).

(** [struct Config], main.cpp 15-24. *)
Record Config : Type := {
  input : string;
  ports : string;
  rate : string;
  list_file : string;
  output_file : string;
  no_download : bool;
  list_mode : bool;
  country_filter : string
}.

Definition default_config : Config :=
  {| input := EmptyString; ports := "80,443"; rate := "10000";
     list_file := "list"; output_file := "opendomains"; no_download := false;
     list_mode := false; country_filter := EmptyString |}.

Definition set_input (v : string) (c : Config) : Config :=
  {| input := v; ports := ports c; rate := rate c; list_file := list_file c;
     output_file := output_file c; no_download := no_download c;
     list_mode := list_mode c; country_filter := country_filter c |}.
Definition set_ports (v : string) (c : Config) : Config :=
  {| input := input c; ports := v; rate := rate c; list_file := list_file c;
     output_file := output_file c; no_download := no_download c;
     list_mode := list_mode c; country_filter := country_filter c |}.
Definition set_rate (v : string) (c : Config) : Config :=
  {| input := input c; ports := ports c; rate := v; list_file := list_file c;
     output_file := output_file c; no_download := no_download c;
     list_mode := list_mode c; country_filter := country_filter c |}.
Definition set_output_file (v : string) (c : Config) : Config :=
  {| input := input c; ports := ports c; rate := rate c; list_file := list_file c;
     output_file := v; no_download := no_download c;
     list_mode := list_mode c; country_filter := country_filter c |}.
Definition set_no_download (c : Config) : Config :=
  {| input := input c; ports := ports c; rate := rate c; list_file := list_file c;
     output_file := output_file c; no_download := true;
     list_mode := list_mode c; country_filter := country_filter c |}.
Definition set_list_mode (c : Config) : Config :=
  {| input := input c; ports := ports c; rate := rate c; list_file := list_file c;
     output_file := output_file c; no_download := no_download c;
     list_mode := true; country_filter := country_filter c |}.
Definition set_country_filter (v : string) (c : Config) : Config :=
  {| input := input c; ports := ports c; rate := rate c; list_file := list_file c;
     output_file := output_file c; no_download := no_download c;
     list_mode := list_mode c; country_filter := v |}.

(** What one argument makes [parse_args] do. *)
Inductive arg_action : Type :=
| ArgHelp
| ArgValue (update : string -> Config -> Config)
| ArgFlag (update : Config -> Config)
| ArgUnknown
| ArgInput
| ArgUnexpected.

(** The chain of tests of [parse_args], main.cpp 436-459, in its order;
    [has_next] is [i + 1 < argc]. An option that takes a value and stands
    last falls through to the unknown options. *)
Definition classify_arg (arg : string) (has_next : bool) (cfg : Config)
  : arg_action :=
  if String.eqb arg "--help" || String.eqb arg "-h" then ArgHelp
  else if String.eqb arg "--ports" && has_next then ArgValue set_ports
  else if String.eqb arg "--rate" && has_next then ArgValue set_rate
  else if String.eqb arg "--no-download" then ArgFlag set_no_download
  else if String.eqb arg "--output" && has_next then ArgValue set_output_file
  else if String.eqb arg "--list" then ArgFlag set_list_mode
  else if String.eqb arg "--country" && has_next then ArgValue set_country_filter
  else if String.prefix "--" arg then ArgUnknown
  else if string_empty (input cfg) then ArgInput
  else ArgUnexpected.

(** The [for] loop of [parse_args], main.cpp 434-460, over the arguments
    still to come; [None] is the return of false. *)
Fixpoint parse_args_loop (args : list string) (cfg : Config)
  : prog (option Config) :=
  match args with
  | [] => ret (Some cfg)
  | arg :: rest =>
      match rest with
      | value :: rest' =>
          match classify_arg arg true cfg with
          | ArgHelp => let* _ := print_usage in ret None
          | ArgValue update => parse_args_loop rest' (update value cfg)
          | ArgFlag update => parse_args_loop rest (update cfg)
          | ArgUnknown =>
              let* _ := emit (Stderr ("Unknown option: " +:+ arg)) in ret None
          | ArgInput => parse_args_loop rest (set_input arg cfg)
          | ArgUnexpected =>
              let* _ := emit (Stderr ("Unexpected argument: " +:+ arg)) in
              ret None
          end
      | [] =>
          match classify_arg arg false cfg with
          | ArgHelp => let* _ := print_usage in ret None
          | ArgValue _ => ret None (* not reached: no value follows *)
          | ArgFlag update => ret (Some (update cfg))
          | ArgUnknown =>
              let* _ := emit (Stderr ("Unknown option: " +:+ arg)) in ret None
          | ArgInput => ret (Some (set_input arg cfg))
          | ArgUnexpected =>
              let* _ := emit (Stderr ("Unexpected argument: " +:+ arg)) in
              ret None
          end
      end
  end.

(** [parse_args], main.cpp 428-468; [argv] includes the program name. *)
Definition parse_args (argv : list string) (cfg : Config)
  : prog (option Config) :=
  if length argv <? 2 then let* _ := print_usage in ret None
  else
    let* parsed := parse_args_loop (tail argv) cfg in
    match parsed with
    | None => ret None
    | Some cfg =>
        if string_empty (input cfg) then let* _ := print_usage in ret None
        else ret (Some cfg)
    end.

(** The part of a path after its last separator. *)
Fixpoint after_last (c : ascii) (s : string) : option string :=
  match s with
  | EmptyString => None
  | String a s' =>
      match after_last c s' with
      | Some r => Some r
      | None => if Ascii.eqb a c then Some s' else None
      end
  end.

Definition filename (p : string) : string :=
  match after_last "/" p with
  | Some f => f
  | None => p
  end.

(** [p.extension()]: from the last dot of the file name on; a dot that
    starts the file name, and the names dot and dot-dot, give none. *)
Definition extension (p : string) : string :=
  let f := filename p in
  if String.eqb f "." || String.eqb f ".." then EmptyString
  else
    match f with
    | EmptyString => EmptyString
    | String _ f' =>
        match after_last "." f' with
        | Some e => String "." e
        | None => EmptyString
        end
    end.

(** The two diagnostics of main.cpp 499-521 for an input that is no ASN
    table. *)
Definition country_error : string :=
  "--country requires a country_asn.json input.".

Definition list_error (input_path : string) : string :=
  "List file not found: " +:+ show_path input_path.

Section Driver.

(** [std::system]: the exit status of a shell command and what the command
    did to the world. The scanner, the grabber, git, make and go are outside
    this program, so every property of main is stated for all of them. *)
Variable system_call : string -> world -> Z * world.

(** [run_command], main.cpp 111-115. *)
Definition run_command (cmd : string) : prog bool :=
  let* _ := emit (Stdout ("[cmd] " +:+ cmd)) in
  fun w =>
    let '(status, w') := system_call cmd (log (System cmd) w) in
    (Value (status =? 0)%Z, w').

(** [ensure_masscan], main.cpp 117-166, outside Windows. *)
Definition ensure_masscan (base_dir : string) (no_download : bool)
  : prog (option string) :=
  let exe_name := "masscan" in
  let* found := find_in_path exe_name in
  match found with
  | Some path => ret (Some path)
  | None =>
      let local_bin := path_join (path_join base_dir "bin") exe_name in
      let* local_found := fs_exists local_bin in
      if local_found then ret (Some local_bin)
      else if no_download then
        let* _ := emit (Stderr "masscan not found and downloads disabled.") in
        ret None
      else
        let third_party := path_join base_dir "third_party" in
        let repo_dir := path_join third_party "masscan" in
        let* _ := create_directories third_party in
        let* have_repo := fs_exists repo_dir in
        let* cloned :=
          (if have_repo then ret true
           else run_command
                  ("git clone https://github.com/robertdavidgraham/masscan.git "
                   +:+ quote_path repo_dir)) in
        if negb cloned then
          let* _ := emit (Stderr "Failed to clone masscan.") in ret None
        else
          let* made := run_command ("make -C " +:+ quote_path repo_dir) in
          if negb made then
            let* _ := emit (Stderr "Failed to build masscan.") in ret None
          else
            let* _ := create_directories (path_join base_dir "bin") in
            let built := path_join (path_join repo_dir "bin") "masscan" in
            let* built_found := fs_exists built in
            if negb built_found then
              let* _ :=
                emit (Stderr "masscan build did not produce expected binary.") in
              ret None
            else
              let* _ := copy_file built local_bin in
              ret (Some local_bin)
  end.

(** [ensure_zgrab2], main.cpp 168-211, outside Windows. *)
Definition ensure_zgrab2 (base_dir : string) (no_download : bool)
  : prog (option string) :=
  let exe_name := "zgrab2" in
  let* found := find_in_path exe_name in
  match found with
  | Some path => ret (Some path)
  | None =>
      let local_bin := path_join (path_join base_dir "bin") exe_name in
      let* local_found := fs_exists local_bin in
      if local_found then ret (Some local_bin)
      else if no_download then
        let* _ := emit (Stderr "zgrab2 not found and downloads disabled.") in
        ret None
      else
        let third_party := path_join base_dir "third_party" in
        let repo_dir := path_join third_party "zgrab2" in
        let* _ := create_directories third_party in
        let* have_repo := fs_exists repo_dir in
        let* cloned :=
          (if have_repo then ret true
           else run_command
                  ("git clone https://github.com/zmap/zgrab2.git "
                   +:+ quote_path repo_dir)) in
        if negb cloned then
          let* _ := emit (Stderr "Failed to clone zgrab2.") in ret None
        else
          let* _ := create_directories (path_join base_dir "bin") in
          let build_cmd :=
            "cd " +:+ quote_path repo_dir +:+ " && go build -o "
            +:+ quote_path local_bin +:+ " ./cmd/zgrab2" in
          let* made := run_command build_cmd in
          if negb made then
            let* _ :=
              emit (Stderr "Failed to build zgrab2. Ensure Go is installed.") in
            ret None
          else ret (Some local_bin)
  end.

(** main.cpp 476-489: the workspace directories and the two tools. The
    result is the base directory and the paths of the scanner and of the
    grabber. *)
Definition acquire_tools (cfg : Config) : prog (string * string * string) :=
  let* base_dir := (fun w => (Value (cwd w), w)) in
  let* _ := create_directories (path_join base_dir "bin") in
  let* _ := create_directories (path_join base_dir "third_party") in
  let* masscan := ensure_masscan base_dir (no_download cfg) in
  match masscan with
  | None => let* _ := emit (Stderr "masscan is required.") in exit_with 1
  | Some masscan =>
      let* zgrab2 := ensure_zgrab2 base_dir (no_download cfg) in
      match zgrab2 with
      | None => let* _ := emit (Stderr "zgrab2 is required.") in exit_with 1
      | Some zgrab2 => ret (base_dir, masscan, zgrab2)
      end
  end.

(** main.cpp 491-523: the list file is prepared from the input; the value
    is [list_ready]. *)
Definition prepare_list (cfg : Config) (base_dir : string) : prog bool :=
  let input_path := input cfg in
  let list_path := path_join base_dir (list_file cfg) in
  let* found := fs_exists input_path in
  if found then
    if String.eqb (extension input_path) ".json" then
      build_list_from_asn_json input_path list_path (country_filter cfg)
    else if negb (string_empty (country_filter cfg)) then
      let* _ := emit (Stderr country_error) in
      exit_with 1
    else if list_mode cfg then
      let* same := fs_equivalent input_path list_path in
      if same then ret true
      else let* _ := copy_file input_path list_path in ret true
    else call (write_single_input_list list_path (input cfg))
  else if list_mode cfg then
    let* _ := emit (Stderr (list_error input_path)) in
    exit_with 1
  else if negb (string_empty (country_filter cfg)) then
    let* _ := emit (Stderr country_error) in
    exit_with 1
  else call (write_single_input_list list_path (input cfg)).

(** One grabber run of main.cpp 547-561; its failure is only reported. *)
Definition grab_port (zgrab2 port open_ips zgrab_out : string) : prog unit :=
  let* size := file_size open_ips in
  if 0 <? size then
    let cmd :=
      quote_path zgrab2 +:+ " http --port " +:+ port +:+ " --input-file "
      +:+ quote_path open_ips +:+ " --max-redirects 0 --output-file "
      +:+ quote_path zgrab_out in
    let* ok := run_command cmd in
    if negb ok then emit (Stderr ("zgrab2 failed for port " +:+ port +:+ "."))
    else ret tt
  else ret tt.

(** main.cpp 530-577: the scan, the split, the grabs and the report. *)
Definition scan_and_report (cfg : Config) (base_dir masscan zgrab2 : string)
  : prog unit :=
  let list_path := path_join base_dir (list_file cfg) in
  let masscan_output := path_join base_dir "masscan_results.txt" in
  let open80 := path_join base_dir "open_ips80.txt" in
  let open443 := path_join base_dir "open_ips443.txt" in
  let zgrab80 := path_join base_dir "zgrab_results_80.json" in
  let zgrab443 := path_join base_dir "zgrab_results_443.json" in
  let masscan_cmd :=
    quote_path masscan +:+ " -p" +:+ ports cfg +:+ " -iL "
    +:+ quote_path list_path +:+ " --rate=" +:+ rate cfg
    +:+ " --exclude 255.255.255.255 --wait 0 -oL "
    +:+ quote_path masscan_output in
  let* scanned := run_command masscan_cmd in
  if negb scanned then
    let* _ :=
      emit (Stderr "masscan failed. You may need elevated privileges.") in
    exit_with 1
  else
    let* split := call (parse_masscan_results masscan_output open80 open443) in
    if negb split then exit_with 1
    else
      let* _ := grab_port zgrab2 "80" open80 zgrab80 in
      let* _ := grab_port zgrab2 "443" open443 zgrab443 in
      let* out := call (ofstream_open (output_file cfg)) in
      match out with
      | None =>
          let* _ :=
            emit (Stderr ("Failed to open output file: " +:+ output_file cfg)) in
          exit_with 1
      | Some _ =>
          let* have80 := fs_exists zgrab80 in
          let* _ :=
            (if have80 then parse_zgrab_titles zgrab80 out
             else ret false) in
          let* have443 := fs_exists zgrab443 in
          let* _ :=
            (if have443 then parse_zgrab_titles zgrab443 out
             else ret false) in
          let* _ := emit (Stdout "Success") in
          exit_with 0
      end.

(** [main], main.cpp 470-578. *)
Definition main (argv : list string) : prog unit :=
  let* parsed := parse_args argv default_config in
  match parsed with
  | None => exit_with 1
  | Some cfg =>
      let* tools := acquire_tools cfg in
      let '(base_dir, masscan, zgrab2) := tools in
      let* list_ready := prepare_list cfg base_dir in
      if negb list_ready then
        let* _ := emit (Stderr "Failed to prepare list file for masscan.") in
        exit_with 1
      else scan_and_report cfg base_dir masscan zgrab2
  end.

End Driver.

(** A step that never ends the process with status 0. *)
Definition no_success {A : Type} (c : prog A) : Prop :=
  forall w w', c w <> (Stop (Exited 0), w').

(** ** The file-level functions as the specification words them *)

Fixpoint concat_lines (lines : list string) : string :=
  match lines with
  | [] => EmptyString
  | line :: lines' => line +:+ concat_lines lines'
  end.

(** Step 1 of section 4.3: no filter is set, or the country sequence has an
    entry at [i] that equals the filter up to case. *)
Definition country_selected (country_filter : string) (countries : list string)
    (i : nat) : bool :=
  string_empty country_filter
  || match countries !! i with
     | Some country => String.eqb (to_lower country) (to_lower country_filter)
     | None => false
     end.

(** Steps 1 and 2: the record at [i] is kept. *)
Definition range_selected (country_filter : string)
    (starts ends countries : list string) (i : nat) : bool :=
  country_selected country_filter countries i
  && is_ipv4 (nth i starts EmptyString) && is_ipv4 (nth i ends EmptyString).

(** Step 3: the line of the record at [i]. *)
Definition range_line (starts ends : list string) (i : nat) : string :=
  nth i starts EmptyString +:+ "-" +:+ nth i ends EmptyString +:+ newline.

(** One line for every kept index, in document order. *)
Definition range_lines (country_filter : string)
    (starts ends countries : list string) : list string :=
  map (range_line starts ends)
    (List.filter (range_selected country_filter starts ends countries)
       (seq 0 (length starts))).

(** The three sequences of a document. *)
Definition asn_starts (content : string) : list string :=
  regex_captures start_re content.
Definition asn_ends (content : string) : list string :=
  regex_captures end_re content.
Definition asn_countries (content : string) : list string :=
  regex_captures country_re content.

(** The lines the specification has the extractor write for a document. *)
Definition asn_lines (country_filter content : string) : list string :=
  range_lines country_filter (asn_starts content) (asn_ends content)
    (asn_countries content).

(** The validation of section 4.3 passes. *)
Definition asn_valid (content : string) : bool :=
  negb (length (asn_starts content) =? 0)
  && (length (asn_starts content) =? length (asn_ends content)).

(** The extractor reaches its output loop. *)
Definition asn_emits (w : world) (json_path list_path : string) : bool :=
  can_read w json_path
  && asn_valid (ifstream_content (resolve w json_path) w)
  && can_write w list_path.

(** Section 4.4: a line is an open TCP hit on [port] when it has at least
    four tokens, the first of them open, the second tcp and the third the
    port; the fourth is the address. *)
Definition hit_ip (port line : string) : option string :=
  match split_ws line with
  | status :: protocol :: line_port :: ip :: _ =>
      if String.eqb status "open" && String.eqb protocol "tcp"
         && String.eqb line_port port
      then Some ip else None
  | _ => None
  end.

(** The lines of the destination file of [port]: one address per hit. *)
Definition hit_lines (port : string) (lines : list string) : list string :=
  map (fun ip => ip +:+ newline) (omap (hit_ip port) lines).

(** Section 3: the grab record of a line, when it has an ip field. *)
Definition grab_record (line : string) : option (string * option string) :=
  match json_string_value line (quoted_re "ip") with
  | Some ip => Some (ip, json_string_value line (quoted_re "body"))
  | None => None
  end.

(** Section 4.5: what a line of grabber output adds to the report. *)
Definition report_line (line : string) : string :=
  match grab_record line with
  | None => EmptyString
  | Some (ip, None) => "IP: " +:+ ip +:+ " - No response body found" +:+ newline
  | Some (ip, Some body) =>
      "IP: " +:+ ip +:+ " - Title: " +:+ extract_title body +:+ newline
  end.

(** ** Example inputs *)

Definition json_string (s : string) : string :=
  String dquote (s +:+ String dquote EmptyString).

Definition json_field (key value : string) : string :=
  json_string key +:+ ": " +:+ json_string value.

(** One record of the ASN table. *)
Definition asn_record (start_ip end_ip country : string) : string :=
  "{" +:+ json_field "start_ip" start_ip +:+ ", "
  +:+ json_field "end_ip" end_ip +:+ ", "
  +:+ json_field "country_name" country +:+ "}".

(** A table of three records, one of them of Norway. *)
Definition asn_example : string :=
  "[" +:+ asn_record "1.0.0.0" "1.0.0.255" "Australia" +:+ ","
  +:+ newline
  +:+ asn_record "2.16.0.0" "2.16.255.255" "Norway" +:+ ","
  +:+ newline
  +:+ asn_record "3.0.0.0" "3.0.0.255" "China" +:+ "]" +:+ newline.

(** A world with the given files, in the working directory /w. *)
Definition world_with (fs : list (string * string)) : world :=
  {| files := list_to_map fs; dirs := {["/w"]}; locked := ∅; faulty := ∅;
     names := plain_names "/w"; stack := 4096; cwd := "/w";
     env_path := None; trace := [] |}.



Definition world_asn : world := world_with [("/w/asn.json", asn_example)].

(** A run in which asn.json is a directory. *)
Definition world_asn_directory : world :=
  set_dirs {["/w"; "/w/asn.json"]} (world_with []).

(** The four lines of scanner output of section 8. *)
Definition scan_example : string :=
  "open tcp 80 1.1.1.1" +:+ newline +:+ "open tcp 443 2.2.2.2" +:+ newline
  +:+ "closed tcp 22 3.3.3.3" +:+ newline +:+ "open udp 80 4.4.4.4" +:+ newline.

Definition world_scan : world :=
  world_with [("/w/masscan_results.txt", scan_example)].

(** Three lines of grabber output: a host with a body, a host without one,
    and a line without an ip field. *)
Definition grab_example : string :=
  "{" +:+ json_field "ip" "1.1.1.1" +:+ ", "
  +:+ json_field "body" "<HTML><Title> Hello </Title></html>" +:+ "}" +:+ newline
  +:+ "{" +:+ json_field "ip" "2.2.2.2" +:+ "}" +:+ newline
  +:+ "{" +:+ json_field "status" "done" +:+ "}" +:+ newline.

Definition world_grab : world :=
  world_with [("/w/zgrab_results_80.json", grab_example);
              ("/w/opendomains", EmptyString)].

(** One line of grabber output whose title holds an escaped line break. *)
Definition grab_multiline : string :=
  "{" +:+ json_field "ip" "1.1.1.1" +:+ ", "
  +:+ json_field "body" "<title>Not\nFound</title>" +:+ "}" +:+ newline.

Definition world_multiline : world :=
  world_with [("/w/zgrab_results_80.json", grab_multiline);
              ("/w/opendomains", EmptyString)].


Definition world_bare : world :=
  {| files := ∅; dirs := {["/w"]}; locked := ∅; faulty := ∅;
     names := plain_names "/w"; stack := 4096; cwd := "/w";
     env_path := Some "/usr/bin"; trace := [] |}.

(** A shell in which every command fails and changes nothing. *)
Definition no_shell (cmd : string) (w : world) : Z * world := (127%Z, w).




(** ** Further vocabulary for the properties of the code *)

(** Tokens joined by single spaces. *)
Fixpoint join_ws (tokens : list string) : string :=
  match tokens with
  | [] => EmptyString
  | [token] => token
  | token :: tokens' => token +:+ String " " (join_ws tokens')
  end.

(** A token: not empty, and no whitespace in it. *)
Definition is_token (t : string) : bool :=
  negb (string_empty t) && string_forallb (fun c => negb (isspace c)) t.

(** [std::isupper] in the C locale. *)
Definition isupper (c : ascii) : bool :=
  (65 <=? nat_of_ascii c) && (nat_of_ascii c <=? 90).

(** A character of a dotted quad. *)
Definition ip_char (c : ascii) : bool := isdigit c || Ascii.eqb c ".".

(** A world in which the second destination of the splitter cannot be
    opened, and the port-80 file holds the result of an earlier run. *)
Definition world_locked : world :=
  {| files := list_to_map [("/w/masscan_results.txt", scan_example);
                           ("/w/open_ips80.txt", "8.8.8.8" +:+ newline)];
     dirs := {["/w"]}; locked := {["/w/open_ips443.txt"]}; faulty := ∅;
     names := plain_names "/w"; stack := 4096; cwd := "/w";
     env_path := None; trace := [] |}.

(** A world in which the scanner output is a directory. *)
Definition world_scan_directory : world :=
  set_dirs {["/w"; "/w/masscan_results.txt"]}
    (world_with [("/w/open_ips80.txt", "8.8.8.8" +:+ newline)]).

(** The grabber output of the second port, and a world with both outputs
    and an empty report. *)
Definition grab_example_443 : string :=
  "{" +:+ json_field "ip" "1.1.1.1" +:+ ", "
  +:+ json_field "body" "<title>Secure</title>" +:+ "}" +:+ newline.

(** A world whose stack holds 40 calls of the matcher: enough for the
    line without a body, not for the body of the first line. *)
Definition world_grab_shallow : world :=
  {| files := list_to_map [("/w/zgrab_results_80.json",
                             "{" +:+ json_field "ip" "2.2.2.2" +:+ "}" +:+ newline
                             +:+ grab_example);
                            ("/w/opendomains", EmptyString)];
     dirs := {["/w"]}; locked := ∅; faulty := ∅;
     names := plain_names "/w"; stack := 40; cwd := "/w";
     env_path := None; trace := [] |}.

Definition world_grab_both : world :=
  world_with [("/w/zgrab_results_80.json", grab_example);
              ("/w/zgrab_results_443.json", grab_example_443);
              ("/w/opendomains", EmptyString)].

(** A line of the target list: two accepted addresses with a dash between
    them. *)
Definition is_range_line (line : string) : Prop :=
  exists a b, line = a +:+ "-" +:+ b +:+ newline
              /\ is_ipv4 a = true /\ is_ipv4 b = true.

(** The options of [parse_args] that take a value. *)
Definition takes_value (opt : string) : bool :=
  String.eqb opt "--ports" || String.eqb opt "--rate"
  || String.eqb opt "--output" || String.eqb opt "--country".

(** Two worlds with the same file system, stack, working directory and
    environment; only what has been printed and logged may differ. *)
Definition same_store (w w' : world) : Prop :=
  files w' = files w /\ dirs w' = dirs w /\ locked w' = locked w
  /\ faulty w' = faulty w /\ names w' = names w /\ stack w' = stack w
  /\ cwd w' = cwd w /\ env_path w' = env_path w.

(** A directory of the PATH that the lookup of [name] passes over: it is
    empty, or the status of the candidate is queried and there is no such
    entry. *)
Definition skipped (w : world) (name dir : string) : Prop :=
  dir = EmptyString
  \/ (status_fails w (path_join dir name) = false
      /\ present w (path_join dir name) = false).

(** The lookup of [name] stops at this place of the PATH. *)
Definition stops_at (w : world) (name : string) (todo : list string)
    (dir : string) : Prop :=
  exists before after,
    todo = before ++ dir :: after
    /\ Forall (skipped w name) before
    /\ dir <> EmptyString.

(** A run in which the input names an existing file of targets. *)
Definition world_targets : world :=
  world_with [("/w/targets.txt", "10.0.0.0/24" +:+ newline)].

Definition cfg_targets : Config := set_input "targets.txt" default_config.

(** How a step may end the process: with status 0 after the message
    Success, or with status 1 after the usage text or a diagnostic; an
    uncaught exception and a stack overflow are left open. *)
Definition reported {A : Type} (r : result A * world) : Prop :=
  match fst r with
  | Value _ => True
  | Stop Aborted => True
  | Stop Crashed => True
  | Stop (Exited code) =>
      (code = 0%Z /\ last (trace (snd r)) = Some (Stdout "Success"))
      \/ (code = 1%Z
          /\ (last (trace (snd r)) = Some (Stdout usage)
              \/ exists msg, last (trace (snd r)) = Some (Stderr msg)))
  end.

Definition diagnosed {A : Type} (c : prog A) : Prop :=
  forall w, reported (c w).

(** A step that always ends the process. *)
Definition stops {A : Type} (c : prog A) : Prop :=
  forall w, exists status w', c w = (Stop status, w').

(** A shell in which every command succeeds and changes nothing. *)
Definition ok_shell (cmd : string) (w : world) : Z * world := (0%Z, w).

(** One item of a value of [value_re]: a character other than backslash
    and double quote, or a backslash and one more character. *)
Definition value_item : regex :=
  RAlt (RClass (fun c => negb (Ascii.eqb c backslash || Ascii.eqb c dquote)))
    (RSeq (RChar backslash) re_dot).

(** What [value_re] puts after the key. *)
Definition value_tail : regex :=
  re_colon_quote (RSeq (RGroup (RStar value_item)) (RChar dquote)).

(** A character that stands for itself in a regular expression: a letter,
    a digit or an underscore. *)
Definition is_word (c : ascii) : bool :=
  isupper c
  || ((97 <=? nat_of_ascii c) && (nat_of_ascii c <=? 122))
  || isdigit c || Ascii.eqb c "_".

(** The text of a JSON string between its quotes: no bare double quote,
    and every backslash followed by a character that is no line
    terminator. *)
Fixpoint raw_value (v : string) : bool :=
  match v with
  | EmptyString => true
  | String c v' =>
      if Ascii.eqb c backslash then
        match v' with
        | EmptyString => false
        | String d v'' =>
            negb (Ascii.eqb d char_nl || Ascii.eqb d char_cr) && raw_value v''
        end
      else negb (Ascii.eqb c dquote) && raw_value v'
  end.

(** A field in a line: the key, a colon between optional whitespace, and
    the value in double quotes. *)
Definition field_text (key ws1 ws2 value : string) : string :=
  key +:+ ws1
  +:+ String ":" (ws2 +:+ String dquote (value +:+ String dquote EmptyString)).

(** A line of scanner output for an open TCP port: the status, the
    protocol, the port, the address, and what the scanner adds after it. *)
Definition scan_line (port ip trailing : string) : string :=
  "open" +:+ String " " ("tcp" +:+ String " " (port +:+ String " "
                           (ip +:+ String " " trailing))).

(** The path that a lookup of a tool returns exists when it returns. *)
Definition path_exists (r : result (option string) * world) : Prop :=
  match r with
  | (Value (Some p), w) => present w p = true
  | _ => True
  end.

(** A step that keeps a property of the world, however it ends. *)
Definition preserves {A : Type} (P : world -> Prop) (c : prog A) : Prop :=
  forall w, P w -> P (snd (c w)).

(** The sink of the report exists and the paths name what they named. *)
Definition sink_kept (f : string) (n : string -> string) (w : world) : Prop :=
  is_Some (files w !! f) /\ names w = n.

(** * Properties *)

(** ** Characters and strings *)

Lemma isdigit_range (c : ascii) :
  isdigit c = true -> (0 <= digit_value c <= 9)%Z.
Proof.
  unfold isdigit, digit_value. intros H.
  apply andb_true_iff in H as [H1 H2].
  apply Nat.leb_le in H1, H2. lia.
Qed.

Lemma isdigit_not_space (c : ascii) : isdigit c = true -> isspace c = false.
Proof.
  unfold isdigit, isspace. intros H.
  apply andb_true_iff in H as [H1 H2].
  apply Nat.leb_le in H1, H2.
  destruct (Nat.eqb_spec (nat_of_ascii c) 32); [lia|].
  destruct (Nat.leb_spec 9 (nat_of_ascii c)); [|reflexivity].
  destruct (Nat.leb_spec (nat_of_ascii c) 13); [lia|reflexivity].
Qed.

Lemma isdigit_not_char (c d : ascii) :
  isdigit c = true -> isdigit d = false -> Ascii.eqb c d = false.
Proof.
  intros Hc Hd. destruct (Ascii.eqb_spec c d) as [->|]; congruence.
Qed.

Lemma string_length_app (s t : string) :
  String.length (s +:+ t) = String.length s + String.length t.
Proof. induction s as [|c s IH]; simpl; [reflexivity | now rewrite IH]. Qed.

Lemma string_app_assoc (s t u : string) : (s +:+ t) +:+ u = s +:+ (t +:+ u).
Proof. induction s as [|c s IH]; simpl; [reflexivity | now rewrite IH]. Qed.

Lemma string_app_nil_r (s : string) : s +:+ EmptyString = s.
Proof. induction s as [|c s IH]; simpl; [reflexivity | now rewrite IH]. Qed.

(** ** Input string streams *)

(** The parts of [getline_all] are the results of [getline], called until
    it fails. *)
Lemma getline_all_unfold (delim : ascii) (s : string) :
  getline_all delim s =
  match getline delim s with
  | None => []
  | Some (part, rest) => part :: getline_all delim rest
  end.
Proof.
  induction s as [|c s IH]; [reflexivity|].
  cbn [getline_all getline getline_chars].
  destruct (Ascii.eqb c delim); [reflexivity|].
  rewrite IH. unfold getline.
  destruct s as [|c' s']; [reflexivity|].
  now destruct (getline_chars delim (String c' s')).
Qed.

(** ** The IPv4 validator *)

Lemma leading_digits_decimal (s : string) (acc : Z) :
  string_forallb isdigit s = true -> leading_digits acc s = decimal_from acc s.
Proof.
  revert acc. induction s as [|c s IH]; intros acc H; simpl in *; [reflexivity|].
  apply andb_true_iff in H as [Hc Hs]. rewrite Hc.
  rewrite IH by assumption. f_equal. lia.
Qed.

Lemma decimal_three_digits (s : string) :
  string_forallb isdigit s = true -> String.length s <= 3 ->
  (0 <= decimal_value s <= 999)%Z.
Proof.
  unfold decimal_value.
  destruct s as [|c1 [|c2 [|c3 [|c4 s]]]]; simpl; intros H Hlen; try lia;
    repeat (apply andb_true_iff in H as [?%isdigit_range H]); lia.
Qed.

Lemma stoi_digits (part : string) :
  string_empty part = false -> String.length part <= 3 ->
  string_forallb isdigit part = true ->
  stoi part = Some (decimal_value part).
Proof.
  intros Hne Hlen Hd.
  pose proof (decimal_three_digits part Hd Hlen) as Hrange.
  destruct part as [|c part]; [discriminate|].
  simpl in Hd. apply andb_true_iff in Hd as [Hc Hd].
  unfold stoi. cbn [skip_ws]. rewrite (isdigit_not_space c Hc).
  rewrite (isdigit_not_char c "-" Hc eq_refl), (isdigit_not_char c "+" Hc eq_refl).
  rewrite Hc.
  rewrite leading_digits_decimal by (simpl; now rewrite Hc, Hd).
  fold (decimal_value (String c part)).
  unfold INT_MIN, INT_MAX.
  destruct (Z.leb_spec (-2147483648) (decimal_value (String c part))); [|lia].
  destruct (Z.leb_spec (decimal_value (String c part)) 2147483647); [|lia].
  reflexivity.
Qed.

(** The loop returns false at the first bad part, and otherwise compares the
    final counter with 4. *)
Lemma is_ipv4_loop_spec (todo : list string) (parts : nat) :
  is_ipv4_loop todo parts =
  Some (forallb segment_ok todo && (parts + length todo =? 4)).
Proof.
  revert parts. induction todo as [|part todo IH]; intros parts; simpl.
  - now rewrite Nat.add_0_r.
  - unfold segment_ok.
    destruct part as [|c part'] eqn:Epart; [reflexivity|].
    rewrite <- Epart. assert (Hne : string_empty part = false) by now subst.
    rewrite Hne. cbn [orb].
    assert (H1 : (1 <=? String.length part) = true) by (subst; reflexivity).
    rewrite H1. cbn [andb].
    destruct (Nat.ltb_spec 3 (String.length part)) as [Hlt|Hle].
    { destruct (Nat.leb_spec (String.length part) 3); [lia|reflexivity]. }
    destruct (Nat.leb_spec (String.length part) 3) as [_|]; [|lia].
    cbn [andb].
    destruct (string_forallb isdigit part) eqn:Hd; cbn [negb andb]; [|reflexivity].
    rewrite (stoi_digits part Hne Hle Hd).
    pose proof (decimal_three_digits part Hd Hle) as Hr.
    destruct (Z.ltb_spec (decimal_value part) 0); [lia|].
    destruct (Z.leb_spec 0 (decimal_value part)); [|lia]. cbn [orb andb].
    destruct (Z.ltb_spec 255 (decimal_value part));
      destruct (Z.leb_spec (decimal_value part) 255); try lia; [reflexivity|].
    rewrite IH. cbn [andb]. now rewrite Nat.add_succ_r.
Qed.

Lemma getline_all_split_on (s : string) :
  s <> EmptyString ->
  getline_all "." s = split_on "." (drop_final_dot s).
Proof.
  induction s as [|c s IH]; intros Hs; [congruence|].
  destruct s as [|c' s'].
  - cbn [getline_all drop_final_dot].
    destruct (Ascii.eqb c ".") eqn:E; cbn [split_on]; [|rewrite E]; reflexivity.
  - change (drop_final_dot (String c (String c' s')))
      with (String c (drop_final_dot (String c' s'))).
    cbn [getline_all split_on]. rewrite <- IH by discriminate. reflexivity.
Qed.

Lemma is_ipv4_run_quad (s : string) :
  is_ipv4_run s = Some (negb (contains_char ":" s) && quad_ok (drop_final_dot s)).
Proof.
  unfold is_ipv4_run. destruct (contains_char ":" s); [reflexivity|].
  cbn [negb andb]. rewrite is_ipv4_loop_spec. f_equal.
  destruct s as [|c s]; [reflexivity|].
  rewrite (getline_all_split_on (String c s)) by discriminate.
  unfold quad_ok. cbn [Nat.add]. apply andb_comm.
Qed.

Lemma is_ipv4_run_total (s : string) : exists b, is_ipv4_run s = Some b.
Proof. eexists. apply is_ipv4_run_quad. Qed.

Lemma contains_char_cons (c a : ascii) (s : string) :
  contains_char c (String a s) = Ascii.eqb c a || contains_char c s.
Proof.
  unfold contains_char. cbn [String.index String.prefix].
  destruct (Ascii.eqb_spec c a) as [->|Hne].
  - destruct (ascii_dec a a); [|congruence]. now destruct s.
  - destruct (ascii_dec c a); [congruence|].
    now destruct (String.index 0 (String c EmptyString) s).
Qed.

Lemma contains_char_app (c : ascii) (s t : string) :
  contains_char c (s +:+ t) = contains_char c s || contains_char c t.
Proof.
  induction s as [|a s IH]; [reflexivity|].
  change (String a s +:+ t) with (String a (s +:+ t)).
  rewrite !contains_char_cons, IH. apply orb_assoc.
Qed.

Lemma contains_char_forallb (p : ascii -> bool) (d : ascii) (s : string) :
  string_forallb p s = true -> p d = false -> contains_char d s = false.
Proof.
  intros Hs Hd. induction s as [|a s IH]; [reflexivity|].
  simpl in Hs. apply andb_true_iff in Hs as [Ha Hs].
  rewrite contains_char_cons, (IH Hs), orb_false_r.
  destruct (Ascii.eqb_spec d a) as [->|]; congruence.
Qed.

Lemma getline_all_app (d : ascii) (a rest : string) :
  contains_char d a = false ->
  getline_all d (a +:+ String d rest) = a :: getline_all d rest.
Proof.
  induction a as [|c a IH]; intros H.
  - cbn [String.append getline_all]. now rewrite Ascii.eqb_refl.
  - rewrite contains_char_cons in H. apply orb_false_iff in H as [Hc Ha].
    change (String c a +:+ String d rest) with (String c (a +:+ String d rest)).
    cbn [getline_all]. rewrite Ascii.eqb_sym, Hc, (IH Ha). reflexivity.
Qed.

Lemma segment_ok_digits (seg : string) :
  segment_ok seg = true -> string_forallb isdigit seg = true.
Proof.
  unfold segment_ok. intros H.
  repeat (apply andb_true_iff in H as [H ?]). assumption.
Qed.

Lemma is_ipv4_run_value (s : string) : is_ipv4_run s = Some (is_ipv4 s).
Proof.
  unfold is_ipv4. destruct (is_ipv4_run_total s) as [b ->]. reflexivity.
Qed.

(** C7: the validator accepts a dotted quad followed by one more dot,
    which splits on the dot into five segments, the last of them empty,
    although it rejects an empty segment in every other place: before the
    first dot, between two dots, and before a second final dot. *)
Theorem is_ipv4_trailing_dot_defect :
  is_ipv4 "1.2.3.4." = true /\ isIPv4_spec "1.2.3.4." = false
  /\ split_on "." "1.2.3.4." = ["1"; "2"; "3"; "4"; EmptyString]
  /\ map is_ipv4 [".1.2.3.4"; "1..2.3.4"; "1.2.3..4"; "1.2.3.4.."]
     = [false; false; false; false].
Proof. repeat split; vm_compute; reflexivity. Qed.

(** X25: [is_ipv4] never throws; it returns false when the string
    contains a colon, and otherwise returns true exactly when the string,
    with one final dot dropped if it ends in one, splits on the dot into
    exactly four segments, each of 1 to 3 ASCII digits and each denoting an
    integer in [0,255]. It is true for the three addresses and false for the
    five other strings the specification lists. *)
Theorem is_ipv4_characterization :
  (forall s, is_ipv4_run s = Some (is_ipv4 s))
  /\ (forall s, is_ipv4 s =
                negb (contains_char ":" s) && quad_ok (drop_final_dot s))
  /\ map is_ipv4 ["1.2.3.4"; "0.0.0.0"; "255.255.255.255"] = [true; true; true]
  /\ map is_ipv4 ["1.2.3.4.5"; "1.2.3"; "1.2.3.256"; "::1"; "1.2.3.a"]
     = [false; false; false; false; false].
Proof.
  split; [exact is_ipv4_run_value|]. split.
  - intros s. unfold is_ipv4. now rewrite is_ipv4_run_quad.
  - split; vm_compute; reflexivity.
Qed.

(** C9: a dotted quad of accepted segments followed by a single final dot is
    accepted, because the getline loop visits exactly the four segments and
    no empty fifth part; a string that starts with a dot has an empty first
    part and is rejected. *)
Theorem is_ipv4_trailing_and_leading_dot :
  (forall a b c d,
      segment_ok a = true -> segment_ok b = true ->
      segment_ok c = true -> segment_ok d = true ->
      getline_all "." (a +:+ "." +:+ b +:+ "." +:+ c +:+ "." +:+ d +:+ ".")
      = [a; b; c; d]
      /\ is_ipv4 (a +:+ "." +:+ b +:+ "." +:+ c +:+ "." +:+ d +:+ ".") = true)
  /\ (forall s, (exists rest, getline_all "." ("." +:+ s) = EmptyString :: rest)
                /\ is_ipv4 ("." +:+ s) = false)
  /\ is_ipv4 ".1.2.3.4" = false.
Proof.
  split; [|split; [|reflexivity]].
  - intros a b c d Ha Hb Hc Hd.
    assert (Hparts :
      getline_all "." (a +:+ "." +:+ b +:+ "." +:+ c +:+ "." +:+ d +:+ ".")
      = [a; b; c; d]).
    { cbn [String.append].
      assert (Hdot : forall seg, segment_ok seg = true ->
                              contains_char "." seg = false).
      { intros seg H. apply (contains_char_forallb isdigit);
          [now apply segment_ok_digits | reflexivity]. }
      rewrite !getline_all_app by auto. reflexivity. }
    split; [exact Hparts|].
    unfold is_ipv4, is_ipv4_run.
    assert (Hcolon : forall seg, segment_ok seg = true ->
                              contains_char ":" seg = false).
    { intros seg H. apply (contains_char_forallb isdigit);
        [now apply segment_ok_digits | reflexivity]. }
    rewrite !contains_char_app.
    rewrite (Hcolon a Ha), (Hcolon b Hb), (Hcolon c Hc), (Hcolon d Hd).
    change (contains_char ":" ".") with false. cbn [orb].
    rewrite Hparts, is_ipv4_loop_spec. cbn [forallb length Nat.add].
    rewrite Ha, Hb, Hc, Hd. reflexivity.
  - intros s. split.
    + eexists. cbn [String.append getline_all]. reflexivity.
    + unfold is_ipv4, is_ipv4_run. destruct (contains_char ":" ("." +:+ s));
        reflexivity.
Qed.

(** The segments 1, 2, 3 and 4 followed by a final dot. *)
Lemma is_ipv4_trailing_dot_witness : is_ipv4 "1.2.3.4." = true.
Proof.
  exact (proj2 (proj1 is_ipv4_trailing_and_leading_dot "1" "2" "3" "4"
                  eq_refl eq_refl eq_refl eq_refl)).
Defined.

(** ** The JSON string unescaper *)

Lemma at_index_app (pre : string) (c : ascii) (r : string) :
  at_index (pre +:+ String c r) (String.length pre) = c.
Proof. induction pre as [|a pre IH]; [reflexivity | exact IH]. Qed.

Lemma substring_app_skip (pre t : string) (n : nat) :
  String.substring (String.length pre) n (pre +:+ t) = String.substring 0 n t.
Proof. induction pre as [|a pre IH]; [reflexivity | exact IH]. Qed.

Lemma substring_0_0 (s : string) : String.substring 0 0 s = EmptyString.
Proof. now destruct s. Qed.

Lemma push_back_app (out : string) (c : ascii) (t : string) :
  push_back out c +:+ t = out +:+ String c t.
Proof. unfold push_back. now rewrite string_app_assoc. Qed.

Lemma push_back_length (out : string) (c : ascii) :
  String.length (push_back out c) = String.length out + 1.
Proof. unfold push_back. now rewrite string_length_app. Qed.

(** The loop at index [i], with the characters [rest] unread, appends the
    scan of [rest] to its output. *)
Lemma unescape_loop_scan (fuel : nat) :
  forall pre rest out,
    String.length rest < fuel ->
    unescape_loop fuel (pre +:+ rest) (String.length pre) out
    = Some (out +:+ unescape_scan rest).
Proof.
  induction fuel as [|fuel IH]; intros pre rest out Hfuel; [lia|].
  cbn [unescape_loop]. rewrite string_length_app.
  destruct rest as [|c rest].
  { cbn [String.length]. rewrite Nat.add_0_r, Nat.leb_refl.
    cbn [unescape_scan]. now rewrite string_app_nil_r. }
  cbn [String.length] in *.
  destruct (Nat.leb_spec (String.length pre + S (String.length rest))
              (String.length pre)); [lia|].
  rewrite at_index_app.
  assert (Hstep : forall consumed rest' out' k,
             String.length rest' < fuel ->
             pre +:+ String c rest = (pre +:+ consumed) +:+ rest' ->
             k = String.length pre + String.length consumed ->
             unescape_loop fuel (pre +:+ String c rest) k out'
             = Some (out' +:+ unescape_scan rest')).
  { intros consumed rest' out' k Hlen -> ->. rewrite <- string_length_app.
    now apply IH. }
  cbn [unescape_scan].
  destruct (Ascii.eqb c backslash) eqn:Ec; cbn [negb orb].
  2:{ rewrite (Hstep (String c EmptyString) rest (push_back out c));
        [ now rewrite push_back_app | lia | now rewrite string_app_assoc
        | reflexivity ]. }
  destruct rest as [|n rest].
  { cbn [String.length].
    destruct (Nat.leb_spec (String.length pre + 1) (String.length pre + 1)); [|lia].
    rewrite (Hstep (String c EmptyString) EmptyString (push_back out c));
      [ now rewrite push_back_app | lia | now rewrite string_app_assoc
      | reflexivity ]. }
  cbn [String.length] in *.
  destruct (Nat.leb_spec (String.length pre + S (S (String.length rest)))
              (String.length pre + 1)); [lia|].
  assert (Hn : at_index (pre +:+ String c (String n rest)) (String.length pre + 1) = n).
  { rewrite <- (push_back_length pre c), <- push_back_app. apply at_index_app. }
  rewrite Hn.
  assert (Hone : forall x,
             unescape_loop fuel (pre +:+ String c (String n rest))
               (String.length pre + 1 + 1) (push_back out x)
             = Some (out +:+ String x (unescape_scan rest))).
  { intros x.
    rewrite (Hstep (String c (String n EmptyString)) rest (push_back out x));
      [ now rewrite push_back_app | lia | now rewrite string_app_assoc
      | cbn [String.length]; lia ]. }
  repeat (match goal with
          | |- context [Ascii.eqb n ?x] =>
              destruct (Ascii.eqb n x) eqn:?; [apply Hone|]
          end).
  destruct (Ascii.eqb n "u") eqn:Eu; [|apply Hone].
  (* the u escape *)
  destruct rest as [|h1 [|h2 [|h3 [|h4 rest]]]]; cbn [String.length] in *;
    match goal with
    | |- context [?a <? ?b] => destruct (Nat.ltb_spec a b); try lia
    end.
  1-4: match goal with
       | |- context [unescape_scan ?r] =>
           rewrite (Hstep (String c (String n EmptyString)) r out);
             [ reflexivity | cbn [String.length]; lia
             | now rewrite string_app_assoc | cbn [String.length]; lia ]
       end.
  assert (Hhex : String.substring (String.length pre + 1 + 1) 4
                   (pre +:+ String c (String n
                      (String h1 (String h2 (String h3 (String h4 rest))))))
                 = String h1 (String h2 (String h3 (String h4 EmptyString)))).
  { change (pre +:+ String c (String n
              (String h1 (String h2 (String h3 (String h4 rest))))))
      with (pre +:+ (String c (String n EmptyString) +:+
              String h1 (String h2 (String h3 (String h4 rest))))).
    rewrite <- string_app_assoc, <- Nat.add_assoc.
    change (1 + 1) with (String.length (String c (String n EmptyString))).
    rewrite <- string_length_app, substring_app_skip.
    cbn [String.substring]. now rewrite substring_0_0. }
  rewrite Hhex.
  rewrite (Hstep (String c (String n (String h1 (String h2
                    (String h3 (String h4 EmptyString)))))) rest);
    [ now rewrite push_back_app | lia | now rewrite string_app_assoc
    | cbn [String.length]; lia ].
Qed.

Lemma unescape_json_string_scan (s : string) :
  unescape_json_string_run s = Some (unescape_scan s).
Proof.
  unfold unescape_json_string_run.
  apply (unescape_loop_scan (S (String.length s)) EmptyString s EmptyString).
  lia.
Qed.

Lemma unescape_json_string_eq (s : string) :
  unescape_json_string s = unescape_scan s.
Proof. unfold unescape_json_string. now rewrite unescape_json_string_scan. Qed.

Lemma hex_digit_plain (c : ascii) (d : Z) :
  hex_digit c = Some d ->
  isspace c = false /\ Ascii.eqb c "-" = false /\ Ascii.eqb c "+" = false
  /\ Ascii.eqb c "x" = false /\ Ascii.eqb c "X" = false.
Proof.
  destruct c as [[] [] [] [] [] [] [] []]; vm_compute; intros H;
    first [discriminate H | repeat split].
Qed.

Lemma read_hex_four (h1 h2 h3 h4 : ascii) (d1 d2 d3 d4 : Z) :
  hex_digit h1 = Some d1 -> hex_digit h2 = Some d2 ->
  hex_digit h3 = Some d3 -> hex_digit h4 = Some d4 ->
  read_hex (String h1 (String h2 (String h3 (String h4 EmptyString))))
  = hex4_value d1 d2 d3 d4.
Proof.
  intros H1 H2 H3 H4.
  destruct (hex_digit_plain h1 d1 H1) as (Hs & Hm & Hp & _ & _).
  destruct (hex_digit_plain h2 d2 H2) as (_ & _ & _ & Hx & HX).
  unfold read_hex. cbn [skip_ws]. rewrite Hs, Hm, Hp, Hx, HX.
  rewrite andb_false_r. cbn [hex_digits]. rewrite H1, H2, H3, H4.
  unfold hex4_value. lia.
Qed.

Lemma unescape_scan_escape (n : ascii) (rest : string) :
  unescape_scan (String backslash (String n rest))
  = (if Ascii.eqb n backslash then String backslash (unescape_scan rest)
     else if Ascii.eqb n dquote then String dquote (unescape_scan rest)
     else if Ascii.eqb n "/" then String "/"%char (unescape_scan rest)
     else if Ascii.eqb n "b" then String char_bs (unescape_scan rest)
     else if Ascii.eqb n "f" then String char_ff (unescape_scan rest)
     else if Ascii.eqb n "n" then String char_nl (unescape_scan rest)
     else if Ascii.eqb n "r" then String char_cr (unescape_scan rest)
     else if Ascii.eqb n "t" then String char_ht (unescape_scan rest)
     else if Ascii.eqb n "u" then
       match rest with
       | String h1 (String h2 (String h3 (String h4 rest''))) =>
           String
             (code_char
                (read_hex
                   (String h1 (String h2 (String h3 (String h4 EmptyString))))))
             (unescape_scan rest'')
       | _ => unescape_scan rest
       end
     else String n (unescape_scan rest)).
Proof. reflexivity. Qed.

(** C5: the unescaper always returns; it copies a character that is not a
    backslash and a backslash that ends the string; after a backslash, one
    of backslash, double quote and slash gives that character, one of b, f,
    n, r, t gives its control character, u and four hexadecimal digits give
    the ASCII character of that code when it is at most 0x7F and a question
    mark otherwise, and every other character is copied; in each case the
    scan goes on with the characters that follow. The two strings of the
    specification decode to a, newline, b, A and to q. *)
Theorem unescape_json_string_spec :
  (forall s, unescape_json_string_run s = Some (unescape_json_string s))
  /\ unescape_json_string EmptyString = EmptyString
  /\ (forall c rest,
         Ascii.eqb c backslash = false ->
         unescape_json_string (String c rest)
         = String c (unescape_json_string rest))
  /\ unescape_json_string (String backslash EmptyString)
     = String backslash EmptyString
  /\ (forall n rest,
         literal_escape n = true ->
         unescape_json_string (String backslash (String n rest))
         = String n (unescape_json_string rest))
  /\ (forall n ch rest,
         control_escape n = Some ch ->
         unescape_json_string (String backslash (String n rest))
         = String ch (unescape_json_string rest))
  /\ (forall h1 h2 h3 h4 d1 d2 d3 d4 rest,
         hex_digit h1 = Some d1 -> hex_digit h2 = Some d2 ->
         hex_digit h3 = Some d3 -> hex_digit h4 = Some d4 ->
         unescape_json_string
           (String backslash
              (String "u" (String h1 (String h2 (String h3 (String h4 rest))))))
         = String
             (if (hex4_value d1 d2 d3 d4 <=? 127)%Z
              then ascii_of_nat (Z.to_nat (hex4_value d1 d2 d3 d4))
              else "?"%char)
             (unescape_json_string rest))
  /\ (forall n rest,
         named_escape n = false ->
         unescape_json_string (String backslash (String n rest))
         = String n (unescape_json_string rest))
  /\ unescape_json_string "a\nb\u0041"
     = String "a" (String char_nl (String "b" (String "A" EmptyString)))
  /\ unescape_json_string "\q" = "q".
Proof.
  split.
  { intros s. now rewrite unescape_json_string_scan, unescape_json_string_eq. }
  split; [reflexivity|]. split.
  { intros c rest Hc. rewrite !unescape_json_string_eq.
    cbn [unescape_scan]. now rewrite Hc. }
  split; [reflexivity|]. split.
  { intros n rest Hn. rewrite !unescape_json_string_eq.
    rewrite unescape_scan_escape.
    unfold literal_escape in Hn.
    destruct (Ascii.eqb_spec n backslash) as [->|]; [reflexivity|].
    destruct (Ascii.eqb_spec n dquote) as [->|]; [reflexivity|].
    destruct (Ascii.eqb_spec n "/") as [->|]; [reflexivity|discriminate]. }
  split.
  { intros n ch rest Hn. rewrite !unescape_json_string_eq.
    rewrite unescape_scan_escape. unfold control_escape in Hn.
    repeat match type of Hn with
           | (if Ascii.eqb n ?x then _ else _) = _ =>
               destruct (Ascii.eqb_spec n x) as [->|];
                 [injection Hn as <-; reflexivity|]
           end.
    discriminate. }
  split.
  { intros h1 h2 h3 h4 d1 d2 d3 d4 rest H1 H2 H3 H4.
    rewrite !unescape_json_string_eq.
    change (unescape_scan
              (String backslash
                 (String "u" (String h1 (String h2 (String h3 (String h4 rest)))))))
      with (String
              (code_char
                 (read_hex
                    (String h1 (String h2 (String h3 (String h4 EmptyString))))))
              (unescape_scan rest)).
    now rewrite (read_hex_four h1 h2 h3 h4 d1 d2 d3 d4). }
  split.
  { intros n rest Hn. rewrite !unescape_json_string_eq.
    unfold named_escape, literal_escape, control_escape in Hn.
    rewrite unescape_scan_escape.
    repeat match goal with
           | |- context [Ascii.eqb n ?x] =>
               destruct (Ascii.eqb n x); [discriminate Hn|]
           end.
    reflexivity. }
  split; vm_compute; reflexivity.
Qed.

(** An escape the specification does not name: backslash q. *)
Lemma unescape_json_string_witness :
  unescape_json_string "\q" = String "q" (unescape_json_string EmptyString).
Proof.
  exact (proj1 (proj2 (proj2 (proj2 (proj2 (proj2 (proj2 (proj2
           unescape_json_string_spec))))))) "q"%char EmptyString eq_refl).
Defined.

(** ** Trimming *)

Lemma skip_ws_split (s : string) :
  exists lead, s = lead +:+ skip_ws s /\ string_forallb isspace lead = true.
Proof.
  induction s as [|c s (lead & Hs & Hlead)]; [now exists EmptyString|].
  cbn [skip_ws]. destruct (isspace c) eqn:Hc.
  - exists (String c lead). cbn [String.append string_forallb].
    now rewrite <- Hs, Hc, Hlead.
  - now exists EmptyString.
Qed.

Lemma skip_ws_start (s : string) : starts_with_space (skip_ws s) = false.
Proof.
  induction s as [|c s IH]; [reflexivity|].
  cbn [skip_ws]. destruct (isspace c) eqn:Hc; [exact IH | exact Hc].
Qed.

Lemma rstrip_split (s : string) :
  exists trail, s = rstrip s +:+ trail /\ string_forallb isspace trail = true.
Proof.
  induction s as [|c s (trail & Hs & Htrail)]; [now exists EmptyString|].
  cbn [rstrip]. destruct (rstrip s) as [|r0 r] eqn:Hr.
  - cbn [String.append] in Hs. subst trail. destruct (isspace c) eqn:Hc.
    + exists (String c s). cbn [String.append string_forallb].
      now rewrite Hc, Htrail.
    + now exists s.
  - exists trail. change (String c (String r0 r) +:+ trail)
      with (String c (String r0 r +:+ trail)). now rewrite <- Hs.
Qed.

Lemma rstrip_end (s : string) : ends_with_space (rstrip s) = false.
Proof.
  induction s as [|c s IH]; [reflexivity|].
  cbn [rstrip]. destruct (rstrip s) as [|r0 r] eqn:Hr.
  - destruct (isspace c) eqn:Hc; [reflexivity | exact Hc].
  - exact IH.
Qed.

Lemma rstrip_start (s : string) :
  starts_with_space s = false -> starts_with_space (rstrip s) = false.
Proof.
  destruct s as [|c s]; [reflexivity|]. cbn [starts_with_space rstrip].
  intros Hc. destruct (rstrip s); [now rewrite Hc | exact Hc].
Qed.

Lemma substring_prefix (r t : string) :
  String.substring 0 (String.length r) (r +:+ t) = r.
Proof.
  induction r as [|c r IH]; [apply substring_0_0|].
  cbn [String.length String.append String.substring]. now rewrite IH.
Qed.

Lemma string_snoc (r : string) :
  r <> EmptyString ->
  exists r' c, r = r' +:+ String c EmptyString /\ ends_with_space r = isspace c.
Proof.
  induction r as [|a r IH]; [congruence|]. intros _.
  destruct r as [|b r].
  - now exists EmptyString, a.
  - destruct IH as (r' & c & Hr & Hc); [discriminate|].
    exists (String a r'), c. split.
    + cbn [String.append]. now rewrite <- Hr.
    + exact Hc.
Qed.

Lemma trim_start_app (lead : string) :
  forall n pre rest,
    string_forallb isspace lead = true -> starts_with_space rest = false ->
    String.length lead <= n ->
    trim_start n (pre +:+ lead +:+ rest) (String.length pre)
    = String.length pre + String.length lead.
Proof.
  induction lead as [|c lead IH]; intros n pre rest Hlead Hrest Hn.
  - cbn [String.append String.length]. rewrite Nat.add_0_r.
    destruct n as [|n]; [reflexivity|]. cbn [trim_start].
    destruct rest as [|c r].
    + rewrite string_app_nil_r, Nat.ltb_irrefl. reflexivity.
    + rewrite at_index_app. cbn [starts_with_space] in Hrest.
      now rewrite Hrest, andb_false_r.
  - cbn [string_forallb] in Hlead. apply andb_true_iff in Hlead as [Hc Hlead].
    cbn [String.length] in *. destruct n as [|n]; [lia|].
    cbn [trim_start String.append]. rewrite at_index_app, Hc.
    rewrite string_length_app. cbn [String.length].
    destruct (Nat.ltb_spec (String.length pre)
                (String.length pre + S (String.length (lead +:+ rest)))); [|lia].
    cbn [andb]. rewrite <- push_back_app.
    replace (S (String.length pre)) with (String.length (push_back pre c))
      by (rewrite push_back_length; lia).
    rewrite IH by (assumption || lia). rewrite push_back_length. lia.
Qed.

Lemma trim_end_ws (trail : string) :
  forall x z start,
    string_forallb isspace trail = true -> start <= String.length x ->
    trim_end (x +:+ trail +:+ z) start (String.length x + String.length trail)
    = trim_end (x +:+ trail +:+ z) start (String.length x).
Proof.
  induction trail as [|c trail IH]; intros x z start Htrail Hstart.
  - cbn [String.length]. now rewrite Nat.add_0_r.
  - cbn [string_forallb] in Htrail. apply andb_true_iff in Htrail as [Hc Htrail].
    cbn [String.length String.append]. rewrite <- push_back_app.
    replace (String.length x + S (String.length trail))
      with (String.length (push_back x c) + String.length trail)
      by (rewrite push_back_length; lia).
    rewrite IH by (rewrite ?push_back_length; assumption || lia).
    rewrite push_back_length, Nat.add_1_r. cbn [trim_end].
    rewrite push_back_app, at_index_app, Hc.
    destruct (Nat.ltb_spec start (S (String.length x))); [reflexivity | lia].
Qed.

Lemma trim_end_stop (lead r z : string) :
  ends_with_space r = false ->
  trim_end (lead +:+ r +:+ z) (String.length lead)
    (String.length lead + String.length r)
  = String.length lead + String.length r.
Proof.
  intros Hr. destruct (String.eqb_spec r EmptyString) as [->|Hne].
  - cbn [String.length]. rewrite Nat.add_0_r.
    destruct (String.length lead) as [|e] eqn:E; [reflexivity|].
    cbn [trim_end]. now rewrite Nat.ltb_irrefl.
  - destruct (string_snoc r Hne) as (r' & c & -> & Hc).
    rewrite Hr in Hc. rewrite string_length_app. cbn [String.length].
    replace (String.length lead + (String.length r' + 1))
      with (S (String.length (lead +:+ r')))
      by (rewrite string_length_app; lia).
    cbn [trim_end].
    replace (lead +:+ (r' +:+ String c EmptyString) +:+ z)
      with ((lead +:+ r') +:+ String c z)
      by (now rewrite !string_app_assoc).
    rewrite at_index_app, <- Hc. now rewrite andb_false_r.
Qed.

(** [trim] removes exactly the leading and the trailing whitespace. *)
Lemma trim_strip (s : string) : trim s = rstrip (skip_ws s).
Proof.
  destruct (skip_ws_split s) as (lead & Hs & Hlead).
  destruct (rstrip_split (skip_ws s)) as (trail & Hr & Htrail).
  pose proof (skip_ws_start s) as Hstart.
  pose proof (rstrip_end (skip_ws s)) as Hend.
  set (r := rstrip (skip_ws s)) in *. clearbody r.
  rewrite Hr in Hs, Hstart. clear Hr.
  unfold trim. subst s.
  assert (E1 : trim_start (String.length (lead +:+ r +:+ trail))
                 (lead +:+ r +:+ trail) 0 = String.length lead).
  { apply (trim_start_app lead _ EmptyString (r +:+ trail));
      [assumption | assumption | rewrite string_length_app; lia]. }
  rewrite E1.
  assert (E2 : trim_end (lead +:+ r +:+ trail) (String.length lead)
                 (String.length (lead +:+ r +:+ trail))
               = String.length lead + String.length r).
  { assert (HS : lead +:+ r +:+ trail
                 = (lead +:+ r) +:+ trail +:+ EmptyString)
      by (now rewrite string_app_nil_r, string_app_assoc).
    assert (Hlen : String.length (lead +:+ r +:+ trail)
                   = String.length (lead +:+ r) + String.length trail)
      by (rewrite !string_length_app; lia).
    rewrite Hlen, HS.
    rewrite trim_end_ws by (rewrite ?string_length_app; assumption || lia).
    rewrite <- HS, string_length_app. now apply trim_end_stop. }
  rewrite E2.
  replace (String.length lead + String.length r - String.length lead)
    with (String.length r) by lia.
  rewrite substring_app_skip. apply substring_prefix.
Qed.

(** ** Searching *)

Lemma index_ge (s2 : string) :
  forall n s1 m, String.index n s1 s2 = Some m -> n <= m.
Proof.
  induction s2 as [|c s2 IH]; intros n s1 m H; cbn [String.index] in H.
  - destruct n; [lia|discriminate].
  - destruct n as [|n]; [lia|].
    destruct (String.index n s1 s2) as [k|] eqn:E; [|discriminate].
    injection H as <-. apply IH in E. lia.
Qed.

Lemma substring_ge (s : string) :
  forall p n, String.length s <= p -> String.substring p n s = EmptyString.
Proof.
  induction s as [|c s IH]; intros p n Hp.
  - now destruct p, n.
  - destruct p as [|p]; cbn [String.length] in Hp; [lia|].
    cbn [String.substring]. apply IH. lia.
Qed.

Lemma substring_none (s : string) :
  forall p, String.substring p 0 s = EmptyString.
Proof.
  induction s as [|c s IH]; intros [|p]; try reflexivity.
  cbn [String.substring]. apply IH.
Qed.

Lemma occurs_at_lt (pat s : string) (p : nat) :
  pat <> EmptyString -> occurs_at pat s p = true -> p < String.length s.
Proof.
  intros Hpat H. apply String.eqb_eq in H.
  destruct (Nat.lt_ge_cases p (String.length s)) as [|Hge]; [assumption|].
  rewrite substring_ge in H by assumption. congruence.
Qed.

Lemma forallb_seq (f : nat -> bool) (a n q : nat) :
  forallb f (seq a n) = true -> a <= q < a + n -> f q = true.
Proof.
  intros H Hq. rewrite forallb_forall in H. apply H, in_seq. lia.
Qed.

Lemma index_first_at (pat s : string) (from p : nat) :
  pat <> EmptyString -> first_at pat s from p = true ->
  String.index from pat s = Some p.
Proof.
  intros Hpat H. unfold first_at in H.
  apply andb_true_iff in H as [H Hbefore].
  apply andb_true_iff in H as [Hle Hocc]. apply Nat.leb_le in Hle.
  destruct (String.index from pat s) as [m|] eqn:E.
  - pose proof (index_ge _ _ _ _ E) as Hm.
    pose proof (String.index_correct1 _ _ _ _ E) as Hat.
    pose proof (String.index_correct2 _ _ _ _ E) as Hfirst.
    destruct (Nat.lt_trichotomy m p) as [Hlt|[->|Hgt]]; [|reflexivity|].
    + assert (Hno : negb (occurs_at pat s m) = true)
        by (apply (forallb_seq (fun q => negb (occurs_at pat s q))
                     from (p - from) m); [assumption | lia]).
      unfold occurs_at in Hno. rewrite Hat, String.eqb_refl in Hno. discriminate.
    + apply String.eqb_eq in Hocc. now apply (Hfirst p) in Hocc.
  - apply String.eqb_eq in Hocc.
    now apply (String.index_correct3 _ p _ _ E Hpat) in Hocc.
Qed.

Lemma index_absent_from (pat s : string) (from : nat) :
  pat <> EmptyString -> absent_from pat s from = true ->
  String.index from pat s = None.
Proof.
  intros Hpat H. unfold absent_from in H.
  destruct (String.index from pat s) as [m|] eqn:E; [|reflexivity].
  pose proof (index_ge _ _ _ _ E) as Hm.
  pose proof (String.index_correct1 _ _ _ _ E) as Hat.
  assert (Hocc : occurs_at pat s m = true)
    by (unfold occurs_at; rewrite Hat; apply String.eqb_refl).
  pose proof (occurs_at_lt _ _ _ Hpat Hocc) as Hlt.
  assert (Hno : negb (occurs_at pat s m) = true)
    by (apply (forallb_seq (fun q => negb (occurs_at pat s q))
                 from (S (String.length s) - from) m); [assumption | lia]).
  rewrite Hocc in Hno. discriminate.
Qed.

(** ** Title extraction *)

(** C3: [extract_title] returns the literal No title found when the
    lower-cased body has no opening title tag, or no closing angle bracket
    at or after it, or no closing title tag at or after that bracket, or the
    closing tag starts at or before the content start, or the text between
    them trims to the empty string; otherwise it returns that text of the
    original body, with its leading and trailing whitespace removed. *)
Theorem extract_title_spec (html : string) :
  (absent_from "<title" (to_lower html) 0 = true ->
   extract_title html = no_title)
  /\ (forall start,
         first_at "<title" (to_lower html) 0 start = true ->
         absent_from ">" (to_lower html) start = true ->
         extract_title html = no_title)
  /\ (forall start gt,
         first_at "<title" (to_lower html) 0 start = true ->
         first_at ">" (to_lower html) start gt = true ->
         absent_from "</title>" (to_lower html) gt = true ->
         extract_title html = no_title)
  /\ (forall start gt end_,
         first_at "<title" (to_lower html) 0 start = true ->
         first_at ">" (to_lower html) start gt = true ->
         first_at "</title>" (to_lower html) gt end_ = true ->
         let content := String.substring (gt + 1) (end_ - gt - 1) html in
         (end_ <= gt + 1 -> extract_title html = no_title)
         /\ (trim content = EmptyString -> extract_title html = no_title)
         /\ (trim content <> EmptyString -> extract_title html = trim content))
  /\ (forall s,
         exists lead trail,
           s = lead +:+ trim s +:+ trail
           /\ string_forallb isspace lead = true
           /\ string_forallb isspace trail = true
           /\ starts_with_space (trim s) = false
           /\ ends_with_space (trim s) = false)
  /\ extract_title "<HTML><Title> Hello </Title></html>" = "Hello".
Proof.
  assert (H1 : "<title" <> EmptyString) by discriminate.
  assert (H2 : ">" <> EmptyString) by discriminate.
  assert (H3 : "</title>" <> EmptyString) by discriminate.
  split; [|split; [|split; [|split; [|split]]]].
  - intros Ha. unfold extract_title. now rewrite (index_absent_from _ _ _ H1 Ha).
  - intros start Hs Ha. unfold extract_title.
    rewrite (index_first_at _ _ _ _ H1 Hs).
    now rewrite (index_absent_from _ _ _ H2 Ha).
  - intros start gt Hs Hg Ha. unfold extract_title.
    rewrite (index_first_at _ _ _ _ H1 Hs), (index_first_at _ _ _ _ H2 Hg).
    now rewrite (index_absent_from _ _ _ H3 Ha).
  - intros start gt end_ Hs Hg He content.
    assert (E : extract_title html
                = if end_ <=? gt then no_title
                  else if string_empty (trim content) then no_title
                       else trim content).
    { unfold extract_title.
      rewrite (index_first_at _ _ _ _ H1 Hs), (index_first_at _ _ _ _ H2 Hg).
      now rewrite (index_first_at _ _ _ _ H3 He). }
    assert (Hclose : end_ <= gt + 1 -> trim content = EmptyString).
    { intros Hle. unfold content.
      replace (end_ - gt - 1) with 0 by lia. now rewrite substring_none. }
    rewrite E. split; [|split].
    + intros Hle. rewrite (Hclose Hle). now destruct (end_ <=? gt).
    + intros ->. now destruct (end_ <=? gt).
    + intros Hne. destruct (Nat.leb_spec end_ gt) as [Hle|_].
      * exfalso. apply Hne, Hclose. lia.
      * destruct (trim content); [congruence|reflexivity].
  - intros s. rewrite trim_strip.
    destruct (skip_ws_split s) as (lead & Hs & Hlead).
    destruct (rstrip_split (skip_ws s)) as (trail & Hr & Htrail).
    exists lead, trail. repeat split.
    + now rewrite <- Hr.
    + assumption.
    + assumption.
    + apply rstrip_start, skip_ws_start.
    + apply rstrip_end.
  - vm_compute. reflexivity.
Qed.

(** The body of the specification's example: the opening tag is found at 6,
    its bracket at 12 and the closing tag at 20. *)
Lemma extract_title_witness :
  extract_title "<HTML><Title> Hello </Title></html>" = "Hello".
Proof.
  exact (proj2 (proj2
           (proj1 (proj2 (proj2 (proj2
              (extract_title_spec "<HTML><Title> Hello </Title></html>"))))
              6 12 20 eq_refl eq_refl eq_refl))
           ltac:(vm_compute; discriminate)).
Defined.

(** ** File streams *)

Lemma set_files_same (w : world) (f c : string) :
  files w !! f = Some c -> set_files (<[f := c]> (files w)) w = w.
Proof. intros H. rewrite (insert_id _ _ _ H). now destruct w. Qed.

Lemma can_read_is_Some (w : world) (p : string) :
  bool_decide (is_Some (files w !! resolve w p)) = can_read w p.
Proof.
  unfold can_read. destruct (files w !! resolve w p) as [c|].
  - apply bool_decide_eq_true_2. now exists c.
  - apply bool_decide_eq_false_2. now intros [c Hc].
Qed.

(** A stream opens on a regular file and on a directory. *)
Lemma ifstream_open_eval (w : world) (p : string) :
  ifstream_open p w
  = (if can_read w p || is_directory w p then Some (resolve w p) else None,
     log (OpenRead p) w).
Proof.
  unfold ifstream_open, is_directory. cbn zeta.
  change (files (log (OpenRead p) w)) with (files w).
  change (dirs (log (OpenRead p) w)) with (dirs w).
  change (resolve (log (OpenRead p) w) p) with (resolve w p).
  rewrite can_read_is_Some.
  now destruct (can_read w p || bool_decide (resolve w p ∈ dirs w)).
Qed.

Lemma ifstream_open_some (w : world) (p c : string) :
  files w !! resolve w p = Some c ->
  ifstream_open p w = (Some (resolve w p), log (OpenRead p) w).
Proof.
  intros H. rewrite ifstream_open_eval. unfold can_read. now rewrite H.
Qed.

Lemma ifstream_open_none (w : world) (p : string) :
  can_read w p = false -> is_directory w p = false ->
  ifstream_open p w = (None, log (OpenRead p) w).
Proof. intros H1 H2. now rewrite ifstream_open_eval, H1, H2. Qed.

Lemma ifstream_open_dir (w : world) (p : string) :
  is_directory w p = true ->
  ifstream_open p w = (Some (resolve w p), log (OpenRead p) w).
Proof. intros H. rewrite ifstream_open_eval, H. now rewrite orb_true_r. Qed.

Lemma ofstream_open_can_write (w : world) (p : string) :
  ofstream_open p w =
  if can_write w p
  then (Some (resolve w p),
        set_files (<[resolve w p := EmptyString]> (files w)) (log (OpenWrite p) w))
  else (None, log (OpenWrite p) w).
Proof.
  unfold ofstream_open, can_write.
  change (resolve (log (OpenWrite p) w) p) with (resolve w p).
  change (locked (log (OpenWrite p) w)) with (locked w).
  change (dirs (log (OpenWrite p) w)) with (dirs w).
  now destruct (string_empty p || bool_decide (resolve w p ∈ locked w)
                || bool_decide (resolve w p ∈ dirs w)).
Qed.

Lemma ofstream_write_some (w : world) (f c data : string) :
  files w !! f = Some c ->
  ofstream_write (Some f) data w = set_files (<[f := c +:+ data]> (files w)) w.
Proof.
  intros H. unfold ofstream_write.
  apply (f_equal (fun m => set_files m w)).
  transitivity (alter (fun content => content +:+ data) f (<[f := c]> (files w))).
  - now rewrite (insert_id _ _ _ H).
  - now rewrite alter_insert_eq.
Qed.

(** ** The ASN range extractor *)

Lemma country_selected_code (country_filter : string) (countries : list string)
    (i : nat) :
  negb (string_empty country_filter)
  && ((length countries <=? i)
      || negb (String.eqb (to_lower (nth i countries EmptyString))
                 (to_lower country_filter)))
  = negb (country_selected country_filter countries i).
Proof.
  unfold country_selected. destruct (string_empty country_filter); [reflexivity|].
  cbn [negb andb orb]. rewrite nth_lookup.
  destruct (countries !! i) as [c|] eqn:E; cbn [default].
  - apply lookup_lt_Some in E.
    destruct (Nat.leb_spec (length countries) i); [lia|reflexivity].
  - apply lookup_ge_None in E.
    destruct (Nat.leb_spec (length countries) i); [reflexivity|lia].
Qed.

(** The loop appends to the open file the lines of the kept indices from [i]
    on, and counts them. *)
Lemma emit_ranges_spec (country_filter : string) (starts ends countries : list string)
    (f : string) (n : nat) :
  forall i count w c,
    files w !! f = Some c ->
    emit_ranges n i starts ends countries country_filter (Some f) count w
    = (count
       + length (List.filter
                   (range_selected country_filter starts ends countries) (seq i n)),
       set_files
         (<[f := c +:+ concat_lines
                         (map (range_line starts ends)
                            (List.filter
                               (range_selected country_filter starts ends countries)
                               (seq i n)))]> (files w)) w).
Proof.
  induction n as [|n IH]; intros i count w c Hf.
  - cbn [emit_ranges seq List.filter map concat_lines length].
    now rewrite Nat.add_0_r, string_app_nil_r, set_files_same.
  - cbn [emit_ranges]. rewrite country_selected_code.
    change (seq i (S n)) with (i :: seq (S i) n). cbn [List.filter].
    assert (Hsel : range_selected country_filter starts ends countries i
                   = country_selected country_filter countries i
                     && (is_ipv4 (nth i starts EmptyString)
                         && is_ipv4 (nth i ends EmptyString)))
      by (unfold range_selected; now rewrite andb_assoc).
    rewrite Hsel. clear Hsel.
    destruct (country_selected country_filter countries i); cbn [negb andb];
      [|now apply IH].
    destruct (is_ipv4 (nth i starts EmptyString)
              && is_ipv4 (nth i ends EmptyString)); [|now apply IH].
    rewrite (ofstream_write_some w f c _ Hf).
    rewrite (IH (S i) (S count) _
               (c +:+ nth i starts EmptyString +:+ "-"
                +:+ nth i ends EmptyString +:+ newline)).
    2:{ cbn [files set_files]. apply lookup_insert_eq. }
    cbn [map concat_lines length files set_files].
    rewrite insert_insert_eq. unfold range_line at 2.
    rewrite !string_app_assoc. f_equal. lia.
Qed.

Lemma asn_valid_code (content : string) :
  (length (asn_starts content) =? 0) || (length (asn_ends content) =? 0)
  || negb (length (asn_starts content) =? length (asn_ends content))
  = negb (asn_valid content).
Proof.
  unfold asn_valid.
  destruct (Nat.eqb_spec (length (asn_starts content)) 0);
    destruct (Nat.eqb_spec (length (asn_ends content)) 0);
    destruct (Nat.eqb_spec (length (asn_starts content))
                (length (asn_ends content)));
    cbn [negb andb orb]; try reflexivity; lia.
Qed.

(** The extractor in closed form: what it returns and the world it leaves,
    by the three tests it makes before its loop. *)
Lemma build_list_from_asn_json_eval (w : world)
    (json_path list_path country_filter : string) :
  build_list_from_asn_json json_path list_path country_filter w =
  let w1 := log (OpenRead json_path) w in
  let content := ifstream_content (resolve w json_path) w in
  if can_read w json_path then
    if asn_valid content then
      let w2 := log (OpenWrite list_path) w1 in
      if can_write w list_path then
        (Value (0 <? length (asn_lines country_filter content)),
         log (Stdout ("Wrote " +:+ pretty (length (asn_lines country_filter content))
                      +:+ " IPv4 ranges to " +:+ show_path list_path))
           (set_files
              (<[resolve w list_path :=
                   concat_lines (asn_lines country_filter content)]> (files w))
              w2))
      else
        (Value false,
         log (Stderr ("Failed to write " +:+ show_path list_path)) w2)
    else
      (Value false,
       log (Stderr ("Could not parse start/end IPs from " +:+ show_path json_path))
         w1)
  else if is_directory w json_path then (Stop Aborted, w1)
  else (Value false, log (Stderr ("Failed to open " +:+ show_path json_path)) w1).
Proof.
  unfold build_list_from_asn_json, bind, call, emit, ret. cbn zeta.
  rewrite ifstream_open_eval. unfold can_read, istreambuf_read.
  destruct (files w !! resolve w json_path) as [content|] eqn:Hin;
    cbn [orb].
  2:{ destruct (is_directory w json_path); [|reflexivity].
      cbn [files log]. now rewrite Hin. }
  cbn [files log]. rewrite Hin.
  replace content with (ifstream_content (resolve w json_path) w)
    by (unfold ifstream_content; now rewrite Hin).
  fold (asn_starts (ifstream_content (resolve w json_path) w)).
  fold (asn_ends (ifstream_content (resolve w json_path) w)).
  fold (asn_countries (ifstream_content (resolve w json_path) w)).
  rewrite asn_valid_code.
  destruct (asn_valid (ifstream_content (resolve w json_path) w)); cbn [negb];
    [|reflexivity].
  rewrite ofstream_open_can_write.
  change (can_write (log (OpenRead json_path) w) list_path)
    with (can_write w list_path).
  change (resolve (log (OpenRead json_path) w) list_path)
    with (resolve w list_path).
  destruct (can_write w list_path); [|reflexivity].
  rewrite (emit_ranges_spec _ _ _ _ (resolve w list_path) _ 0 0 _ EmptyString)
    by (cbn [files set_files log]; apply lookup_insert_eq).
  cbn [files set_files log Nat.add String.append].
  rewrite insert_insert_eq. unfold asn_lines, range_lines.
  now rewrite length_map.
Qed.

Lemma length_zero_nil {A : Type} (l : list A) : length l = 0 <-> l = [].
Proof. destruct l; split; intros H; try reflexivity; discriminate. Qed.



(** C6: the extractor returns false exactly when the document cannot be
    opened, or no start address is found, or the start and end sequences
    differ in length, or the list file cannot be opened, or no line is left
    after filtering, and true exactly when it writes at least one line,
    provided the document is not a directory; the list file is touched
    only when the loop is reached. On a directory the stream opens, the
    read throws, and the process is aborted with no message and no file
    changed, where false was to be returned. *)
Theorem build_list_from_asn_json_result
    (w : world) (json_path list_path country_filter : string) :
  let content := ifstream_content (resolve w json_path) w in
  let r := build_list_from_asn_json json_path list_path country_filter w in
  let written :=
    if asn_emits w json_path list_path
    then asn_lines country_filter content else [] in
  (can_read w json_path = false -> is_directory w json_path = true ->
   fst r = Stop Aborted
   /\ trace (snd r) = trace w ++ [OpenRead json_path])
  /\ (can_read w json_path = true \/ is_directory w json_path = false ->
      (fst r = Value false <->
       can_read w json_path = false
       \/ asn_starts content = []
       \/ length (asn_starts content) <> length (asn_ends content)
       \/ can_write w list_path = false
       \/ asn_lines country_filter content = [])
      /\ (fst r = Value true <-> written <> [])
      /\ (fst r = Value false \/ fst r = Value true))
  /\ files (snd r)
     = (if asn_emits w json_path list_path
        then <[resolve w list_path := concat_lines written]> (files w)
        else files w).
Proof.
  intros content r written. unfold r, written, asn_emits.
  rewrite build_list_from_asn_json_eval. cbn zeta. fold content.
  assert (Hvalid : asn_valid content = false <->
                   asn_starts content = []
                   \/ length (asn_starts content) <> length (asn_ends content)).
  { unfold asn_valid. rewrite <- length_zero_nil.
    destruct (Nat.eqb_spec (length (asn_starts content)) 0);
      destruct (Nat.eqb_spec (length (asn_starts content))
                  (length (asn_ends content)));
      cbn [negb andb]; split; intros H; try tauto; try discriminate;
      destruct H; congruence. }
  assert (Hlines : (0 <? length (asn_lines country_filter content)) = false
                   <-> asn_lines country_filter content = []).
  { rewrite <- length_zero_nil. rewrite Nat.ltb_ge. lia. }
  destruct (can_read w json_path); cbn [andb fst snd].
  2:{ destruct (is_directory w json_path); cbn [fst snd files trace log].
      - split; [now split|]. split; [|reflexivity].
        intros [H|H]; discriminate H.
      - split; [discriminate|]. split; [|reflexivity]. intros _.
        split; [tauto|]. split; [|now left].
        split; [discriminate|congruence]. }
  split; [discriminate|].
  destruct (asn_valid content) eqn:Hv; cbn [andb fst snd].
  2:{ split; [|reflexivity]. intros _.
      split; [|split; [split; [discriminate|congruence]|now left]].
      split; [intros _; right; tauto | reflexivity]. }
  assert (Hnot : ~ (asn_starts content = []
                    \/ length (asn_starts content) <> length (asn_ends content))).
  { intros H. apply Hvalid in H. congruence. }
  destruct (can_write w list_path); cbn [andb fst snd files log set_files].
  2:{ split; [|reflexivity]. intros _.
      split; [|split; [split; [discriminate|congruence]|now left]].
      split; [intros _; tauto | reflexivity]. }
  split; [|reflexivity]. intros _. split; [|split].
  - split.
    + intros H. injection H as H. apply Hlines in H. tauto.
    + intros [H|[H|[H|[H|H]]]]; try discriminate; try tauto.
      apply Hlines in H. now rewrite H.
  - split.
    + intros H. injection H as H. intros E. apply Hlines in E. congruence.
    + intros H. f_equal. apply not_false_iff_true. intros E. apply H.
      now apply Hlines.
  - destruct (0 <? length (asn_lines country_filter content)); tauto.
Qed.

(** The directory asn.json given as the document. *)
Lemma build_list_from_asn_json_result_witness :
  fst (build_list_from_asn_json "asn.json" "list" EmptyString
         world_asn_directory) = Stop Aborted
  /\ trace (snd (build_list_from_asn_json "asn.json" "list" EmptyString
                   world_asn_directory))
     = trace world_asn_directory ++ [OpenRead "asn.json"].
Proof.
  apply (proj1 (build_list_from_asn_json_result world_asn_directory
                  "asn.json" "list" EmptyString)).
  - vm_compute. reflexivity.
  - vm_compute. reflexivity.
Defined.




Lemma can_write_log (e : event) (w : world) (p : string) :
  can_write (log e w) p = can_write w p.
Proof. reflexivity. Qed.

Lemma can_write_set_files (m : gmap string string) (w : world) (p : string) :
  can_write (set_files m w) p = can_write w p.
Proof. reflexivity. Qed.

Lemma resolve_log (e : event) (w : world) (p : string) :
  resolve (log e w) p = resolve w p.
Proof. reflexivity. Qed.

Lemma resolve_set_files (m : gmap string string) (w : world) (p : string) :
  resolve (set_files m w) p = resolve w p.
Proof. reflexivity. Qed.

(** ** The scan-result splitter *)

(** The test of the source, on an index and a length, is the test of the
    specification, on the first four tokens. *)
Lemma hit_ip_code (port line : string) :
  hit_ip port line =
  if (4 <=? length (split_ws line))
     && String.eqb (nth 0 (split_ws line) EmptyString) "open"
     && String.eqb (nth 1 (split_ws line) EmptyString) "tcp"
     && String.eqb (nth 2 (split_ws line) EmptyString) port
  then Some (nth 3 (split_ws line) EmptyString) else None.
Proof.
  unfold hit_ip. destruct (split_ws line) as [|t0 [|t1 [|t2 [|t3 ts]]]];
    reflexivity.
Qed.

Lemma split_hits_spec (f80 f443 : string) (lines : list string) :
  f80 <> f443 ->
  forall count_80 count_443 w a b,
    files w !! f80 = Some a -> files w !! f443 = Some b ->
    split_hits lines (Some f80) (Some f443) count_80 count_443 w
    = (count_80 + length (hit_lines "80" lines),
       count_443 + length (hit_lines "443" lines),
       set_files
         (<[f443 := b +:+ concat_lines (hit_lines "443" lines)]>
            (<[f80 := a +:+ concat_lines (hit_lines "80" lines)]> (files w))) w).
Proof.
  intros Hne. induction lines as [|line lines IH];
    intros count_80 count_443 w a b H80 H443.
  - cbn [split_hits hit_lines omap list_omap map concat_lines length].
    rewrite !Nat.add_0_r, !string_app_nil_r.
    rewrite (insert_id _ _ _ H80), (insert_id _ _ _ H443). now destruct w.
  - cbn [split_hits]. unfold hit_lines. cbn [omap list_omap].
    rewrite !hit_ip_code.
    destruct ((4 <=? length (split_ws line))
              && String.eqb (nth 0 (split_ws line) EmptyString) "open"
              && String.eqb (nth 1 (split_ws line) EmptyString) "tcp");
      cbn [andb]; [|now apply IH].
    destruct (String.eqb_spec (nth 2 (split_ws line) EmptyString) "80")
      as [E80|N80].
    + rewrite E80. change (String.eqb "80" "443") with false.
      rewrite (ofstream_write_some w f80 a _ H80).
      rewrite (IH (S count_80) count_443 _
                 (a +:+ nth 3 (split_ws line) EmptyString +:+ newline) b).
      2:{ cbn [files set_files]. apply lookup_insert_eq. }
      2:{ cbn [files set_files]. now rewrite lookup_insert_ne. }
      cbn [map concat_lines length files set_files]. unfold hit_lines.
      rewrite insert_insert_eq, !string_app_assoc, Nat.add_succ_r. reflexivity.
    + destruct (String.eqb_spec (nth 2 (split_ws line) EmptyString) "443").
      * rewrite (ofstream_write_some w f443 b _ H443).
        rewrite (IH count_80 (S count_443) _ a
                   (b +:+ nth 3 (split_ws line) EmptyString +:+ newline)).
        2:{ cbn [files set_files]. now rewrite lookup_insert_ne. }
        2:{ cbn [files set_files]. apply lookup_insert_eq. }
        cbn [map concat_lines length files set_files]. unfold hit_lines.
        rewrite (insert_insert_ne _ f80 f443) by assumption.
        rewrite insert_insert_eq, !string_app_assoc, Nat.add_succ_r. reflexivity.
      * now apply IH.
Qed.

(** C2: when the scanner output and the two destination files can be
    opened (three different files), the splitter returns success, the
    port-80 file holds the fourth token of every line that has at least four
    tokens, the first three being open, tcp and 80, the port-443 file the
    same for 443, each followed by a newline and in the order of the lines,
    and no other line adds anything; this holds with no hit at all. The four
    lines of the specification give 1.1.1.1 and 2.2.2.2. *)
Theorem parse_masscan_results_spec :
  (forall w masscan_file out80 out443,
      can_read w masscan_file = true ->
      can_write w out80 = true -> can_write w out443 = true ->
      resolve w out80 <> resolve w out443 ->
      resolve w masscan_file <> resolve w out80 ->
      resolve w masscan_file <> resolve w out443 ->
      let lines :=
        getline_all char_nl (ifstream_content (resolve w masscan_file) w) in
      let r := parse_masscan_results masscan_file out80 out443 w in
      fst r = true
      /\ files (snd r)
         = <[resolve w out443 := concat_lines (hit_lines "443" lines)]>
             (<[resolve w out80 := concat_lines (hit_lines "80" lines)]>
                (files w))
      /\ trace (snd r)
         = trace w
           ++ [OpenRead masscan_file; OpenWrite out80; OpenWrite out443;
               Stdout ("Open port 80 IPs: "
                       +:+ pretty (length (hit_lines "80" lines)));
               Stdout ("Open port 443 IPs: "
                       +:+ pretty (length (hit_lines "443" lines)))])
  /\ (forall port line ip,
         hit_ip port line = Some ip <->
         4 <= length (split_ws line)
         /\ split_ws line !! 0 = Some "open"
         /\ split_ws line !! 1 = Some "tcp"
         /\ split_ws line !! 2 = Some port
         /\ split_ws line !! 3 = Some ip)
  /\ (forall port line lines,
         hit_lines port (line :: lines)
         = match hit_ip port line with
           | Some ip => (ip +:+ newline) :: hit_lines port lines
           | None => hit_lines port lines
           end)
  /\ (let r := parse_masscan_results "masscan_results.txt" "open_ips80.txt"
                 "open_ips443.txt" world_scan in
      fst r = true
      /\ files (snd r) !! "/w/open_ips80.txt" = Some ("1.1.1.1" +:+ newline)
      /\ files (snd r) !! "/w/open_ips443.txt" = Some ("2.2.2.2" +:+ newline)).
Proof.
  split; [|split; [|split]].
  - intros w masscan_file out80 out443 Hr H80 H443 Hne Hn80 Hn443. cbn zeta.
    unfold parse_masscan_results, can_read, ifstream_content in *.
    destruct (files w !! resolve w masscan_file) as [content|] eqn:Hin;
      [|discriminate].
    rewrite (ifstream_open_some _ _ _ Hin).
    rewrite ofstream_open_can_write, can_write_log, H80.
    rewrite ofstream_open_can_write, can_write_set_files, !can_write_log, H443.
    rewrite ?resolve_set_files, ?resolve_log.
    cbn [files set_files log].
    rewrite !lookup_insert_ne, Hin by congruence.
    rewrite (split_hits_spec (resolve w out80) (resolve w out443) _ Hne
               0 0 _ EmptyString EmptyString).
    2:{ cbn [files set_files].
        rewrite lookup_insert_ne by congruence. apply lookup_insert_eq. }
    2:{ cbn [files set_files]. apply lookup_insert_eq. }
    cbn [fst snd files trace set_files log Nat.add String.append].
    split; [reflexivity|]. split.
    + rewrite (insert_insert_ne _ (resolve w out443) (resolve w out80))
        by congruence.
      rewrite insert_insert_eq.
      rewrite (insert_insert_ne _ (resolve w out80) (resolve w out443))
        by congruence.
      now rewrite insert_insert_eq.
    + now rewrite <- !app_assoc.
  - intros port line ip. unfold hit_ip.
    destruct (split_ws line) as [|t0 [|t1 [|t2 [|t3 ts]]]];
      cbn [length lookup list_lookup].
    1-4: split; [discriminate | intros (H & _); lia].
    destruct (String.eqb_spec t0 "open") as [->|];
      destruct (String.eqb_spec t1 "tcp") as [->|];
      destruct (String.eqb_spec t2 port) as [->|]; cbn [andb];
      (split; [intros H; try discriminate H; injection H as ->;
               repeat split; lia
              | intros (_ & H0 & H1 & H2 & H3); congruence]).
  - intros port line lines. unfold hit_lines. cbn [omap list_omap].
    now destruct (hit_ip port line).
  - vm_compute. repeat split.
Qed.

(** The four lines of the specification, in a working directory with no
    other file. *)
Lemma parse_masscan_results_witness :
  fst (parse_masscan_results "masscan_results.txt" "open_ips80.txt"
         "open_ips443.txt" world_scan) = true.
Proof.
  exact (proj1 (proj1 parse_masscan_results_spec
                  world_scan "masscan_results.txt" "open_ips80.txt"
                  "open_ips443.txt" eq_refl eq_refl eq_refl
                  ltac:(discriminate) ltac:(discriminate) ltac:(discriminate))).
Defined.

(** ** The matcher on a stack *)

Lemma rmatch_star {A : Type} (r : regex) (s : string) (cap : option string)
    (k : string -> option string -> option A) :
  rmatch (RStar r) s cap k = star_loop r k (String.length s) s cap.
Proof. reflexivity. Qed.

Lemma rmatch_in_star {A : Type} (stack : nat) (r : regex) (s : string)
    (cap : option string) (depth : nat)
    (k : string -> option string -> nat -> attempt (option A)) :
  rmatch_in stack (RStar r) s cap depth k
  = if stack <? depth then Overflow
    else star_loop_in stack r k (String.length s) s cap depth.
Proof. reflexivity. Qed.

Lemma rmatch_in_agrees {A : Type} (stack : nat) (r : regex) :
  forall (s : string) (cap : option string) (depth : nat)
         (k' : string -> option string -> nat -> attempt (option A))
         (k : string -> option string -> option A),
    (forall s1 cap1 depth1, agrees (k' s1 cap1 depth1) (k s1 cap1)) ->
    agrees (rmatch_in stack r s cap depth k') (rmatch r s cap k).
Proof.
  induction r as [c|p|r1 IH1 r2 IH2|r1 IH1 r2 IH2|r IH|r IH];
    intros s cap depth k' k Hk.
  - cbn [rmatch_in rmatch]. destruct (stack <? depth); [now left|].
    destruct s as [|a s]; [now right|].
    destruct (Ascii.eqb a c); [apply Hk|now right].
  - cbn [rmatch_in rmatch]. destruct (stack <? depth); [now left|].
    destruct s as [|a s]; [now right|].
    destruct (p a); [apply Hk|now right].
  - cbn [rmatch_in rmatch]. destruct (stack <? depth); [now left|].
    apply IH1. intros s1 cap1 depth1. now apply IH2.
  - cbn [rmatch_in rmatch]. destruct (stack <? depth); [now left|].
    destruct (IH1 s cap (S depth) k' k Hk) as [->| ->]; [now left|].
    destruct (rmatch r1 s cap k) as [x|]; [now right|].
    now apply IH2.
  - rewrite rmatch_in_star, rmatch_star.
    destruct (stack <? depth); [now left|].
    generalize (String.length s). intros n. revert s cap depth.
    induction n as [|n IHn]; intros s cap depth; cbn [star_loop_in star_loop].
    + destruct (stack <? depth); [now left|apply Hk].
    + destruct (stack <? depth); [now left|].
      fold (@star_loop_in A stack r k'). fold (@star_loop A r k).
      match goal with
      | |- agrees (match ?a with _ => _ end) (match ?b with _ => _ end) =>
          assert (agrees a b) as [->| ->]
      end.
      { apply IH. intros s1 cap1 depth1.
        destruct (String.length s1 <? String.length s); [apply IHn|now right]. }
      * now left.
      * match goal with
        | |- agrees _ (match ?b with _ => _ end) => destruct b as [x|]
        end; [now right|apply Hk].
  - cbn [rmatch_in rmatch]. destruct (stack <? depth); [now left|].
    apply IH. intros s1 cap1 depth1. apply Hk.
Qed.

Lemma match_here_in_agrees (stack : nat) (r : regex) (s : string) :
  agrees (match_here_in stack r s) (match_here r s).
Proof.
  unfold match_here_in, match_here. apply rmatch_in_agrees.
  intros s1 cap1 depth1. destruct (stack <? depth1); [now left|now right].
Qed.

Lemma regex_search_in_agrees (stack : nat) (r : regex) (s : string) :
  agrees (regex_search_in stack r s) (regex_search r s).
Proof.
  induction s as [|c s IH]; cbn [regex_search_in regex_search].
  - destruct (match_here_in_agrees stack r EmptyString) as [->| ->];
      [now left|].
    destruct (match_here r EmptyString) as [[rest cap]|]; now right.
  - destruct (match_here_in_agrees stack r (String c s)) as [->| ->];
      [now left|].
    destruct (match_here r (String c s)) as [[rest cap]|]; [now right|exact IH].
Qed.

Lemma extract_json_string_value_agrees (stack : nat) (line : string)
    (key : regex) :
  agrees (extract_json_string_value stack line key)
    (json_string_value line key).
Proof.
  unfold extract_json_string_value, json_string_value.
  destruct (regex_search_in_agrees stack (value_re key) line) as [->| ->];
    [now left|].
  destruct (regex_search (value_re key) line); now right.
Qed.

(** ** The title extractor *)

Lemma getline_all_line (line : string) :
  contains_char char_nl line = false ->
  getline_all char_nl (line +:+ newline) = [line].
Proof.
  intros H. unfold newline. now rewrite getline_all_app.
Qed.

Lemma search_value_fits (line : string) (key : regex) (w : world) :
  search_fits (stack w) line key = true ->
  search_value line key w = (Value (json_string_value line key), w).
Proof.
  unfold search_fits, search_value.
  destruct (extract_json_string_value_agrees (stack w) line key) as [->| ->];
    [discriminate|reflexivity].
Qed.

Lemma search_value_overflow (line : string) (key : regex) (w : world) :
  search_fits (stack w) line key = false ->
  search_value line key w = (Stop Crashed, w).
Proof.
  unfold search_fits, search_value.
  now destruct (extract_json_string_value (stack w) line key).
Qed.

(** The loop appends the report lines of the lines it is given, as long as
    the stack holds the searches. *)
Lemma emit_titles_spec (f : string) (lines : list string) :
  forall w c,
    files w !! f = Some c ->
    forallb (line_fits (stack w)) lines = true ->
    emit_titles lines (Some f) w
    = (Value tt,
       set_files (<[f := c +:+ concat_lines (map report_line lines)]> (files w))
         w).
Proof.
  induction lines as [|line lines IH]; intros w c Hf Hfit.
  - cbn [emit_titles map concat_lines ret].
    now rewrite string_app_nil_r, set_files_same.
  - cbn [forallb] in Hfit. apply andb_true_iff in Hfit as [Hline Hfit].
    unfold line_fits in Hline. apply andb_true_iff in Hline as [Hip Hbody].
    cbn [emit_titles map concat_lines]. unfold bind at 1.
    rewrite (search_value_fits _ _ _ Hip). unfold bind at 1.
    rewrite (search_value_fits _ _ _ Hbody).
    unfold report_line at 1, grab_record.
    destruct (json_string_value line (quoted_re "ip")) as [ip|].
    2:{ cbn [String.append]. now apply IH. }
    destruct (json_string_value line (quoted_re "body")) as [body|];
      unfold bind, call; rewrite (ofstream_write_some w f c _ Hf);
      erewrite IH by (cbn [files set_files stack];
                      first [apply lookup_insert_eq | exact Hfit]);
      cbn [files set_files]; rewrite insert_insert_eq, !string_app_assoc;
      reflexivity.
Qed.

(** C8 (as the specification states it, refuted): one line of grabber
    output, whose body has a title with an escaped line break, is one
    record with an ip, and the report gets two lines for it. *)
Lemma parse_zgrab_titles_counterexample :
  let r := parse_zgrab_titles "zgrab_results_80.json" (Some "/w/opendomains")
             world_multiline in
  length (getline_all char_nl
            (ifstream_content "/w/zgrab_results_80.json" world_multiline)) = 1
  /\ fst r = Value true
  /\ getline_all char_nl (ifstream_content "/w/opendomains" (snd r))
     = ["IP: 1.1.1.1 - Title: Not"; "Found"].
Proof. vm_compute. repeat split. Qed.

(** C8 (amended): as long as the stack holds the two searches of every
    line, the title extractor appends to the report, for the lines of a
    grabber output that is not the report file itself, in their order, nothing for a line without an ip field,
    the text IP: ip - No response body found for a line with an ip and no
    body, and the text IP: ip - Title: title, with the title of
    [extract_title], for a line with both, each followed by a newline; the
    values are those the search returns on that stack; and the text of a
    record is one line of the report when neither the ip nor the title
    holds a line break. *)
Theorem parse_zgrab_titles_spec :
  (forall w zgrab_file sink before,
      can_read w zgrab_file = true ->
      files w !! sink = Some before ->
      resolve w zgrab_file <> sink ->
      let lines :=
        getline_all char_nl (ifstream_content (resolve w zgrab_file) w) in
      forallb (line_fits (stack w)) lines = true ->
      let r := parse_zgrab_titles zgrab_file (Some sink) w in
      fst r = Value true
      /\ files (snd r)
         = <[sink := before +:+ concat_lines (map report_line lines)]> (files w))
  /\ (forall stack line key,
         search_fits stack line key = true ->
         extract_json_string_value stack line key
         = Returned (json_string_value line key))
  /\ (forall line,
         json_string_value line (quoted_re "ip") = None ->
         report_line line = EmptyString)
  /\ (forall line ip,
         json_string_value line (quoted_re "ip") = Some ip ->
         json_string_value line (quoted_re "body") = None ->
         report_line line
         = "IP: " +:+ ip +:+ " - No response body found" +:+ newline)
  /\ (forall line ip body,
         json_string_value line (quoted_re "ip") = Some ip ->
         json_string_value line (quoted_re "body") = Some body ->
         report_line line
         = "IP: " +:+ ip +:+ " - Title: " +:+ extract_title body +:+ newline)
  /\ (forall ip title,
         contains_char char_nl ip = false ->
         contains_char char_nl title = false ->
         getline_all char_nl ("IP: " +:+ ip +:+ " - Title: " +:+ title +:+ newline)
         = ["IP: " +:+ ip +:+ " - Title: " +:+ title])
  /\ (let r := parse_zgrab_titles "zgrab_results_80.json"
                 (Some "/w/opendomains") world_grab in
      files (snd r) !! "/w/opendomains"
      = Some ("IP: 1.1.1.1 - Title: Hello" +:+ newline
              +:+ "IP: 2.2.2.2 - No response body found" +:+ newline)).
Proof.
  split; [|split; [|split; [|split; [|split; [|split]]]]].
  - intros w zgrab_file sink before Hr Hs _ lines Hfit. cbn zeta.
    unfold parse_zgrab_titles, bind, call, emit, ret.
    rewrite ifstream_open_eval, Hr. cbn [orb].
    change (ifstream_content (resolve w zgrab_file)
              (log (OpenRead zgrab_file) w))
      with (ifstream_content (resolve w zgrab_file) w).
    fold lines.
    rewrite (emit_titles_spec sink lines _ before) by assumption.
    cbn [fst snd files set_files log]. now split.
  - intros stack line key H. unfold search_fits in H.
    destruct (extract_json_string_value_agrees stack line key) as [E|E];
      [now rewrite E in H|exact E].
  - intros line H. unfold report_line, grab_record. now rewrite H.
  - intros line ip Hi Hb. unfold report_line, grab_record. now rewrite Hi, Hb.
  - intros line ip body Hi Hb. unfold report_line, grab_record.
    now rewrite Hi, Hb.
  - intros ip title Hip Htitle.
    replace ("IP: " +:+ ip +:+ " - Title: " +:+ title +:+ newline)
      with (("IP: " +:+ ip +:+ " - Title: " +:+ title) +:+ newline)
      by (now rewrite !string_app_assoc).
    apply getline_all_line.
    rewrite !contains_char_app, Hip, Htitle. reflexivity.
  - vm_compute. reflexivity.
Qed.

(** The grabber output of three lines, appended to an empty report. *)
Lemma parse_zgrab_titles_witness :
  fst (parse_zgrab_titles "zgrab_results_80.json" (Some "/w/opendomains")
         world_grab) = Value true.
Proof.
  apply (proj1 parse_zgrab_titles_spec
           world_grab "zgrab_results_80.json" "/w/opendomains" EmptyString).
  - vm_compute. reflexivity.
  - vm_compute. reflexivity.
  - vm_compute. discriminate.
  - vm_compute. reflexivity.
Defined.

(** ** The driver *)

Create HintDb no_success.

Lemma no_success_ret {A : Type} (a : A) : no_success (ret a).
Proof. intros w w' H. discriminate H. Qed.

Lemma no_success_bind {A B : Type} (c : prog A) (k : A -> prog B) :
  no_success c -> (forall a, no_success (k a)) -> no_success (bind c k).
Proof.
  intros Hc Hk w w' H. unfold bind in H.
  destruct (c w) as [[a|status] w1] eqn:E.
  - exact (Hk a w1 w' H).
  - apply (Hc w w1). rewrite E. injection H as -> ->. reflexivity.
Qed.

Lemma no_success_emit (e : event) : no_success (emit e).
Proof. intros w w' H. discriminate H. Qed.

Lemma no_success_exit_1 {A : Type} : no_success (@exit_with A 1).
Proof. intros w w' H. discriminate H. Qed.

Lemma no_success_fs_exists (p : string) : no_success (fs_exists p).
Proof.
  intros w w' H. unfold fs_exists in H.
  destruct (status_fails w p); discriminate H.
Qed.

Lemma no_success_create_directories (p : string) :
  no_success (create_directories p).
Proof.
  intros w w' H. unfold create_directories in H. cbn zeta in H.
  destruct (status_fails _ _ || _ || _) in H; discriminate H.
Qed.

Lemma no_success_copy_file (source target : string) :
  no_success (copy_file source target).
Proof.
  intros w w' H. unfold copy_file in H.
  destruct (files w !! resolve w source); [|discriminate H].
  destruct (_ || _) in H; discriminate H.
Qed.

Lemma no_success_run_command (system_call : string -> world -> Z * world)
    (cmd : string) :
  no_success (run_command system_call cmd).
Proof.
  apply no_success_bind; [apply no_success_emit|].
  intros _ w w' H. destruct (system_call cmd (log (System cmd) w)).
  discriminate H.
Qed.

Lemma no_success_find_in_dirs (todo : list string) (name : string) :
  no_success (find_in_dirs todo name).
Proof.
  induction todo as [|dir todo IH]; cbn [find_in_dirs].
  - apply no_success_ret.
  - destruct (string_empty dir); [exact IH|].
    apply no_success_bind; [apply no_success_fs_exists|].
    intros [|]; [apply no_success_ret | exact IH].
Qed.

Lemma no_success_find_in_path (name : string) : no_success (find_in_path name).
Proof.
  apply no_success_bind; [apply no_success_emit|].
  intros _ w w' H. destruct (env_path w) as [paths|]; [|discriminate H].
  exact (no_success_find_in_dirs _ _ _ _ H).
Qed.

#[local] Hint Resolve no_success_ret no_success_emit no_success_exit_1
  no_success_fs_exists no_success_create_directories no_success_copy_file
  no_success_run_command no_success_find_in_path : no_success.








(** * Further properties of the code *)

(** ** Case folding and trimming *)

Lemma tolower_idempotent (c : ascii) : tolower (tolower c) = tolower c.
Proof. destruct c as [[] [] [] [] [] [] [] []]; vm_compute; reflexivity. Qed.

Lemma tolower_lower (c : ascii) : isupper (tolower c) = false.
Proof. destruct c as [[] [] [] [] [] [] [] []]; vm_compute; reflexivity. Qed.

Lemma tolower_letter (c : ascii) :
  tolower c = if isupper c then ascii_of_nat (nat_of_ascii c + 32) else c.
Proof. reflexivity. Qed.

(** X1: [to_lower] replaces every upper-case letter A to Z by its
    lower-case letter, the character 32 codes further, and leaves every
    other character as it is, position by position: the result has the
    length of its argument and no upper-case letter, and applying
    [to_lower] a second time changes nothing. *)
Theorem to_lower_idempotent (s : string) :
  (forall i c,
      String.get i s = Some c ->
      String.get i (to_lower s)
      = Some (if isupper c then ascii_of_nat (nat_of_ascii c + 32) else c))
  /\ String.length (to_lower s) = String.length s
  /\ string_forallb (fun c => negb (isupper c)) (to_lower s) = true
  /\ to_lower (to_lower s) = to_lower s.
Proof.
  induction s as [|c s (IH1 & IH2 & IH3 & IH4)].
  - repeat split. intros i c H. now destruct i.
  - cbn [to_lower String.length string_forallb].
    rewrite tolower_idempotent, tolower_lower, IH2, IH3, IH4.
    repeat split. intros [|i] a H; cbn [String.get] in *.
    + injection H as <-. now rewrite tolower_letter.
    + now apply IH1.
Qed.

(** The name of a country, at its first letter. *)
Lemma to_lower_idempotent_witness :
  String.get 0 (to_lower "Norway") = Some "n"%char.
Proof.
  exact (proj1 (to_lower_idempotent "Norway") 0 "N"%char eq_refl).
Defined.

Lemma skip_ws_id (s : string) : starts_with_space s = false -> skip_ws s = s.
Proof. destruct s as [|c s]; [reflexivity|]. cbn. now intros ->. Qed.

Lemma rstrip_id (s : string) : ends_with_space s = false -> rstrip s = s.
Proof.
  induction s as [|c s IH]; [reflexivity|]. intros H.
  cbn [rstrip]. destruct s as [|d s].
  - cbn in H |- *. now rewrite H.
  - change (ends_with_space (String c (String d s)))
      with (ends_with_space (String d s)) in H.
    now rewrite (IH H).
Qed.

Lemma skip_ws_all_space (s : string) :
  string_forallb isspace s = true -> skip_ws s = EmptyString.
Proof.
  induction s as [|c s IH]; [reflexivity|]. cbn [string_forallb skip_ws].
  intros H. apply andb_true_iff in H as [-> H]. now apply IH.
Qed.

(** X2: [trim] changes nothing when applied a second time; it returns its
    argument exactly when that neither starts nor ends with whitespace; and
    it returns the empty string for a string of whitespace only. *)
Theorem trim_idempotent :
  (forall s, trim (trim s) = trim s)
  /\ (forall s, trim s = s <->
                starts_with_space s = false /\ ends_with_space s = false)
  /\ (forall s, string_forallb isspace s = true -> trim s = EmptyString).
Proof.
  assert (Hfix : forall s, starts_with_space s = false ->
                           ends_with_space s = false -> trim s = s).
  { intros s Hs He. now rewrite trim_strip, (skip_ws_id s Hs), rstrip_id. }
  split; [|split].
  - intros s. apply Hfix; rewrite trim_strip.
    + apply rstrip_start, skip_ws_start.
    + apply rstrip_end.
  - intros s. split.
    + intros H. rewrite <- H, trim_strip. split.
      * apply rstrip_start, skip_ws_start.
      * apply rstrip_end.
    + intros [Hs He]. now apply Hfix.
  - intros s H. now rewrite trim_strip, skip_ws_all_space.
Qed.

(** Three blanks. *)
Lemma trim_idempotent_witness : trim "   " = EmptyString.
Proof. exact (proj2 (proj2 trim_idempotent) "   " eq_refl). Defined.

(** ** Tokens *)

Lemma is_token_cons (c : ascii) (t : string) :
  is_token (String c t) = negb (isspace c)
                          && string_forallb (fun c => negb (isspace c)) t.
Proof. reflexivity. Qed.

Lemma split_ws_tokens (line : string) :
  forallb is_token (split_ws line) = true.
Proof.
  induction line as [|c rest IH]; [reflexivity|].
  cbn [split_ws]. destruct (isspace c) eqn:Hc; [exact IH|].
  destruct rest as [|c' rest'].
  - cbn [forallb]. now rewrite is_token_cons, Hc.
  - destruct (isspace c') eqn:Hc'.
    + cbn [forallb]. rewrite IH, is_token_cons, Hc. reflexivity.
    + destruct (split_ws (String c' rest')) as [|token tokens].
      * cbn [forallb]. now rewrite is_token_cons, Hc.
      * cbn [forallb] in *. apply andb_true_iff in IH as [Ht Hts].
        rewrite Hts, is_token_cons, Hc.
        destruct token as [|d token]; [discriminate Ht|].
        rewrite is_token_cons in Ht. cbn [string_forallb negb andb].
        now rewrite Ht.
Qed.

Lemma split_ws_single (t : string) : is_token t = true -> split_ws t = [t].
Proof.
  induction t as [|c t IH]; [discriminate|]. rewrite is_token_cons.
  intros H. apply andb_true_iff in H as [Hc Ht].
  apply negb_true_iff in Hc. cbn [split_ws]. rewrite Hc.
  destruct t as [|d t]; [reflexivity|].
  cbn [string_forallb] in Ht. pose proof Ht as Ht'.
  apply andb_true_iff in Ht as [Hd _]. apply negb_true_iff in Hd.
  rewrite Hd, IH; [reflexivity|]. rewrite is_token_cons. exact Ht'.
Qed.

Lemma split_ws_token_app (t rest : string) :
  is_token t = true ->
  split_ws (t +:+ String " " rest) = t :: split_ws rest.
Proof.
  induction t as [|c t IH]; [discriminate|]. rewrite is_token_cons.
  intros H. apply andb_true_iff in H as [Hc Ht].
  apply negb_true_iff in Hc.
  change (String c t +:+ String " " rest)
    with (String c (t +:+ String " " rest)).
  cbn [split_ws]. rewrite Hc.
  destruct t as [|d t].
  - reflexivity.
  - change (String d t +:+ String " " rest)
      with (String d (t +:+ String " " rest)).
    cbn [string_forallb] in Ht. pose proof Ht as Ht'.
    apply andb_true_iff in Ht as [Hd _]. apply negb_true_iff in Hd.
    rewrite Hd.
    change (String d (t +:+ String " " rest))
      with (String d t +:+ String " " rest).
    rewrite IH; [reflexivity|]. rewrite is_token_cons. exact Ht'.
Qed.

(** X3: every token that [split_ws] returns is non-empty and free of
    whitespace; a line of whitespace has no token; and tokens joined by
    single spaces are split into the same tokens. *)
Theorem split_ws_round_trip :
  (forall line, forallb is_token (split_ws line) = true)
  /\ (forall line, string_forallb isspace line = true -> split_ws line = [])
  /\ (forall tokens,
         forallb is_token tokens = true -> split_ws (join_ws tokens) = tokens).
Proof.
  split; [exact split_ws_tokens|]. split.
  - induction line as [|c line IH]; [reflexivity|].
    cbn [string_forallb split_ws]. intros H.
    apply andb_true_iff in H as [-> H]. now apply IH.
  - induction tokens as [|t tokens IH]; [reflexivity|].
    cbn [forallb]. intros H. apply andb_true_iff in H as [Ht Hts].
    destruct tokens as [|t' tokens'].
    + now apply split_ws_single.
    + change (join_ws (t :: t' :: tokens'))
        with (t +:+ String " " (join_ws (t' :: tokens'))).
      now rewrite split_ws_token_app, IH.
Qed.

(** The tokens of a scanner line. *)
Lemma split_ws_round_trip_witness :
  split_ws (join_ws ["open"; "tcp"; "80"; "1.1.1.1"])
  = ["open"; "tcp"; "80"; "1.1.1.1"].
Proof.
  exact (proj2 (proj2 split_ws_round_trip) ["open"; "tcp"; "80"; "1.1.1.1"]
           eq_refl).
Defined.

(** ** The IPv4 validator *)

Lemma split_on_chars (p : ascii -> bool) (d : ascii) (s : string) :
  forallb (string_forallb p) (split_on d s) = true ->
  string_forallb (fun c => p c || Ascii.eqb c d) s = true.
Proof.
  induction s as [|c s IH]; [reflexivity|].
  cbn [split_on string_forallb].
  destruct (Ascii.eqb c d) eqn:Hc.
  - cbn [forallb string_forallb andb]. intros H.
    now rewrite orb_true_r, IH.
  - destruct (split_on d s) as [|seg segs].
    + cbn [forallb string_forallb]. intros H.
      apply andb_true_iff in H as [H _]. apply andb_true_iff in H as [-> _].
      now rewrite IH.
    + cbn [forallb string_forallb] in *. intros H.
      apply andb_true_iff in H as [H Hsegs].
      apply andb_true_iff in H as [-> Hseg].
      now rewrite IH by (now rewrite Hseg).
Qed.

Lemma split_on_length (d : ascii) (s : string) :
  list_sum (map (fun seg => S (String.length seg)) (split_on d s))
  = S (String.length s).
Proof.
  induction s as [|c s IH]; [reflexivity|].
  cbn [split_on String.length]. destruct (Ascii.eqb c d).
  - simpl in *. lia.
  - destruct (split_on d s) as [|seg segs]; [discriminate IH|].
    simpl in *. lia.
Qed.

Lemma drop_final_dot_chars (p : ascii -> bool) (s : string) :
  p "."%char = true ->
  string_forallb p (drop_final_dot s) = true -> string_forallb p s = true.
Proof.
  intros Hp. induction s as [|c s IH]; [reflexivity|].
  cbn [drop_final_dot]. destruct s as [|d s].
  - destruct (Ascii.eqb_spec c ".") as [->|]; [|trivial].
    intros _. cbn. now rewrite Hp.
  - cbn [string_forallb] in *. intros H.
    apply andb_true_iff in H as [-> H]. now apply IH.
Qed.

Lemma drop_final_dot_length (s : string) :
  String.length (drop_final_dot s) <= String.length s
  <= S (String.length (drop_final_dot s)).
Proof.
  induction s as [|c s IH]; [cbn; lia|].
  cbn [drop_final_dot]. destruct s as [|d s].
  - destruct (Ascii.eqb c "."); cbn; lia.
  - cbn [String.length] in *. lia.
Qed.

Lemma segment_ok_length (seg : string) :
  segment_ok seg = true -> 1 <= String.length seg <= 3.
Proof.
  unfold segment_ok. intros H.
  repeat (apply andb_true_iff in H as [H ?]).
  apply Nat.leb_le in H.
  match goal with H' : (_ <=? 3) = true |- _ => apply Nat.leb_le in H' end.
  lia.
Qed.

(** X4: a string that [is_ipv4] accepts consists of decimal digits and dots
    only and has between 7 and 16 characters. *)
Theorem is_ipv4_accepts_digits_and_dots (s : string) :
  is_ipv4 s = true ->
  string_forallb ip_char s = true /\ 7 <= String.length s <= 16.
Proof.
  unfold is_ipv4. rewrite is_ipv4_run_quad. intros H.
  apply andb_true_iff in H as [_ H]. unfold quad_ok in H.
  apply andb_true_iff in H as [Hlen Hsegs]. apply Nat.eqb_eq in Hlen.
  split.
  - apply (drop_final_dot_chars ip_char); [reflexivity|].
    apply (split_on_chars isdigit).
    rewrite forallb_forall in Hsegs |- *. intros seg Hin.
    now apply segment_ok_digits, Hsegs.
  - pose proof (split_on_length "." (drop_final_dot s)) as Hsum.
    pose proof (drop_final_dot_length s) as Hdrop.
    destruct (split_on "." (drop_final_dot s)) as [|a [|b [|c [|d [|e segs]]]]];
      try discriminate Hlen.
    cbn [forallb] in Hsegs.
    repeat (apply andb_true_iff in Hsegs as [?%segment_ok_length Hsegs]).
    simpl in Hsum. lia.
Qed.

(** The longest accepted string. *)
Lemma is_ipv4_accepts_digits_and_dots_witness :
  string_forallb ip_char "255.255.255.255." = true
  /\ 7 <= String.length "255.255.255.255." <= 16.
Proof.
  exact (is_ipv4_accepts_digits_and_dots "255.255.255.255." eq_refl).
Defined.

(** ** The JSON string unescaper *)

Lemma unescape_scan_plain (c : ascii) (rest : string) :
  Ascii.eqb c backslash = false ->
  unescape_scan (String c rest) = String c (unescape_scan rest).
Proof. intros H. cbn [unescape_scan]. now rewrite H. Qed.

Lemma unescape_scan_length (n : nat) :
  forall s, String.length s <= n ->
            String.length (unescape_scan s) <= String.length s.
Proof.
  induction n as [|n IH]; intros s Hn.
  - destruct s; [cbn; lia | cbn in Hn; lia].
  - destruct s as [|c rest]; [cbn; lia|].
    cbn [String.length] in Hn.
    destruct (Ascii.eqb_spec c backslash) as [->|Hc].
    2:{ apply Ascii.eqb_neq in Hc. rewrite unescape_scan_plain by assumption.
        cbn [String.length]. specialize (IH rest). lia. }
    destruct rest as [|m rest]; [vm_compute; lia|].
    rewrite unescape_scan_escape. cbn [String.length] in *.
    assert (Hrest : String.length (unescape_scan rest) <= String.length rest)
      by (apply IH; lia).
    repeat match goal with
           | |- context [Ascii.eqb m ?x] =>
               destruct (Ascii.eqb m x); [cbn [String.length]; lia|]
           end.
    destruct (Ascii.eqb m "u"); [|cbn [String.length]; lia].
    destruct rest as [|h1 [|h2 [|h3 [|h4 rest]]]]; try lia.
    cbn [String.length] in *.
    assert (String.length (unescape_scan rest) <= String.length rest)
      by (apply IH; lia).
    lia.
Qed.

(** X5: the unescaper never returns more characters than it is given, and
    it returns a string without backslash unchanged. *)
Theorem unescape_json_string_shrinks :
  (forall s, String.length (unescape_json_string s) <= String.length s)
  /\ (forall s, contains_char backslash s = false ->
                unescape_json_string s = s).
Proof.
  split; intros s; rewrite unescape_json_string_eq.
  - now apply (unescape_scan_length (String.length s)).
  - induction s as [|c s IH]; [reflexivity|].
    rewrite contains_char_cons. intros H.
    apply orb_false_iff in H as [Hc Hs]. rewrite Ascii.eqb_sym in Hc.
    now rewrite unescape_scan_plain, IH.
Qed.

(** A value without escape. *)
Lemma unescape_json_string_shrinks_witness :
  unescape_json_string "1.2.3.4" = "1.2.3.4".
Proof. exact (proj2 unescape_json_string_shrinks "1.2.3.4" eq_refl). Defined.

(** X6: a u escape with fewer than four characters after it is dropped
    together with its backslash, and the characters after it are decoded as
    usual; a u escape whose four characters start with one that is no
    hexadecimal digit, no whitespace and no sign gives the character of
    code 0. *)
Theorem unescape_json_string_malformed_u :
  (forall t, String.length t < 4 ->
             unescape_json_string (String backslash (String "u" t))
             = unescape_json_string t)
  /\ (forall h1 h2 h3 h4 rest,
         hex_digit h1 = None -> isspace h1 = false ->
         Ascii.eqb h1 "-" = false -> Ascii.eqb h1 "+" = false ->
         unescape_json_string
           (String backslash
              (String "u" (String h1 (String h2 (String h3 (String h4 rest))))))
         = String (ascii_of_nat 0) (unescape_json_string rest)).
Proof.
  split.
  - intros t Ht. rewrite !unescape_json_string_eq.
    destruct t as [|h1 [|h2 [|h3 [|h4 t]]]]; try reflexivity.
    cbn [String.length] in Ht. lia.
  - intros h1 h2 h3 h4 rest Hhex Hs Hm Hp. rewrite !unescape_json_string_eq.
    change (unescape_scan
              (String backslash
                 (String "u" (String h1 (String h2 (String h3 (String h4 rest)))))))
      with (String
              (code_char
                 (read_hex
                    (String h1 (String h2 (String h3 (String h4 EmptyString))))))
              (unescape_scan rest)).
    assert (E : read_hex (String h1 (String h2 (String h3 (String h4 EmptyString))))
                = 0%Z).
    { unfold read_hex. cbn [skip_ws]. rewrite Hs, Hm, Hp.
      assert (Hz : Ascii.eqb h1 "0" = false).
      { destruct (Ascii.eqb_spec h1 "0") as [->|]; [discriminate Hhex|reflexivity]. }
      rewrite Hz. cbn [andb hex_digits]. now rewrite Hhex. }
    now rewrite E.
Qed.

(** A u escape at the end of the string, and one followed by zzzz. *)
Lemma unescape_json_string_malformed_u_witness :
  unescape_json_string "\u41" = unescape_json_string "41"
  /\ unescape_json_string "\uzzzz!"
     = String (ascii_of_nat 0) (unescape_json_string "!").
Proof.
  split.
  - exact (proj1 unescape_json_string_malformed_u "41" ltac:(cbn; lia)).
  - exact (proj2 unescape_json_string_malformed_u "z"%char "z"%char "z"%char
             "z"%char "!" eq_refl eq_refl eq_refl eq_refl).
Defined.

(** ** Title extraction *)

(** X7: the title that [extract_title] returns is never empty and neither
    starts nor ends with whitespace. *)
Theorem extract_title_trimmed (html : string) :
  extract_title html <> EmptyString
  /\ starts_with_space (extract_title html) = false
  /\ ends_with_space (extract_title html) = false.
Proof.
  assert (Hno : no_title <> EmptyString
                /\ starts_with_space no_title = false
                /\ ends_with_space no_title = false)
    by (repeat split; discriminate).
  unfold extract_title.
  destruct (String.index 0 "<title" (to_lower html)) as [start|]; [|exact Hno].
  destruct (String.index start ">" (to_lower html)) as [gt|]; [|exact Hno].
  destruct (String.index gt "</title>" (to_lower html)) as [end_|]; [|exact Hno].
  destruct (end_ <=? gt); [exact Hno|].
  destruct (string_empty (trim (String.substring (gt + 1) (end_ - gt - 1) html)))
    eqn:E; [exact Hno|].
  split; [|split].
  - intros H. rewrite H in E. discriminate E.
  - rewrite trim_strip. apply rstrip_start, skip_ws_start.
  - rewrite trim_strip. apply rstrip_end.
Qed.

(** ** The target list of a single host *)

(** X8: [write_single_input_list] returns true and leaves a list file
    that holds the input followed by one newline, all other files
    untouched, when the list file can be opened; it returns false and
    changes no file when it cannot. An input without newline reads back
    from that file as its one line. *)
Theorem write_single_input_list_spec (w : world) (list_path input : string) :
  let r := write_single_input_list list_path input w in
  (can_write w list_path = true ->
   fst r = true
   /\ files (snd r) = <[resolve w list_path := input +:+ newline]> (files w)
   /\ (contains_char char_nl input = false ->
       getline_all char_nl (ifstream_content (resolve w list_path) (snd r))
       = [input]))
  /\ (can_write w list_path = false ->
      fst r = false /\ files (snd r) = files w).
Proof.
  cbn zeta. unfold write_single_input_list.
  rewrite ofstream_open_can_write.
  destruct (can_write w list_path); split; try discriminate; intros _.
  - rewrite (ofstream_write_some _ _ EmptyString)
      by (cbn [files set_files]; apply lookup_insert_eq).
    cbn [fst snd files set_files log String.append].
    rewrite insert_insert_eq. repeat split.
    intros Hnl. unfold ifstream_content. cbn [files set_files].
    rewrite lookup_insert_eq. now apply getline_all_line.
  - now split.
Qed.

(** The single host of the specification. *)
Lemma write_single_input_list_witness :
  files (snd (write_single_input_list "/w/list" "10.0.0.1" world_bare))
  = <["/w/list" := "10.0.0.1" +:+ newline]> (files world_bare).
Proof.
  exact (proj1 (proj2 (proj1 (write_single_input_list_spec world_bare
                                "/w/list" "10.0.0.1") eq_refl))).
Defined.

(** ** The scan-result splitter, when a file does not open *)

(** X9: [parse_masscan_results] returns false without touching a file
    when the scanner output is neither a regular file nor a directory.
    When the stream on the scanner output opens and only one destination
    can be opened, it returns false as well, but the destination that did
    open has been truncated and stays empty. A directory given as the
    scanner output opens like a file and gives no line: both destinations
    are truncated and the function returns true. *)
Theorem parse_masscan_results_failures
    (w : world) (masscan_file out80 out443 : string) :
  let r := parse_masscan_results masscan_file out80 out443 w in
  (can_read w masscan_file = false -> is_directory w masscan_file = false ->
   fst r = false /\ files (snd r) = files w
   /\ trace (snd r)
      = trace w ++ [OpenRead masscan_file;
                    Stderr ("Failed to read " +:+ show_path masscan_file)])
  /\ (can_read w masscan_file || is_directory w masscan_file = true ->
      can_write w out80 = true -> can_write w out443 = false ->
      fst r = false
      /\ files (snd r) = <[resolve w out80 := EmptyString]> (files w))
  /\ (can_read w masscan_file || is_directory w masscan_file = true ->
      can_write w out80 = false -> can_write w out443 = true ->
      fst r = false
      /\ files (snd r) = <[resolve w out443 := EmptyString]> (files w))
  /\ (can_read w masscan_file = false -> is_directory w masscan_file = true ->
      can_write w out80 = true -> can_write w out443 = true ->
      resolve w out80 <> resolve w masscan_file ->
      resolve w out443 <> resolve w masscan_file ->
      fst r = true
      /\ files (snd r)
         = <[resolve w out443 := EmptyString]>
             (<[resolve w out80 := EmptyString]> (files w))).
Proof.
  cbn zeta. unfold parse_masscan_results.
  rewrite ifstream_open_eval.
  split; [|split; [|split]].
  - intros -> ->. cbn [orb fst snd files trace log]. repeat split.
    now rewrite <- app_assoc.
  - intros -> H80 H443.
    rewrite ofstream_open_can_write, can_write_log, H80.
    rewrite ofstream_open_can_write, can_write_set_files, !can_write_log, H443.
    split; reflexivity.
  - intros -> H80 H443.
    rewrite ofstream_open_can_write, can_write_log, H80.
    rewrite ofstream_open_can_write, !can_write_log, H443.
    split; reflexivity.
  - intros Hr -> H80 H443 Hne80 Hne443. rewrite orb_true_r.
    rewrite ofstream_open_can_write, can_write_log, H80.
    rewrite ofstream_open_can_write, can_write_set_files, !can_write_log, H443.
    unfold ifstream_content. cbn [files set_files log].
    rewrite !resolve_set_files, !resolve_log.
    unfold can_read in Hr.
    destruct (files w !! resolve w masscan_file) eqn:Hin; [discriminate|].
    rewrite !lookup_insert_ne, Hin by congruence.
    cbn [getline_all split_hits fst snd files set_files log].
    split; reflexivity.
Qed.

(** The port-443 file cannot be opened; the port-80 file of an earlier run
    is emptied. *)
Lemma parse_masscan_results_failures_witness :
  fst (parse_masscan_results "masscan_results.txt" "open_ips80.txt"
         "open_ips443.txt" world_locked) = false
  /\ files (snd (parse_masscan_results "masscan_results.txt" "open_ips80.txt"
                   "open_ips443.txt" world_locked))
     = <[resolve world_locked "open_ips80.txt" := EmptyString]>
         (files world_locked).
Proof.
  apply (proj1 (proj2 (parse_masscan_results_failures world_locked
                         "masscan_results.txt" "open_ips80.txt"
                         "open_ips443.txt"))).
  - vm_compute. reflexivity.
  - vm_compute. reflexivity.
  - vm_compute. reflexivity.
Defined.

(** A directory in the place of the scanner output: the port-80 file of an
    earlier run is emptied and the function returns true. *)
Lemma parse_masscan_results_directory :
  fst (parse_masscan_results "masscan_results.txt" "open_ips80.txt"
         "open_ips443.txt" world_scan_directory) = true
  /\ files (snd (parse_masscan_results "masscan_results.txt" "open_ips80.txt"
                   "open_ips443.txt" world_scan_directory))
     !! "/w/open_ips80.txt" = Some EmptyString.
Proof. vm_compute. split; reflexivity. Qed.

(** ** The title extractor, over two grabber outputs *)

Lemma parse_zgrab_titles_eval (w : world) (zgrab_file sink before : string) :
  can_read w zgrab_file = true ->
  files w !! sink = Some before ->
  forallb (line_fits (stack w))
    (getline_all char_nl (ifstream_content (resolve w zgrab_file) w)) = true ->
  parse_zgrab_titles zgrab_file (Some sink) w
  = (Value true,
     set_files
       (<[sink := before
                  +:+ concat_lines
                        (map report_line
                           (getline_all char_nl
                              (ifstream_content (resolve w zgrab_file) w)))]>
          (files w))
       (log (OpenRead zgrab_file) w)).
Proof.
  intros Hr Hs Hfit. unfold parse_zgrab_titles, bind, call, emit, ret.
  rewrite ifstream_open_eval, Hr. cbn [orb].
  change (ifstream_content (resolve w zgrab_file) (log (OpenRead zgrab_file) w))
    with (ifstream_content (resolve w zgrab_file) w).
  now rewrite (emit_titles_spec sink _ _ before) by assumption.
Qed.

Lemma emit_titles_failed_sink (lines : list string) (w : world) :
  forallb (line_fits (stack w)) lines = true ->
  emit_titles lines None w = (Value tt, w).
Proof.
  induction lines as [|line lines IH]; intros Hfit; [reflexivity|].
  cbn [forallb] in Hfit. apply andb_true_iff in Hfit as [Hline Hfit].
  unfold line_fits in Hline. apply andb_true_iff in Hline as [Hip Hbody].
  cbn [emit_titles]. unfold bind at 1.
  rewrite (search_value_fits _ _ _ Hip). unfold bind at 1.
  rewrite (search_value_fits _ _ _ Hbody).
  destruct (json_string_value line (quoted_re "ip")); [|now apply IH].
  destruct (json_string_value line (quoted_re "body"));
    unfold bind, call; cbn [ofstream_write]; now rewrite IH.
Qed.

(** The loop is cut at the first line whose searches the stack does not
    hold, the stream having been given the report lines of the lines
    before it. *)
Lemma emit_titles_crash (f : string) (bad : string) (rest : list string) :
  forall (fit : list string) (w : world) (c : string),
    files w !! f = Some c ->
    forallb (line_fits (stack w)) fit = true ->
    line_fits (stack w) bad = false ->
    emit_titles (fit ++ bad :: rest) (Some f) w
    = (Stop Crashed,
       set_files (<[f := c +:+ concat_lines (map report_line fit)]> (files w)) w).
Proof.
  induction fit as [|line fit IH]; intros w c Hf Hfit Hbad.
  - cbn [app emit_titles map concat_lines].
    rewrite string_app_nil_r, set_files_same by exact Hf.
    unfold line_fits in Hbad. unfold bind at 1.
    destruct (search_fits (stack w) bad (quoted_re "ip")) eqn:Hip.
    + rewrite (search_value_fits _ _ _ Hip). unfold bind at 1.
      cbn [andb] in Hbad. now rewrite (search_value_overflow _ _ _ Hbad).
    + now rewrite (search_value_overflow _ _ _ Hip).
  - cbn [forallb] in Hfit. apply andb_true_iff in Hfit as [Hline Hfit].
    unfold line_fits in Hline. apply andb_true_iff in Hline as [Hip Hbody].
    cbn [app emit_titles map concat_lines]. unfold bind at 1.
    rewrite (search_value_fits _ _ _ Hip). unfold bind at 1.
    rewrite (search_value_fits _ _ _ Hbody).
    unfold report_line at 1, grab_record.
    destruct (json_string_value line (quoted_re "ip")) as [ip|].
    2:{ cbn [String.append]. now apply IH. }
    destruct (json_string_value line (quoted_re "body")) as [body|];
      unfold bind, call; rewrite (ofstream_write_some w f c _ Hf);
      erewrite IH by (cbn [files set_files stack];
                      first [apply lookup_insert_eq | assumption]);
      cbn [files set_files]; rewrite insert_insert_eq, !string_app_assoc;
      reflexivity.
Qed.

(** X10: [parse_zgrab_titles] returns false and writes nothing when the
    grabber output is neither a regular file nor a directory; for a
    directory it returns true and writes nothing. Called for a first and
    then a second grabber output with the same sink, with every search
    within the stack, it leaves the report lines of the first followed by
    those of the second, with no line merged or dropped for a host that is
    in both. At the first line on which a search outgrows the stack the
    process is killed, no file other than the report having changed; what
    of the report has reached its file by then is not stated. The grabber
    outputs are files other than the report. *)
Theorem parse_zgrab_titles_sequence :
  (forall w zgrab_file out,
      can_read w zgrab_file = false -> is_directory w zgrab_file = false ->
      fst (parse_zgrab_titles zgrab_file out w) = Value false
      /\ files (snd (parse_zgrab_titles zgrab_file out w)) = files w)
  /\ (forall w zgrab_file out,
         can_read w zgrab_file = false -> is_directory w zgrab_file = true ->
         parse_zgrab_titles zgrab_file out w
         = (Value true, log (OpenRead zgrab_file) w))
  /\ (forall w first second sink before,
         can_read w first = true -> can_read w second = true ->
         files w !! sink = Some before ->
         resolve w first <> sink -> resolve w second <> sink ->
         let lines f := getline_all char_nl (ifstream_content (resolve w f) w) in
         forallb (line_fits (stack w)) (lines first) = true ->
         forallb (line_fits (stack w)) (lines second) = true ->
         let r1 := parse_zgrab_titles first (Some sink) w in
         let r2 := parse_zgrab_titles second (Some sink) (snd r1) in
         fst r2 = Value true
         /\ files (snd r2)
            = <[sink := before
                        +:+ concat_lines (map report_line (lines first))
                        +:+ concat_lines (map report_line (lines second))]>
                (files w))
  /\ (forall w zgrab_file sink before fit bad rest,
         can_read w zgrab_file = true ->
         files w !! sink = Some before ->
         resolve w zgrab_file <> sink ->
         getline_all char_nl (ifstream_content (resolve w zgrab_file) w)
         = fit ++ bad :: rest ->
         forallb (line_fits (stack w)) fit = true ->
         line_fits (stack w) bad = false ->
         let r := parse_zgrab_titles zgrab_file (Some sink) w in
         fst r = Stop Crashed
         /\ forall f, f <> sink -> files (snd r) !! f = files w !! f).
Proof.
  split; [|split; [|split]].
  - intros w zgrab_file out Hr Hd.
    unfold parse_zgrab_titles, bind, call, emit, ret.
    rewrite ifstream_open_eval, Hr, Hd. now split.
  - intros w zgrab_file out Hr Hd.
    unfold parse_zgrab_titles, bind, call, emit, ret.
    rewrite ifstream_open_eval, Hr, Hd. cbn [orb].
    unfold ifstream_content. cbn [files log]. unfold can_read in Hr.
    destruct (files w !! resolve w zgrab_file); [discriminate|].
    reflexivity.
  - intros w first second sink before H1 H2 Hs _ Hne lines Hf1 Hf2. cbn zeta.
    rewrite (parse_zgrab_titles_eval w first sink before H1 Hs Hf1).
    cbn [snd].
    assert (ifstream_content
              (resolve
                 (set_files
                    (<[sink := before
                               +:+ concat_lines (map report_line (lines first))]>
                       (files w)) (log (OpenRead first) w)) second)
              (set_files
                 (<[sink := before
                            +:+ concat_lines (map report_line (lines first))]>
                    (files w)) (log (OpenRead first) w))
            = ifstream_content (resolve w second) w) as Hcontent.
    { unfold ifstream_content. rewrite resolve_set_files, resolve_log.
      cbn [files set_files log]. now rewrite lookup_insert_ne by congruence. }
    erewrite parse_zgrab_titles_eval.
    + cbn [fst snd files set_files]. split; [reflexivity|].
      rewrite insert_insert_eq. unfold lines in Hcontent. rewrite Hcontent.
      now rewrite string_app_assoc.
    + unfold can_read in *. rewrite resolve_set_files, resolve_log.
      cbn [files set_files log]. now rewrite lookup_insert_ne by congruence.
    + cbn [files set_files]. apply lookup_insert_eq.
    + unfold lines in Hcontent. rewrite Hcontent. exact Hf2.
  - intros w zgrab_file sink before fit bad rest Hr Hs _ Hlines Hfit Hbad.
    cbn zeta. unfold parse_zgrab_titles, bind, call, emit, ret.
    rewrite ifstream_open_eval, Hr. cbn [orb].
    change (ifstream_content (resolve w zgrab_file)
              (log (OpenRead zgrab_file) w))
      with (ifstream_content (resolve w zgrab_file) w).
    rewrite Hlines.
    rewrite (emit_titles_crash sink bad rest fit _ before) by assumption.
    split; [reflexivity|]. intros f Hf. cbn [snd files set_files log].
    now rewrite lookup_insert_ne by congruence.
Qed.

(** The outputs of the two ports, with the host 1.1.1.1 in both. *)
Lemma parse_zgrab_titles_sequence_witness :
  files (snd (parse_zgrab_titles "zgrab_results_443.json" (Some "/w/opendomains")
                (snd (parse_zgrab_titles "zgrab_results_80.json"
                        (Some "/w/opendomains") world_grab_both))))
  !! "/w/opendomains"
  = Some ("IP: 1.1.1.1 - Title: Hello" +:+ newline
          +:+ "IP: 2.2.2.2 - No response body found" +:+ newline
          +:+ "IP: 1.1.1.1 - Title: Secure" +:+ newline).
Proof.
  assert (H := proj1 (proj2 (proj2 parse_zgrab_titles_sequence))
                 world_grab_both
                 "zgrab_results_80.json" "zgrab_results_443.json"
                 "/w/opendomains" EmptyString).
  cbn zeta in H.
  destruct H as [_ H];
    [vm_compute; reflexivity | vm_compute; reflexivity
    | vm_compute; reflexivity | vm_compute; discriminate
    | vm_compute; discriminate
    | vm_compute; reflexivity | vm_compute; reflexivity |].
  rewrite H. vm_compute. reflexivity.
Defined.

(** On a stack of 40 calls the search for the body of the second line
    kills the process. *)
Lemma parse_zgrab_titles_shallow_stack :
  fst (parse_zgrab_titles "zgrab_results_80.json" (Some "/w/opendomains")
         world_grab_shallow) = Stop Crashed.
Proof. vm_compute. reflexivity. Qed.

(** ** What the ASN range extractor writes *)

Lemma filter_map_sublist {A B : Type} (f : A -> B) (p q : A -> bool)
    (l : list A) :
  (forall x, p x = true -> q x = true) ->
  sublist (map f (List.filter p l)) (map f (List.filter q l)).
Proof.
  intros Hpq. induction l as [|x l IH]; cbn [List.filter map]; [constructor|].
  destruct (p x) eqn:Hp.
  - rewrite (Hpq x Hp). cbn [map]. now constructor.
  - destruct (q x); cbn [map]; [now constructor|exact IH].
Qed.

Lemma filter_length_le {A : Type} (p : A -> bool) (l : list A) :
  length (List.filter p l) <= length l.
Proof.
  induction l as [|x l IH]; cbn [List.filter length]; [lia|].
  destruct (p x); cbn [length]; lia.
Qed.

Lemma range_lines_valid (country_filter : string)
    (starts ends countries : list string) :
  Forall is_range_line (range_lines country_filter starts ends countries).
Proof.
  unfold range_lines. induction (seq 0 (length starts)) as [|i l IH];
    cbn [List.filter map]; [constructor|].
  destruct (range_selected country_filter starts ends countries i) eqn:Hi;
    [|exact IH].
  cbn [map]. constructor; [|exact IH]. unfold range_selected in Hi.
  apply andb_prop in Hi as [Hi He]. apply andb_prop in Hi as [_ Hs].
  exists (nth i starts EmptyString), (nth i ends EmptyString).
  now repeat split.
Qed.

(** X11: when [build_list_from_asn_json] returns true, the list file holds
    at least one line, every line is two addresses the validator accepts
    with a dash between them, the lines are a subsequence of those the same
    call without a country filter writes, and there are no more lines than
    start_ip fields in the document. *)
Theorem build_list_from_asn_json_output (w : world)
    (json_path list_path country_filter : string) :
  fst (build_list_from_asn_json json_path list_path country_filter w)
  = Value true ->
  exists lines all,
    files (snd (build_list_from_asn_json json_path list_path country_filter w))
    !! resolve w list_path = Some (concat_lines lines)
    /\ files (snd (build_list_from_asn_json json_path list_path EmptyString w))
       !! resolve w list_path = Some (concat_lines all)
    /\ lines <> []
    /\ Forall is_range_line lines
    /\ sublist lines all
    /\ length all
       <= length (regex_captures start_re
                    (ifstream_content (resolve w json_path) w)).
Proof.
  rewrite !build_list_from_asn_json_eval. cbn zeta.
  destruct (can_read w json_path);
    [|destruct (is_directory w json_path); discriminate].
  destruct (asn_valid (ifstream_content (resolve w json_path) w));
    [|discriminate].
  destruct (can_write w list_path); [|discriminate].
  cbn [fst snd files log set_files]. intros Hcount. injection Hcount as Hcount.
  exists (asn_lines country_filter (ifstream_content (resolve w json_path) w)),
         (asn_lines EmptyString (ifstream_content (resolve w json_path) w)).
  rewrite !lookup_insert_eq. split; [reflexivity|]. split; [reflexivity|].
  split.
  { intros E. rewrite E in Hcount. discriminate. }
  split; [apply range_lines_valid|].
  split.
  - unfold asn_lines, range_lines. apply filter_map_sublist.
    intros i. unfold range_selected, country_selected. cbn [string_empty orb].
    intros H. apply andb_prop in H as [H He]. apply andb_prop in H as [_ Hs].
    now rewrite Hs, He.
  - unfold asn_lines, range_lines. rewrite length_map.
    etransitivity; [apply filter_length_le|]. now rewrite length_seq.
Qed.

(** The table of three records under the filter norway: one line of the
    three that are written without a filter. *)
Lemma build_list_from_asn_json_output_witness :
  exists lines all,
    files (snd (build_list_from_asn_json "asn.json" "list" "norway" world_asn))
    !! "/w/list" = Some (concat_lines lines)
    /\ files (snd (build_list_from_asn_json "asn.json" "list" EmptyString
                     world_asn))
       !! "/w/list" = Some (concat_lines all)
    /\ lines <> []
    /\ Forall is_range_line lines
    /\ sublist lines all
    /\ length all <= 3.
Proof.
  exact (build_list_from_asn_json_output world_asn "asn.json" "list" "norway"
           ltac:(vm_compute; reflexivity)).
Defined.

Lemma string_empty_to_lower (s : string) :
  string_empty (to_lower s) = string_empty s.
Proof. now destruct s. Qed.

(** X12: the country filter of [build_list_from_asn_json] is compared
    without regard to case: two filters that are equal once lowered give the
    same result, the same list file and the same messages. *)
Theorem build_list_from_asn_json_filter_case (w : world)
    (json_path list_path filter1 filter2 : string) :
  to_lower filter1 = to_lower filter2 ->
  build_list_from_asn_json json_path list_path filter1 w
  = build_list_from_asn_json json_path list_path filter2 w.
Proof.
  intros Hlow. rewrite !build_list_from_asn_json_eval. cbn zeta.
  assert (asn_lines filter1 (ifstream_content (resolve w json_path) w)
          = asn_lines filter2 (ifstream_content (resolve w json_path) w)) as ->;
    [|reflexivity].
  unfold asn_lines, range_lines. f_equal. apply filter_ext. intros i.
  unfold range_selected, country_selected.
  rewrite <- (string_empty_to_lower filter1), <- (string_empty_to_lower filter2).
  now rewrite Hlow.
Qed.

Lemma build_list_from_asn_json_filter_case_witness :
  build_list_from_asn_json "asn.json" "list" "NORWAY" world_asn
  = build_list_from_asn_json "asn.json" "list" "norway" world_asn.
Proof.
  exact (build_list_from_asn_json_filter_case world_asn "asn.json" "list"
           "NORWAY" "norway" eq_refl).
Defined.

(** ** The command line *)

Lemma classify_arg_cases (arg : string) (has_next : bool) (cfg : Config) :
  match classify_arg arg has_next cfg with
  | ArgValue update =>
      has_next = true /\ forall v c, list_file (update v c) = list_file c
  | ArgFlag update => forall c, list_file (update c) = list_file c
  | _ => True
  end.
Proof.
  unfold classify_arg.
  destruct (String.eqb arg "--help" || String.eqb arg "-h"); [exact I|].
  destruct (String.eqb arg "--ports" && has_next) eqn:E1;
    [apply andb_prop in E1 as [_ ->]; now split|].
  destruct (String.eqb arg "--rate" && has_next) eqn:E2;
    [apply andb_prop in E2 as [_ ->]; now split|].
  destruct (String.eqb arg "--no-download"); [reflexivity|].
  destruct (String.eqb arg "--output" && has_next) eqn:E3;
    [apply andb_prop in E3 as [_ ->]; now split|].
  destruct (String.eqb arg "--list"); [reflexivity|].
  destruct (String.eqb arg "--country" && has_next) eqn:E4;
    [apply andb_prop in E4 as [_ ->]; now split|].
  destruct (String.prefix "--" arg); [exact I|].
  now destruct (string_empty (input cfg)).
Qed.

Lemma parse_args_loop_cons (arg : string) (rest : list string) (cfg : Config) :
  parse_args_loop (arg :: rest) cfg
  = match rest with
    | value :: rest' =>
        match classify_arg arg true cfg with
        | ArgHelp => let* _ := print_usage in ret None
        | ArgValue update => parse_args_loop rest' (update value cfg)
        | ArgFlag update => parse_args_loop rest (update cfg)
        | ArgUnknown =>
            let* _ := emit (Stderr ("Unknown option: " +:+ arg)) in ret None
        | ArgInput => parse_args_loop rest (set_input arg cfg)
        | ArgUnexpected =>
            let* _ := emit (Stderr ("Unexpected argument: " +:+ arg)) in
            ret None
        end
    | [] =>
        match classify_arg arg false cfg with
        | ArgHelp => let* _ := print_usage in ret None
        | ArgValue _ => ret None
        | ArgFlag update => ret (Some (update cfg))
        | ArgUnknown =>
            let* _ := emit (Stderr ("Unknown option: " +:+ arg)) in ret None
        | ArgInput => ret (Some (set_input arg cfg))
        | ArgUnexpected =>
            let* _ := emit (Stderr ("Unexpected argument: " +:+ arg)) in
            ret None
        end
    end.
Proof. reflexivity. Qed.

(** What the loop of [parse_args] leaves: a configuration and nothing
    printed, or one message and no configuration. *)
Lemma parse_args_loop_outcome (n : nat) :
  forall (args : list string) (cfg : Config) (w : world),
    length args <= n ->
    match fst (parse_args_loop args cfg w) with
    | Value (Some cfg') =>
        snd (parse_args_loop args cfg w) = w /\ list_file cfg' = list_file cfg
    | Value None =>
        snd (parse_args_loop args cfg w) = log (Stdout usage) w
        \/ exists msg, snd (parse_args_loop args cfg w) = log (Stderr msg) w
    | Stop _ => False
    end.
Proof.
  induction n as [|n IH]; intros args cfg w Hlen.
  { destruct args; [now split|cbn [length] in Hlen; lia]. }
  destruct args as [|arg rest]; [now split|].
  rewrite parse_args_loop_cons. cbn [length] in Hlen.
  destruct rest as [|value rest'].
  - pose proof (classify_arg_cases arg false cfg) as Hc.
    destruct (classify_arg arg false cfg) as [|update|update| | |].
    + now left.
    + now destruct Hc.
    + cbn [ret fst snd]. now split.
    + right. now eexists.
    + now split.
    + right. now eexists.
  - pose proof (classify_arg_cases arg true cfg) as Hc.
    cbn [length] in Hlen.
    destruct (classify_arg arg true cfg) as [|update|update| | |].
    + now left.
    + destruct Hc as [_ Hc].
      specialize (IH rest' (update value cfg) w ltac:(lia)).
      destruct (fst (parse_args_loop rest' (update value cfg) w))
        as [[cfg'|]|]; [|exact IH..].
      destruct IH as [? ?]. split; [assumption|].
      now rewrite <- (Hc value cfg).
    + specialize (IH (value :: rest') (update cfg) w ltac:(cbn [length]; lia)).
      destruct (fst (parse_args_loop (value :: rest') (update cfg) w))
        as [[cfg'|]|]; [|exact IH..].
      destruct IH as [? ?]. split; [assumption|]. now rewrite <- (Hc cfg).
    + right. now eexists.
    + specialize (IH (value :: rest') (set_input arg cfg) w
                    ltac:(cbn [length]; lia)).
      destruct (fst (parse_args_loop (value :: rest') (set_input arg cfg) w))
        as [[cfg'|]|]; exact IH.
    + right. now eexists.
Qed.

(** X13: [parse_args] never ends the process. When it accepts the command
    line it has printed nothing, the input of the configuration is not
    empty and the name of the list file is the one it was given (no option
    sets it). When it rejects the command line it has printed exactly one
    message, the usage text or a diagnostic, and touched nothing else. *)
Theorem parse_args_outcome (argv : list string) (cfg : Config) (w : world) :
  match fst (parse_args argv cfg w) with
  | Value (Some cfg') =>
      snd (parse_args argv cfg w) = w
      /\ input cfg' <> EmptyString
      /\ list_file cfg' = list_file cfg
  | Value None =>
      snd (parse_args argv cfg w) = log (Stdout usage) w
      \/ exists msg, snd (parse_args argv cfg w) = log (Stderr msg) w
  | Stop _ => False
  end.
Proof.
  unfold parse_args. destruct (length argv <? 2); [now left|].
  pose proof (parse_args_loop_outcome (length (tail argv)) (tail argv) cfg w
                (Nat.le_refl _)) as H.
  unfold bind.
  destruct (parse_args_loop (tail argv) cfg w) as [[[cfg'|]|status] w'];
    cbn [fst snd ret] in H |- *; [|exact H..].
  destruct H as [-> Hlist].
  destruct (string_empty (input cfg')) eqn:E; cbn [fst snd ret].
  - now left.
  - repeat split; [|exact Hlist]. intros E'. now rewrite E' in E.
Qed.

Lemma classify_arg_flag (arg : string) (cfg : Config)
    (update : Config -> Config) :
  classify_arg arg false cfg = ArgFlag update ->
  classify_arg arg true cfg = ArgFlag update.
Proof.
  unfold classify_arg. rewrite !andb_false_r, !andb_true_r.
  destruct (String.eqb arg "--help" || String.eqb arg "-h"); [discriminate|].
  destruct (String.eqb_spec arg "--ports") as [->|_]; [discriminate|].
  destruct (String.eqb_spec arg "--rate") as [->|_]; [discriminate|].
  destruct (String.eqb arg "--no-download"); [trivial|].
  destruct (String.eqb_spec arg "--output") as [->|_]; [discriminate|].
  destruct (String.eqb arg "--list"); [trivial|].
  destruct (String.eqb_spec arg "--country") as [->|_]; [discriminate|].
  trivial.
Qed.

Lemma classify_arg_input (arg : string) (cfg : Config) :
  classify_arg arg false cfg = ArgInput ->
  classify_arg arg true cfg = ArgInput.
Proof.
  unfold classify_arg. rewrite !andb_false_r, !andb_true_r.
  destruct (String.eqb arg "--help" || String.eqb arg "-h"); [discriminate|].
  destruct (String.eqb_spec arg "--ports") as [->|_]; [discriminate|].
  destruct (String.eqb_spec arg "--rate") as [->|_]; [discriminate|].
  destruct (String.eqb arg "--no-download"); [trivial|].
  destruct (String.eqb_spec arg "--output") as [->|_]; [discriminate|].
  destruct (String.eqb arg "--list"); [trivial|].
  destruct (String.eqb_spec arg "--country") as [->|_]; [discriminate|].
  trivial.
Qed.

Lemma parse_args_loop_app (n : nat) :
  forall (args rest : list string) (cfg cfg1 : Config) (w w1 : world),
    length args <= n ->
    parse_args_loop args cfg w = (Value (Some cfg1), w1) ->
    parse_args_loop (args ++ rest) cfg w = parse_args_loop rest cfg1 w1.
Proof.
  induction n as [|n IH]; intros args rest cfg cfg1 w w1 Hlen Hargs.
  { destruct args; [|cbn [length] in Hlen; lia].
    cbn in Hargs. now injection Hargs as -> ->. }
  destruct args as [|arg args]; [cbn in Hargs; now injection Hargs as -> ->|].
  cbn [length] in Hlen. rewrite parse_args_loop_cons in Hargs.
  cbn [app]. rewrite parse_args_loop_cons.
  destruct args as [|value args'].
  - cbn [app].
    destruct (classify_arg arg false cfg) as [|update|update| | |] eqn:E;
      try discriminate Hargs.
    + injection Hargs as <- <-. apply classify_arg_flag in E.
      destruct rest as [|value rest']; [reflexivity|]. now rewrite E.
    + injection Hargs as <- <-. apply classify_arg_input in E.
      destruct rest as [|value rest']; [reflexivity|]. now rewrite E.
  - cbn [app length] in *.
    destruct (classify_arg arg true cfg) as [|update|update| | |];
      try discriminate Hargs.
    + apply IH; [lia|exact Hargs].
    + apply (IH (value :: args')); [cbn [length]; lia|exact Hargs].
    + apply (IH (value :: args')); [cbn [length]; lia|exact Hargs].
Qed.

Lemma classify_arg_dangling (opt : string) (cfg : Config) :
  takes_value opt = true -> classify_arg opt false cfg = ArgUnknown.
Proof.
  unfold takes_value. intros H.
  repeat (apply orb_prop in H as [H|H]);
    apply String.eqb_eq in H; subst opt; reflexivity.
Qed.

(** X14: [parse_args] reads its arguments from left to right: when a list
    of arguments is accepted on its own, the same list followed by further
    arguments is handled as the further arguments are, starting from the
    configuration reached. An option that takes a value and stands last
    after accepted arguments is reported as an unknown option. *)
Theorem parse_args_loop_sequence
    (args : list string) (cfg cfg1 : Config) (w w1 : world) :
  parse_args_loop args cfg w = (Value (Some cfg1), w1) ->
  (forall rest,
      parse_args_loop (args ++ rest) cfg w = parse_args_loop rest cfg1 w1)
  /\ (forall opt,
         takes_value opt = true ->
         parse_args_loop (args ++ [opt]) cfg w
         = (Value None, log (Stderr ("Unknown option: " +:+ opt)) w)).
Proof.
  intros Hargs. split.
  - intros rest. now apply (parse_args_loop_app (length args)).
  - intros opt Hopt.
    rewrite (parse_args_loop_app (length args) args [opt] cfg cfg1 w w1
               (Nat.le_refl _) Hargs).
    pose proof (parse_args_loop_outcome (length args) args cfg w
                  (Nat.le_refl _)) as H.
    rewrite Hargs in H. cbn [fst snd] in H. destruct H as [-> _].
    rewrite parse_args_loop_cons, (classify_arg_dangling opt cfg1 Hopt).
    reflexivity.
Qed.

(** A target and a rate, then a rate option with no value. *)
Lemma parse_args_loop_sequence_witness :
  parse_args_loop (["10.0.0.1"; "--rate"; "5"] ++ ["--rate"]) default_config
    world_bare
  = (Value None, log (Stderr "Unknown option: --rate") world_bare).
Proof.
  exact (proj2 (parse_args_loop_sequence ["10.0.0.1"; "--rate"; "5"]
                  default_config
                  (set_rate "5" (set_input "10.0.0.1" default_config))
                  world_bare world_bare eq_refl)
           "--rate" eq_refl).
Defined.

(** ** The lookup of a tool *)

Lemma same_store_refl (w : world) : same_store w w.
Proof. now repeat split. Qed.

Lemma present_same_store (w w' : world) (p : string) :
  same_store w w' -> present w' p = present w p.
Proof.
  intros (Hf & Hd & _ & _ & Hn & _). unfold present, resolve.
  now rewrite Hf, Hd, Hn.
Qed.

Lemma stops_at_cons (w : world) (name dir0 dir : string) (todo : list string) :
  skipped w name dir0 -> stops_at w name todo dir ->
  stops_at w name (dir0 :: todo) dir.
Proof.
  intros H0 (before & after & -> & Hb & Hd).
  exists (dir0 :: before), after. repeat split; [|exact Hd].
  now constructor.
Qed.

Lemma find_in_dirs_first (name : string) (todo : list string) :
  forall w,
    same_store w (snd (find_in_dirs todo name w))
    /\ match fst (find_in_dirs todo name w) with
       | Value (Some p) =>
           exists dir,
             stops_at w name todo dir
             /\ p = path_join dir name
             /\ status_fails w p = false
             /\ present w p = true
       | Value None => Forall (skipped w name) todo
       | Stop status =>
           status = Aborted
           /\ exists dir,
               stops_at w name todo dir
               /\ status_fails w (path_join dir name) = true
       end.
Proof.
  induction todo as [|dir todo IH]; intros w; cbn [find_in_dirs].
  { split; [apply same_store_refl|constructor]. }
  destruct (string_empty dir) eqn:Hdir.
  - destruct dir; [|discriminate]. destruct (IH w) as [Hs H].
    split; [exact Hs|].
    assert (skipped w name EmptyString) as Hskip by now left.
    destruct (fst (find_in_dirs todo name w)) as [[p|]|status].
    + destruct H as (d & Hd & H). exists d.
      split; [now apply stops_at_cons|exact H].
    + now constructor.
    + destruct H as (-> & d & Hd & H). split; [reflexivity|]. exists d.
      split; [now apply stops_at_cons|exact H].
  - assert (dir <> EmptyString) as Hne by (intros ->; discriminate).
    unfold bind, fs_exists.
    destruct (status_fails w (path_join dir name)) eqn:Hfail.
    { cbn [fst snd]. split; [now repeat split|]. split; [reflexivity|].
      exists dir. split; [|exact Hfail]. exists [], todo. now repeat split. }
    destruct (present w (path_join dir name)) eqn:Hpres.
    + cbn [ret fst snd]. split; [now repeat split|].
      exists dir. split; [|now repeat split].
      exists [], todo. now repeat split.
    + destruct (IH (log (Exists (path_join dir name)) w)) as [Hs H].
      split; [exact Hs|].
      assert (skipped w name dir) as Hskip by (right; now split).
      destruct (fst (find_in_dirs todo name
                       (log (Exists (path_join dir name)) w)))
        as [[p|]|status].
      * destruct H as (d & Hd & H). exists d.
        split; [now apply (stops_at_cons w)|exact H].
      * now constructor.
      * destruct H as (-> & d & Hd & H). split; [reflexivity|]. exists d.
        split; [now apply (stops_at_cons w)|exact H].
Qed.

(** X15: [find_in_path] changes no file or directory. The path it returns
    is the name joined to the first non-empty directory of the PATH under
    which the name exists: every directory before it is empty or has no
    such entry. Without a PATH, or when every directory is passed over, it
    returns nothing. It ends the process only through the exception of the
    existence test, at the first candidate whose status cannot be
    queried. *)
Theorem find_in_path_first (name : string) (w : world) :
  same_store w (snd (find_in_path name w))
  /\ match fst (find_in_path name w) with
     | Value (Some p) =>
         exists paths dir,
           env_path w = Some paths
           /\ stops_at w name (getline_all ":" paths) dir
           /\ p = path_join dir name
           /\ status_fails w p = false
           /\ present w p = true
     | Value None =>
         env_path w = None
         \/ exists paths,
             env_path w = Some paths
             /\ Forall (skipped w name) (getline_all ":" paths)
     | Stop status =>
         status = Aborted
         /\ exists paths dir,
             env_path w = Some paths
             /\ stops_at w name (getline_all ":" paths) dir
             /\ status_fails w (path_join dir name) = true
     end.
Proof.
  unfold find_in_path, bind, emit. cbn [env_path log].
  destruct (env_path w) as [paths|] eqn:Henv.
  - destruct (find_in_dirs_first name (getline_all ":" paths)
                (log (GetEnv "PATH") w)) as [Hs H].
    split; [exact Hs|].
    destruct (fst (find_in_dirs (getline_all ":" paths) name
                     (log (GetEnv "PATH") w))) as [[p|]|status].
    + destruct H as (dir & H). now exists paths, dir.
    + right. now exists paths.
    + destruct H as (-> & dir & H). split; [reflexivity|].
      now exists paths, dir.
  - split; [now repeat split|now left].
Qed.

Lemma find_in_path_present (name : string) (w : world) :
  same_store w (snd (find_in_path name w))
  /\ match fst (find_in_path name w) with
     | Value (Some p) => present w p = true
     | Value None => True
     | Stop status => status = Aborted
     end.
Proof.
  unfold find_in_path, bind, emit. cbn [env_path log].
  destruct (env_path w) as [paths|].
  - destruct (find_in_dirs_first name (getline_all ":" paths)
                (log (GetEnv "PATH") w)) as [Hs H].
    split; [exact Hs|].
    destruct (fst (find_in_dirs (getline_all ":" paths) name
                     (log (GetEnv "PATH") w))) as [[p|]|status];
      [|exact I|now destruct H].
    now destruct H as (_ & _ & _ & _ & H).
  - split; [now repeat split|exact I].
Qed.

Lemma ensure_masscan_no_download
    (system_call : string -> world -> Z * world) (base_dir : string)
    (w : world) :
  ensure_masscan system_call base_dir true w
  = let local_bin := path_join (path_join base_dir "bin") "masscan" in
    match find_in_path "masscan" w with
    | (Value (Some p), w1) => (Value (Some p), w1)
    | (Value None, w1) =>
        if status_fails w1 local_bin
        then (Stop Aborted, log (Exists local_bin) w1)
        else if present w1 local_bin
        then (Value (Some local_bin), log (Exists local_bin) w1)
        else (Value None,
              log (Stderr "masscan not found and downloads disabled.")
                (log (Exists local_bin) w1))
    | (Stop status, w1) => (Stop status, w1)
    end.
Proof.
  unfold ensure_masscan, bind. cbn zeta.
  destruct (find_in_path "masscan" w) as [[[p|]|status] w1]; try reflexivity.
  unfold fs_exists. destruct (status_fails w1 _); [reflexivity|].
  now destruct (present w1 _).
Qed.

Lemma ensure_zgrab2_no_download
    (system_call : string -> world -> Z * world) (base_dir : string)
    (w : world) :
  ensure_zgrab2 system_call base_dir true w
  = let local_bin := path_join (path_join base_dir "bin") "zgrab2" in
    match find_in_path "zgrab2" w with
    | (Value (Some p), w1) => (Value (Some p), w1)
    | (Value None, w1) =>
        if status_fails w1 local_bin
        then (Stop Aborted, log (Exists local_bin) w1)
        else if present w1 local_bin
        then (Value (Some local_bin), log (Exists local_bin) w1)
        else (Value None,
              log (Stderr "zgrab2 not found and downloads disabled.")
                (log (Exists local_bin) w1))
    | (Stop status, w1) => (Stop status, w1)
    end.
Proof.
  unfold ensure_zgrab2, bind. cbn zeta.
  destruct (find_in_path "zgrab2" w) as [[[p|]|status] w1]; try reflexivity.
  unfold fs_exists. destruct (status_fails w1 _); [reflexivity|].
  now destruct (present w1 _).
Qed.

(** X16: with downloads disabled, [ensure_masscan] and [ensure_zgrab2] run
    no command (their result does not depend on what the shell does) and
    change no file or directory; the path they return exists, when they
    return nothing their last message says that the tool was not found and
    downloads are disabled, and they end the process only through the
    exception of an existence test. *)
Theorem ensure_tools_no_download
    (system_call system_call' : string -> world -> Z * world)
    (base_dir : string) (w : world) :
  (ensure_masscan system_call base_dir true w
   = ensure_masscan system_call' base_dir true w
   /\ same_store w (snd (ensure_masscan system_call base_dir true w))
   /\ match fst (ensure_masscan system_call base_dir true w) with
      | Value (Some p) => present w p = true
      | Value None =>
          last (trace (snd (ensure_masscan system_call base_dir true w)))
          = Some (Stderr "masscan not found and downloads disabled.")
      | Stop status => status = Aborted
      end)
  /\ (ensure_zgrab2 system_call base_dir true w
      = ensure_zgrab2 system_call' base_dir true w
      /\ same_store w (snd (ensure_zgrab2 system_call base_dir true w))
      /\ match fst (ensure_zgrab2 system_call base_dir true w) with
         | Value (Some p) => present w p = true
         | Value None =>
             last (trace (snd (ensure_zgrab2 system_call base_dir true w)))
             = Some (Stderr "zgrab2 not found and downloads disabled.")
         | Stop status => status = Aborted
         end).
Proof.
  split.
  - rewrite !ensure_masscan_no_download.
    destruct (find_in_path_present "masscan" w) as [Hs H].
    destruct (find_in_path "masscan" w) as [[[p|]|status] w1];
      cbn [fst snd] in *;
      [split; [reflexivity|split; assumption]|
      |split; [reflexivity|split; assumption]].
    destruct (status_fails w1 _); cbn [fst snd];
      [split; [reflexivity|split; [exact Hs|reflexivity]]|].
    rewrite (present_same_store w w1 _ Hs).
    destruct (present w (path_join (path_join base_dir "bin") "masscan"))
      eqn:Hbin; cbn [fst snd].
    + split; [reflexivity|split; assumption].
    + split; [reflexivity|]. split; [exact Hs|].
      cbn [trace log]. apply last_snoc.
  - rewrite !ensure_zgrab2_no_download.
    destruct (find_in_path_present "zgrab2" w) as [Hs H].
    destruct (find_in_path "zgrab2" w) as [[[p|]|status] w1];
      cbn [fst snd] in *;
      [split; [reflexivity|split; assumption]|
      |split; [reflexivity|split; assumption]].
    destruct (status_fails w1 _); cbn [fst snd];
      [split; [reflexivity|split; [exact Hs|reflexivity]]|].
    rewrite (present_same_store w w1 _ Hs).
    destruct (present w (path_join (path_join base_dir "bin") "zgrab2"))
      eqn:Hbin; cbn [fst snd].
    + split; [reflexivity|split; assumption].
    + split; [reflexivity|]. split; [exact Hs|].
      cbn [trace log]. apply last_snoc.
Qed.

(** ** The list file of a run *)

Lemma write_single_input_list_eval (w : world) (list_path input : string) :
  can_write w list_path = true ->
  write_single_input_list list_path input w
  = (true,
     set_files (<[resolve w list_path := input +:+ newline]> (files w))
       (log (OpenWrite list_path) w)).
Proof.
  intros H. unfold write_single_input_list.
  rewrite ofstream_open_can_write, H.
  rewrite (ofstream_write_some _ _ EmptyString)
    by (cbn [files set_files]; apply lookup_insert_eq).
  cbn [files set_files String.append]. now rewrite insert_insert_eq.
Qed.

(** X17: without the list option and without a country filter, an input
    whose status can be queried and that is not an existing .json file is
    taken as the target itself: the list file is left holding the input
    string and a newline, also when the input names an existing file,
    whose contents are not read. An input whose status cannot be queried
    ends the process through the exception of the existence test, with no
    file changed. *)
Theorem prepare_list_single_target (cfg : Config) (base_dir : string)
    (w : world) :
  (list_mode cfg = false ->
   country_filter cfg = EmptyString ->
   status_fails w (input cfg) = false ->
   present w (input cfg) = false \/ extension (input cfg) <> ".json" ->
   can_write w (path_join base_dir (list_file cfg)) = true ->
   fst (prepare_list cfg base_dir w) = Value true
   /\ files (snd (prepare_list cfg base_dir w))
      = <[resolve w (path_join base_dir (list_file cfg))
          := input cfg +:+ newline]> (files w))
  /\ (status_fails w (input cfg) = true ->
      prepare_list cfg base_dir w
      = (Stop Aborted, log (Exists (input cfg)) w)).
Proof.
  split.
  2:{ intros Hfail. unfold prepare_list, bind, fs_exists. now rewrite Hfail. }
  intros Hmode Hfilter Hstatus Hinput Hwrite.
  unfold prepare_list, bind, fs_exists, call. rewrite Hmode, Hfilter, Hstatus.
  cbn [string_empty negb].
  assert (write_single_input_list (path_join base_dir (list_file cfg))
            (input cfg) (log (Exists (input cfg)) w)
          = (true,
             set_files (<[resolve w (path_join base_dir (list_file cfg))
                          := input cfg +:+ newline]> (files w))
               (log (OpenWrite (path_join base_dir (list_file cfg)))
                  (log (Exists (input cfg)) w)))) as Hlist
    by exact (write_single_input_list_eval (log (Exists (input cfg)) w)
                _ _ Hwrite).
  destruct (present w (input cfg)) eqn:Hpres.
  - destruct Hinput as [|Hext]; [discriminate|].
    destruct (String.eqb_spec (extension (input cfg)) ".json");
      [contradiction|].
    rewrite Hlist. now split.
  - rewrite Hlist. now split.
Qed.

(** The name of an existing file of targets, given without the list
    option, becomes the one line of the list. *)
Lemma prepare_list_single_target_witness :
  fst (prepare_list cfg_targets "/w" world_targets) = Value true
  /\ files (snd (prepare_list cfg_targets "/w" world_targets))
     = <[resolve world_targets (path_join "/w" (list_file cfg_targets))
         := input cfg_targets +:+ newline]> (files world_targets).
Proof.
  apply (proj1 (prepare_list_single_target cfg_targets "/w" world_targets)).
  - reflexivity.
  - reflexivity.
  - vm_compute. reflexivity.
  - right. vm_compute. discriminate.
  - vm_compute. reflexivity.
Defined.

(** X18: with the list option, no country filter and an input file that
    is not a .json file, the status of the input and of the list file
    being open to queries: when the input names the list file itself
    nothing is written; otherwise the contents of the input replace those
    of the list file, and the process is aborted by the uncaught exception
    of the copy when the list file cannot be written. When the input does
    not exist the process exits with status 1 and no file is changed. *)
Theorem prepare_list_list_mode (cfg : Config) (base_dir : string) (w : world) :
  list_mode cfg = true ->
  status_fails w (input cfg) = false ->
  let list_path := path_join base_dir (list_file cfg) in
  let r := prepare_list cfg base_dir w in
  (forall content,
      files w !! resolve w (input cfg) = Some content ->
      extension (input cfg) <> ".json" ->
      country_filter cfg = EmptyString ->
      status_fails w list_path = false ->
      (resolve w (input cfg) = resolve w list_path ->
       fst r = Value true /\ files (snd r) = files w)
      /\ (resolve w (input cfg) <> resolve w list_path ->
          can_write w list_path = true ->
          fst r = Value true
          /\ files (snd r) = <[resolve w list_path := content]> (files w))
      /\ (resolve w (input cfg) <> resolve w list_path ->
          can_write w list_path = false ->
          fst r = Stop Aborted /\ files (snd r) = files w))
  /\ (present w (input cfg) = false ->
      fst r = Stop (Exited 1) /\ files (snd r) = files w
      /\ last (trace (snd r)) = Some (Stderr (list_error (input cfg)))).
Proof.
  intros Hmode Hstatus. cbn zeta. split.
  - intros content Hin Hext Hfilter Hlist.
    assert (present w (input cfg) = true) as Hpres.
    { unfold present. rewrite Hin. now rewrite bool_decide_eq_true_2. }
    unfold prepare_list, bind, fs_exists.
    rewrite Hstatus, Hpres, Hmode, Hfilter.
    destruct (String.eqb_spec (extension (input cfg)) ".json");
      [contradiction|].
    cbn [string_empty negb]. unfold fs_equivalent.
    change (status_fails (log ?e w) ?p) with (status_fails w p).
    change (present (log ?e w) ?p) with (present w p).
    change (resolve (log ?e w) ?p) with (resolve w p).
    rewrite Hstatus, Hlist, Hpres. cbn [orb andb negb].
    assert (forall e,
               copy_file (input cfg) (path_join base_dir (list_file cfg))
                 (log e (log (Exists (input cfg)) w))
               = if bool_decide
                      (resolve w (input cfg)
                       = resolve w (path_join base_dir (list_file cfg)))
                    || negb (can_write w (path_join base_dir (list_file cfg)))
                 then (Stop Aborted,
                       log (CopyFile (input cfg)
                              (path_join base_dir (list_file cfg)))
                         (log e (log (Exists (input cfg)) w)))
                 else (Value tt,
                       set_files
                         (<[resolve w (path_join base_dir (list_file cfg))
                            := content]> (files w))
                         (log (CopyFile (input cfg)
                                 (path_join base_dir (list_file cfg)))
                            (log e (log (Exists (input cfg)) w)))))
      as Hcopy.
    { intros e. unfold copy_file.
      change (files (log e (log (Exists (input cfg)) w))) with (files w).
      change (resolve (log e (log (Exists (input cfg)) w)) ?p)
        with (resolve w p).
      change (can_write (log e (log (Exists (input cfg)) w)) ?p)
        with (can_write w p).
      now rewrite Hin. }
    split; [|split].
    + intros Hsame.
      assert (present w (path_join base_dir (list_file cfg)) = true) as ->.
      { unfold present. rewrite <- Hsame, Hin.
        now rewrite bool_decide_eq_true_2. }
      rewrite bool_decide_eq_true_2 by exact Hsame. now split.
    + intros Hdiff Hwrite.
      destruct (present w (path_join base_dir (list_file cfg)));
        cbn [negb]; rewrite ?(bool_decide_eq_false_2 _ Hdiff);
        rewrite Hcopy, Hwrite, (bool_decide_eq_false_2 _ Hdiff); now split.
    + intros Hdiff Hwrite.
      destruct (present w (path_join base_dir (list_file cfg)));
        cbn [negb]; rewrite ?(bool_decide_eq_false_2 _ Hdiff);
        rewrite Hcopy, Hwrite, (bool_decide_eq_false_2 _ Hdiff); now split.
  - intros Hpres. unfold prepare_list, bind, fs_exists.
    rewrite Hstatus, Hpres, Hmode.
    cbn [fst snd emit exit_with files trace log].
    repeat split. apply last_snoc.
Qed.

(** A list of targets that is not the list file is copied over it. *)
Lemma prepare_list_list_mode_witness :
  fst (prepare_list (set_list_mode cfg_targets) "/w" world_targets)
  = Value true
  /\ files (snd (prepare_list (set_list_mode cfg_targets) "/w" world_targets))
     = <[resolve world_targets
           (path_join "/w" (list_file (set_list_mode cfg_targets)))
         := "10.0.0.0/24" +:+ newline]> (files world_targets).
Proof.
  assert (status_fails world_targets (input (set_list_mode cfg_targets))
          = false) as Hstatus by (vm_compute; reflexivity).
  apply (proj1 (prepare_list_list_mode (set_list_mode cfg_targets) "/w"
                  world_targets eq_refl Hstatus)
           ("10.0.0.0/24" +:+ newline)).
  - vm_compute. reflexivity.
  - vm_compute. discriminate.
  - reflexivity.
  - vm_compute. reflexivity.
  - vm_compute. discriminate.
  - vm_compute. reflexivity.
Defined.

(** ** The grabber runs *)

(** X19: [grab_port] does not run the grabber when the file of open
    addresses is empty; it goes on, whatever the grabber command does and
    returns, when the file is not empty; and the process is aborted by the
    uncaught exception of the size query when the file does not exist. *)
Theorem grab_port_outcome (system_call : string -> world -> Z * world)
    (zgrab2 port open_ips zgrab_out : string) (w : world) :
  let r := grab_port system_call zgrab2 port open_ips zgrab_out w in
  (files w !! resolve w open_ips = Some EmptyString ->
   r = (Value tt, log (FileSize open_ips) w))
  /\ (forall content,
         files w !! resolve w open_ips = Some content ->
         content <> EmptyString ->
         fst r = Value tt)
  /\ (files w !! resolve w open_ips = None ->
      r = (Stop Aborted, log (FileSize open_ips) w)).
Proof.
  cbn zeta. unfold grab_port, bind, file_size. split; [|split].
  - intros ->. reflexivity.
  - intros content -> Hne. destruct content as [|c content]; [contradiction|].
    cbn [String.length Nat.ltb Nat.leb]. unfold run_command, bind, emit.
    destruct (system_call _ _) as [status w']. now destruct (status =? 0)%Z.
  - intros ->. reflexivity.
Qed.

(** A grabber that fails on a file of one address. *)
Lemma grab_port_outcome_witness :
  fst (grab_port no_shell "zgrab2" "80" "targets.txt" "zgrab_results_80.json"
         world_targets) = Value tt.
Proof.
  apply (proj1 (proj2 (grab_port_outcome no_shell "zgrab2" "80" "targets.txt"
                         "zgrab_results_80.json" world_targets))
           ("10.0.0.0/24" +:+ newline)).
  - vm_compute. reflexivity.
  - discriminate.
Defined.

(** ** How main ends *)

Lemma diagnosed_value {A : Type} (c : prog A) :
  (forall w, exists a w', c w = (Value a, w')) -> diagnosed c.
Proof. intros H w. destruct (H w) as (a & w' & ->). exact I. Qed.

Lemma diagnosed_ret {A : Type} (a : A) : diagnosed (ret a).
Proof. intros w. exact I. Qed.

Lemma diagnosed_emit (e : event) : diagnosed (emit e).
Proof. intros w. exact I. Qed.

Lemma diagnosed_call {A : Type} (f : world -> A * world) : diagnosed (call f).
Proof. intros w. unfold call. now destruct (f w). Qed.

Lemma diagnosed_bind {A B : Type} (c : prog A) (k : A -> prog B) :
  diagnosed c -> (forall a, diagnosed (k a)) -> diagnosed (bind c k).
Proof.
  intros Hc Hk w. unfold bind. specialize (Hc w).
  destruct (c w) as [[a|status] w1]; [apply Hk|exact Hc].
Qed.

Lemma diagnosed_fail {A : Type} (msg : string) :
  diagnosed (let* _ := emit (Stderr msg) in @exit_with A 1).
Proof.
  intros w. right. split; [reflexivity|]. right. exists msg.
  cbn [snd bind emit exit_with trace log]. apply last_snoc.
Qed.

Lemma diagnosed_success {A : Type} :
  diagnosed (let* _ := emit (Stdout "Success") in @exit_with A 0).
Proof.
  intros w. left. split; [reflexivity|].
  cbn [snd bind emit exit_with trace log]. apply last_snoc.
Qed.

Lemma diagnosed_fs_exists (p : string) : diagnosed (fs_exists p).
Proof.
  intros w. unfold reported, fs_exists. now destruct (status_fails w p).
Qed.

Lemma diagnosed_create_directories (p : string) :
  diagnosed (create_directories p).
Proof.
  intros w. unfold reported, create_directories. cbn zeta.
  now destruct (status_fails _ _ || _ || _).
Qed.

Lemma diagnosed_fs_equivalent (p1 p2 : string) :
  diagnosed (fs_equivalent p1 p2).
Proof.
  intros w. unfold reported, fs_equivalent.
  destruct (status_fails w p1 || status_fails w p2); [exact I|].
  destruct (present w p1 && present w p2); [exact I|].
  now destruct (negb (present w p1) && negb (present w p2)).
Qed.

Lemma diagnosed_istreambuf_read (f : string) : diagnosed (istreambuf_read f).
Proof.
  intros w. unfold reported, istreambuf_read. now destruct (files w !! f).
Qed.

Lemma diagnosed_search_value (line : string) (key : regex) :
  diagnosed (search_value line key).
Proof.
  intros w. unfold reported, search_value.
  now destruct (extract_json_string_value (stack w) line key).
Qed.

Lemma diagnosed_copy_file (source target : string) :
  diagnosed (copy_file source target).
Proof.
  intros w. unfold reported, copy_file.
  destruct (files w !! resolve w source); [|exact I]. now destruct (_ || _).
Qed.

Lemma diagnosed_file_size (p : string) : diagnosed (file_size p).
Proof.
  intros w. unfold reported, file_size.
  now destruct (files w !! resolve w p).
Qed.

Lemma diagnosed_run_command (system_call : string -> world -> Z * world)
    (cmd : string) :
  diagnosed (run_command system_call cmd).
Proof.
  intros w. unfold reported, run_command, bind, emit.
  now destruct (system_call _ _).
Qed.

Lemma diagnosed_find_in_path (name : string) : diagnosed (find_in_path name).
Proof.
  intros w. unfold reported. destruct (find_in_path_present name w) as [_ H].
  destruct (fst (find_in_path name w)) as [|status]; [exact I|].
  now subst status.
Qed.

Create HintDb diagnosed.

#[local] Hint Resolve diagnosed_ret diagnosed_emit diagnosed_call
  diagnosed_fs_exists diagnosed_create_directories diagnosed_fs_equivalent
  diagnosed_copy_file diagnosed_file_size diagnosed_run_command
  diagnosed_find_in_path diagnosed_success diagnosed_istreambuf_read
  diagnosed_search_value : diagnosed.

Ltac diagnosed_step :=
  match goal with
  | |- diagnosed (bind (emit (Stderr _)) (fun _ => exit_with 1)) =>
      apply diagnosed_fail
  | |- diagnosed (bind (emit (Stdout _)) (fun _ => exit_with 0)) =>
      apply diagnosed_success
  | |- diagnosed (bind _ _) => apply diagnosed_bind; [|intros ?]
  | |- diagnosed (if ?b then _ else _) => destruct b
  | |- diagnosed (match ?o with Some _ => _ | None => _ end) => destruct o
  | |- diagnosed _ => solve [auto with diagnosed]
  end.

Lemma diagnosed_ensure_masscan (system_call : string -> world -> Z * world)
    (base_dir : string) (no_download : bool) :
  diagnosed (ensure_masscan system_call base_dir no_download).
Proof. unfold ensure_masscan. repeat diagnosed_step. Qed.

Lemma diagnosed_ensure_zgrab2 (system_call : string -> world -> Z * world)
    (base_dir : string) (no_download : bool) :
  diagnosed (ensure_zgrab2 system_call base_dir no_download).
Proof. unfold ensure_zgrab2. repeat diagnosed_step. Qed.

Lemma diagnosed_acquire_tools (system_call : string -> world -> Z * world)
    (cfg : Config) :
  diagnosed (acquire_tools system_call cfg).
Proof.
  unfold acquire_tools.
  apply diagnosed_bind; [intros w; exact I | intros base_dir].
  repeat first
    [ apply diagnosed_ensure_masscan | apply diagnosed_ensure_zgrab2
    | diagnosed_step ].
Qed.

Lemma diagnosed_build_list_from_asn_json
    (json_path list_path country_filter : string) :
  diagnosed (build_list_from_asn_json json_path list_path country_filter).
Proof. unfold build_list_from_asn_json. repeat diagnosed_step. Qed.

Lemma diagnosed_emit_titles (lines : list string) (out : option string) :
  diagnosed (emit_titles lines out).
Proof.
  induction lines as [|line lines IH]; cbn [emit_titles];
    repeat first [exact IH | diagnosed_step].
Qed.

Lemma diagnosed_parse_zgrab_titles (zgrab_file : string)
    (out : option string) :
  diagnosed (parse_zgrab_titles zgrab_file out).
Proof.
  unfold parse_zgrab_titles.
  apply diagnosed_bind; [apply diagnosed_call|intros [f|]].
  - apply diagnosed_bind; [intros w; exact I|intros lines].
    apply diagnosed_bind; [apply diagnosed_emit_titles|intros _].
    apply diagnosed_ret.
  - repeat diagnosed_step.
Qed.

Lemma diagnosed_prepare_list (cfg : Config) (base_dir : string) :
  diagnosed (prepare_list cfg base_dir).
Proof.
  unfold prepare_list.
  repeat first [apply diagnosed_build_list_from_asn_json | diagnosed_step].
Qed.

Lemma diagnosed_grab_port (system_call : string -> world -> Z * world)
    (zgrab2 port open_ips zgrab_out : string) :
  diagnosed (grab_port system_call zgrab2 port open_ips zgrab_out).
Proof. unfold grab_port. repeat diagnosed_step. Qed.

(** The splitter has printed a diagnostic when it returns false. *)
Lemma parse_masscan_results_false (masscan_file out80 out443 : string)
    (w : world) :
  fst (parse_masscan_results masscan_file out80 out443 w) = false ->
  exists msg,
    last (trace (snd (parse_masscan_results masscan_file out80 out443 w)))
    = Some (Stderr msg).
Proof.
  unfold parse_masscan_results.
  destruct (ifstream_open masscan_file w) as [[f|] w1].
  - destruct (ofstream_open out80 w1) as [[f80|] w2];
      destruct (ofstream_open out443 w2) as [[f443|] w3];
      try (intros _; eexists; cbn [snd trace log]; apply last_snoc).
    destruct (split_hits _ _ _ _ _ _) as [[count_80 count_443] w4].
    discriminate.
  - intros _. eexists. cbn [snd trace log]. apply last_snoc.
Qed.

Lemma diagnosed_split {A : Type} (masscan_file out80 out443 : string)
    (k : prog A) :
  diagnosed k ->
  diagnosed
    (let* split := call (parse_masscan_results masscan_file out80 out443) in
     if negb split then exit_with 1 else k).
Proof.
  intros Hk w. unfold bind, call.
  pose proof (parse_masscan_results_false masscan_file out80 out443 w) as H.
  destruct (parse_masscan_results masscan_file out80 out443 w) as [[|] w1];
    cbn [negb fst snd] in *; [apply Hk|].
  destruct (H eq_refl) as [msg Hmsg]. right. split; [reflexivity|].
  right. now exists msg.
Qed.

Lemma diagnosed_scan_and_report (system_call : string -> world -> Z * world)
    (cfg : Config) (base_dir masscan zgrab2 : string) :
  diagnosed (scan_and_report system_call cfg base_dir masscan zgrab2).
Proof.
  unfold scan_and_report. cbn zeta.
  apply diagnosed_bind; [apply diagnosed_run_command|intros scanned].
  destruct scanned; cbn [negb]; [|apply diagnosed_fail].
  apply diagnosed_split.
  repeat first [ apply diagnosed_grab_port | apply diagnosed_parse_zgrab_titles
               | diagnosed_step ].
Qed.

(** [parse_args] has printed the usage text or a diagnostic when it returns
    false, and it returns. *)
Lemma parse_args_rejects (argv : list string) (cfg : Config) (w : world) :
  match parse_args argv cfg w with
  | (Value None, w') =>
      last (trace w') = Some (Stdout usage)
      \/ exists msg, last (trace w') = Some (Stderr msg)
  | (Value (Some _), _) => True
  | (Stop _, _) => False
  end.
Proof.
  unfold parse_args. destruct (length argv <? 2).
  { left. cbn [bind print_usage emit ret trace log]. apply last_snoc. }
  pose proof (parse_args_loop_outcome (length (tail argv)) (tail argv) cfg w
                (Nat.le_refl _)) as H.
  unfold bind.
  destruct (parse_args_loop (tail argv) cfg w) as [[[cfg'|]|status] w'];
    cbn [fst snd ret] in H |- *; [| |exact H].
  - destruct (string_empty (input cfg')); [|exact I].
    left. cbn [print_usage emit ret trace log]. apply last_snoc.
  - destruct H as [->|[msg ->]]; [left|right; exists msg];
      cbn [trace log]; apply last_snoc.
Qed.

Lemma diagnosed_main (system_call : string -> world -> Z * world)
    (argv : list string) :
  diagnosed (main system_call argv).
Proof.
  intros w. unfold main, bind at 1.
  pose proof (parse_args_rejects argv default_config w) as H.
  destruct (parse_args argv default_config w) as [[[cfg|]|status] w1];
    [| |contradiction].
  - revert w1 H. intros w1 _. revert w1.
    change (diagnosed
              (let* tools := acquire_tools system_call cfg in
               let '(base_dir, masscan, zgrab2) := tools in
               let* list_ready := prepare_list cfg base_dir in
               if negb list_ready
               then
                 let* _ :=
                   emit (Stderr "Failed to prepare list file for masscan.") in
                 exit_with 1
               else scan_and_report system_call cfg base_dir masscan zgrab2)).
    apply diagnosed_bind; [apply diagnosed_acquire_tools|].
    intros [[base_dir masscan] zgrab2].
    apply diagnosed_bind; [apply diagnosed_prepare_list|].
    intros [|]; cbn [negb];
      [apply diagnosed_scan_and_report|apply diagnosed_fail].
  - right. split; [reflexivity|exact H].
Qed.

Lemma stops_exit_with {A : Type} (code : Z) : stops (@exit_with A code).
Proof. intros w. now eexists _, _. Qed.

Lemma stops_bind {A B : Type} (c : prog A) (k : A -> prog B) :
  (forall a, stops (k a)) -> stops (bind c k).
Proof.
  intros Hk w. unfold bind. destruct (c w) as [[a|status] w1].
  - apply Hk.
  - now eexists _, _.
Qed.

Ltac stops_step :=
  match goal with
  | |- stops (exit_with _) => apply stops_exit_with
  | |- stops (bind _ _) => apply stops_bind; intros ?
  | |- stops (if ?b then _ else _) => destruct b
  | |- stops (match ?o with Some _ => _ | None => _ end) => destruct o
  end.

Lemma stops_main (system_call : string -> world -> Z * world)
    (argv : list string) :
  stops (main system_call argv).
Proof.
  unfold main. apply stops_bind. intros [cfg|]; [|apply stops_exit_with].
  apply stops_bind. intros [[base_dir masscan] zgrab2].
  unfold scan_and_report. cbn zeta. repeat stops_step.
Qed.

(** X20: main always ends the process, whatever the shell commands do. It
    ends with status 0 only after printing Success as its last message,
    and with status 1 only after printing the usage text or a diagnostic
    on the error stream as its last message; no other status is returned.
    What is left is the termination by an uncaught exception and the kill
    of the process when the matcher outgrows the stack. *)
Theorem main_exit (system_call : string -> world -> Z * world)
    (argv : list string) (w : world) :
  match fst (main system_call argv w) with
  | Value _ => False
  | Stop Aborted => True
  | Stop Crashed => True
  | Stop (Exited code) =>
      (code = 0%Z
       /\ last (trace (snd (main system_call argv w)))
          = Some (Stdout "Success"))
      \/ (code = 1%Z
          /\ (last (trace (snd (main system_call argv w)))
              = Some (Stdout usage)
              \/ exists msg,
                  last (trace (snd (main system_call argv w)))
                  = Some (Stderr msg)))
  end.
Proof.
  pose proof (diagnosed_main system_call argv w) as H.
  destruct (stops_main system_call argv w) as (status & w' & E).
  unfold reported in H. rewrite E in *. cbn [fst snd] in *.
  now destruct status.
Qed.

(** ** The report of a successful run *)

Lemma bind_exit_0 {A B : Type} (c : prog A) (k : A -> prog B)
    (w w' : world) :
  no_success c ->
  bind c k w = (Stop (Exited 0), w') ->
  exists a w1, c w = (Value a, w1) /\ k a w1 = (Stop (Exited 0), w').
Proof.
  intros Hc. unfold bind. destruct (c w) as [[a|status] w1] eqn:E.
  - intros H. now exists a, w1.
  - intros H. injection H as -> ->. now destruct (Hc w w').
Qed.

Lemma no_success_call {A : Type} (f : world -> A * world) :
  no_success (call f).
Proof. intros w w' H. unfold call in H. now destruct (f w). Qed.

Lemma no_success_file_size (p : string) : no_success (file_size p).
Proof.
  intros w w' H. unfold file_size in H.
  now destruct (files w !! resolve w p).
Qed.

Lemma no_success_grab_port (system_call : string -> world -> Z * world)
    (zgrab2 port open_ips zgrab_out : string) :
  no_success (grab_port system_call zgrab2 port open_ips zgrab_out).
Proof.
  unfold grab_port.
  apply no_success_bind; [apply no_success_file_size|intros size].
  destruct (0 <? size); [|apply no_success_ret].
  apply no_success_bind; [apply no_success_run_command|intros ok].
  destruct ok; cbn [negb]; [apply no_success_ret|apply no_success_emit].
Qed.

Lemma preserves_ret {A : Type} (P : world -> Prop) (a : A) :
  preserves P (ret a).
Proof. intros w H. exact H. Qed.

Lemma preserves_bind {A B : Type} (P : world -> Prop) (c : prog A)
    (k : A -> prog B) :
  preserves P c -> (forall a, preserves P (k a)) -> preserves P (bind c k).
Proof.
  intros Hc Hk w H. unfold bind. specialize (Hc w H).
  destruct (c w) as [[a|status] w1]; cbn [snd] in *; [now apply Hk|exact Hc].
Qed.

Lemma preserves_search_value (P : world -> Prop) (line : string)
    (key : regex) :
  preserves P (search_value line key).
Proof.
  intros w H. unfold search_value.
  now destruct (extract_json_string_value (stack w) line key).
Qed.

Lemma sink_kept_write (f data : string) (n : string -> string) :
  preserves (sink_kept f n)
    (call (fun w => (tt, ofstream_write (Some f) data w))).
Proof.
  intros w [[c Hc] Hn]. unfold call. cbn [snd].
  rewrite (ofstream_write_some w f c data Hc). split; [|exact Hn].
  cbn [files set_files]. rewrite lookup_insert_eq. now eexists.
Qed.

(** The title extractor keeps its sink and the names of the files. *)
Lemma emit_titles_keeps (f : string) (n : string -> string)
    (lines : list string) :
  preserves (sink_kept f n) (emit_titles lines (Some f)).
Proof.
  induction lines as [|line lines IH]; cbn [emit_titles].
  - apply preserves_ret.
  - apply preserves_bind; [apply preserves_search_value|intros ip].
    apply preserves_bind; [apply preserves_search_value|intros body].
    destruct ip as [ip|]; [|exact IH].
    destruct body as [body|];
      (apply preserves_bind; [apply sink_kept_write|intros _; exact IH]).
Qed.

Lemma parse_zgrab_titles_keeps (f zgrab_file : string) (n : string -> string) :
  preserves (sink_kept f n) (parse_zgrab_titles zgrab_file (Some f)).
Proof.
  unfold parse_zgrab_titles.
  apply preserves_bind.
  { intros w H. unfold call. rewrite ifstream_open_eval. exact H. }
  intros [g|].
  - apply preserves_bind; [intros w H; exact H|intros lines].
    apply preserves_bind; [apply emit_titles_keeps|intros _].
    apply preserves_ret.
  - apply preserves_bind; [intros w H; exact H|intros _].
    apply preserves_ret.
Qed.

Lemma no_success_search_value (line : string) (key : regex) :
  no_success (search_value line key).
Proof.
  intros w w' H. unfold search_value in H.
  destruct (extract_json_string_value (stack w) line key); discriminate H.
Qed.

Lemma no_success_emit_titles (lines : list string) (out : option string) :
  no_success (emit_titles lines out).
Proof.
  induction lines as [|line lines IH]; cbn [emit_titles].
  - apply no_success_ret.
  - apply no_success_bind; [apply no_success_search_value|intros ip].
    apply no_success_bind; [apply no_success_search_value|intros body].
    destruct ip as [ip|]; [|exact IH].
    destruct body as [body|];
      (apply no_success_bind; [apply no_success_call|intros _; exact IH]).
Qed.

Lemma no_success_parse_zgrab_titles (zgrab_file : string)
    (out : option string) :
  no_success (parse_zgrab_titles zgrab_file out).
Proof.
  unfold parse_zgrab_titles.
  apply no_success_bind; [apply no_success_call|intros [g|]].
  - apply no_success_bind; [intros w w' H; discriminate H|intros lines].
    apply no_success_bind; [apply no_success_emit_titles|intros _].
    apply no_success_ret.
  - apply no_success_bind; [apply no_success_emit|intros _].
    apply no_success_ret.
Qed.

(** X21: when the scan, the split, the grabs and the report end the
    process with status 0, the report file exists, whatever the scanner
    and the grabber did and however many hosts were found. *)
Theorem scan_and_report_success (system_call : string -> world -> Z * world)
    (cfg : Config) (base_dir masscan zgrab2 : string) (w : world) :
  let r := scan_and_report system_call cfg base_dir masscan zgrab2 w in
  fst r = Stop (Exited 0) ->
  is_Some (files (snd r) !! resolve (snd r) (output_file cfg)).
Proof.
  cbn zeta. intros H.
  destruct (scan_and_report system_call cfg base_dir masscan zgrab2 w)
    as [status w'] eqn:E.
  cbn [fst snd] in *. subst status.
  unfold scan_and_report in E. cbn zeta in E.
  apply bind_exit_0 in E as (scanned & w1 & _ & E);
    [|apply no_success_run_command].
  destruct scanned; cbn [negb] in E; [|discriminate E].
  apply bind_exit_0 in E as (split & w2 & _ & E); [|apply no_success_call].
  destruct split; cbn [negb] in E; [|discriminate E].
  apply bind_exit_0 in E as ([] & w3 & _ & E); [|apply no_success_grab_port].
  apply bind_exit_0 in E as ([] & w4 & _ & E); [|apply no_success_grab_port].
  apply bind_exit_0 in E as (out & w5 & Hopen & E); [|apply no_success_call].
  unfold call in Hopen. rewrite ofstream_open_can_write in Hopen.
  destruct (can_write w4 (output_file cfg));
    injection Hopen as <- <-; [|discriminate E].
  set (f := resolve w4 (output_file cfg)) in *.
  assert (sink_kept f (names w4)
            (set_files (<[f := EmptyString]> (files w4))
               (log (OpenWrite (output_file cfg)) w4))) as Hkept.
  { split; [|reflexivity]. cbn [files set_files].
    rewrite lookup_insert_eq. now eexists. }
  revert Hkept E.
  generalize (set_files (<[f := EmptyString]> (files w4))
                (log (OpenWrite (output_file cfg)) w4)).
  intros w5 Hkept E.
  assert (forall zgrab_file (have : bool),
             preserves (sink_kept f (names w4))
               (if have then parse_zgrab_titles zgrab_file (Some f)
                else ret false)) as Hstep.
  { intros zgrab_file [|];
      [apply parse_zgrab_titles_keeps|apply preserves_ret]. }
  assert (forall zgrab_file (have : bool),
             no_success
               (if have then parse_zgrab_titles zgrab_file (Some f)
                else ret false)) as Hno.
  { intros zgrab_file [|];
      [apply no_success_parse_zgrab_titles|apply no_success_ret]. }
  apply bind_exit_0 in E as (have80 & w6 & Hex & E);
    [|apply no_success_fs_exists].
  assert (sink_kept f (names w4) w6) as Hkept6.
  { unfold fs_exists in Hex.
    destruct (status_fails w5 _); injection Hex as _ <-; exact Hkept. }
  apply bind_exit_0 in E as (b7 & w7 & Hrun & E); [|apply Hno].
  assert (sink_kept f (names w4) w7) as Hkept7.
  { pose proof (Hstep (path_join base_dir "zgrab_results_80.json") have80
                  w6 Hkept6) as H.
    now rewrite Hrun in H. }
  apply bind_exit_0 in E as (have443 & w8 & Hex8 & E);
    [|apply no_success_fs_exists].
  assert (sink_kept f (names w4) w8) as Hkept8.
  { unfold fs_exists in Hex8.
    destruct (status_fails w7 _); injection Hex8 as _ <-; exact Hkept7. }
  apply bind_exit_0 in E as (b9 & w9 & Hrun9 & E); [|apply Hno].
  assert (sink_kept f (names w4) w9) as [H9 Hn9].
  { pose proof (Hstep (path_join base_dir "zgrab_results_443.json") have443
                  w8 Hkept8) as H.
    now rewrite Hrun9 in H. }
  unfold bind, emit, exit_with in E. injection E as <-.
  unfold resolve. cbn [names files log]. rewrite Hn9. exact H9.
Qed.

(** A scan with one host on each port, with a shell whose commands all
    succeed. *)
Lemma scan_and_report_success_witness :
  is_Some
    (files (snd (scan_and_report ok_shell cfg_targets "/w" "masscan" "zgrab2"
                   world_scan))
     !! resolve (snd (scan_and_report ok_shell cfg_targets "/w" "masscan"
                        "zgrab2" world_scan))
          (output_file cfg_targets)).
Proof.
  apply (scan_and_report_success ok_shell cfg_targets "/w" "masscan" "zgrab2"
           world_scan).
  vm_compute. reflexivity.
Defined.

(** ** The value of a key in a line *)

Lemma rmatch_lit {A : Type} (key : string) (r : regex) (s : string)
    (cap : option string) (k : string -> option string -> option A) :
  rmatch (RLit key r) (key +:+ s) cap k = rmatch r s cap k.
Proof.
  induction key as [|a key IH]; [reflexivity|].
  cbn [RLit rmatch String.append]. now rewrite Ascii.eqb_refl.
Qed.

Lemma rmatch_lit_mismatch {A : Type} (key : string) (r : regex)
    (cap : option string) (k : string -> option string -> option A) :
  forall s,
    String.substring 0 (String.length key) s <> key ->
    rmatch (RLit key r) s cap k = None.
Proof.
  induction key as [|a key IH]; intros s H.
  - now rewrite substring_0_0 in H.
  - cbn [RLit rmatch]. destruct s as [|b s]; [reflexivity|].
    destruct (Ascii.eqb_spec b a) as [->|]; [|reflexivity].
    apply IH. intros E. apply H.
    cbn [String.length String.substring]. now rewrite E.
Qed.

(** A search finds nothing before the first place where the key stands. *)
Lemma regex_search_skip (key : string) (r : regex) (pre tail : string)
    (rest cap : string) :
  (forall p, p < String.length pre ->
             String.substring p (String.length key) (pre +:+ tail) <> key) ->
  match_here (RLit key r) tail = Some (rest, cap) ->
  regex_search (RLit key r) (pre +:+ tail) = Some cap.
Proof.
  intros Hpre Htail. induction pre as [|c pre IH].
  - cbn [String.append]. destruct tail; cbn [regex_search]; now rewrite Htail.
  - cbn [String.append regex_search]. unfold match_here at 1.
    rewrite rmatch_lit_mismatch
      by (apply (Hpre 0); cbn [String.length]; lia).
    apply IH. intros p Hp.
    apply (Hpre (S p)). cbn [String.length]. lia.
Qed.

Lemma regex_search_none (key : string) (r : regex) (s : string) :
  (forall p, String.substring p (String.length key) s <> key) ->
  regex_search (RLit key r) s = None.
Proof.
  induction s as [|c s IH]; intros H.
  - cbn [regex_search]. unfold match_here.
    now rewrite rmatch_lit_mismatch by apply H.
  - cbn [regex_search]. unfold match_here at 1.
    rewrite rmatch_lit_mismatch by apply H.
    apply IH. intros p. exact (H (S p)).
Qed.

(** The star of whitespace takes all the whitespace there is. *)
Lemma star_loop_space {A : Type} (k : string -> option string -> option A)
    (tail : string) (cap : option string) (x : A) :
  starts_with_space tail = false ->
  k tail cap = Some x ->
  forall ws n,
    string_forallb isspace ws = true -> String.length ws <= n ->
    star_loop re_space k n (ws +:+ tail) cap = Some x.
Proof.
  intros Htail Hk. induction ws as [|c ws IH]; intros n Hws Hn.
  - cbn [String.append]. destruct n; [exact Hk|]. cbn [star_loop].
    unfold re_space. cbn [rmatch]. destruct tail as [|t tail]; [exact Hk|].
    cbn [starts_with_space] in Htail. now rewrite Htail.
  - cbn [string_forallb] in Hws. apply andb_true_iff in Hws as [Hc Hws].
    cbn [String.length] in Hn. destruct n as [|n]; [lia|].
    cbn [String.append star_loop]. unfold re_space at 1. cbn [rmatch].
    rewrite Hc. cbn [String.length].
    destruct (Nat.ltb_spec (String.length (ws +:+ tail))
                (S (String.length (ws +:+ tail)))); [|lia].
    fold (@star_loop A re_space k). now rewrite IH by (assumption || lia).
Qed.

(** The star of the value items takes the value up to its closing quote. *)
Lemma star_loop_value {A : Type} (k : string -> option string -> option A)
    (rest : string) (cap : option string) (x : A) :
  k (String dquote rest) cap = Some x ->
  forall n value,
    raw_value value = true -> String.length value <= n ->
    star_loop value_item k n (value +:+ String dquote rest) cap = Some x.
Proof.
  intros Hk. induction n as [|n IH]; intros value Hraw Hn.
  - destruct value; [exact Hk|cbn [String.length] in Hn; lia].
  - destruct value as [|c value].
    + cbn [String.append star_loop]. unfold value_item. cbn [rmatch].
      rewrite Ascii.eqb_refl, orb_true_r. cbn [negb].
      change (Ascii.eqb dquote backslash) with false. exact Hk.
    + cbn [raw_value] in Hraw. cbn [String.length] in Hn.
      cbn [String.append star_loop]. unfold value_item at 1. cbn [rmatch].
      destruct (Ascii.eqb c backslash) eqn:Hc.
      * destruct value as [|d value]; [discriminate|].
        apply andb_true_iff in Hraw as [Hd Hraw].
        cbn [orb negb String.append]. unfold re_dot. cbn [rmatch].
        rewrite Hd. cbn [String.length] in *.
        destruct (Nat.ltb_spec (String.length (value +:+ String dquote rest))
                    (S (S (String.length (value +:+ String dquote rest)))));
          [|lia].
        fold (@star_loop A value_item k). now rewrite IH by (assumption || lia).
      * apply andb_true_iff in Hraw as [Hq Hraw].
        apply negb_true_iff in Hq. rewrite Hq. cbn [orb negb String.length].
        destruct (Nat.ltb_spec (String.length (value +:+ String dquote rest))
                    (S (String.length (value +:+ String dquote rest))));
          [|lia].
        fold (@star_loop A value_item k). now rewrite IH by (assumption || lia).
Qed.

Lemma rmatch_seq {A : Type} (r1 r2 : regex) (s : string)
    (cap : option string) (k : string -> option string -> option A) :
  rmatch (RSeq r1 r2) s cap k
  = rmatch r1 s cap (fun s1 cap1 => rmatch r2 s1 cap1 k).
Proof. reflexivity. Qed.

Lemma rmatch_char {A : Type} (c : ascii) (s : string) (cap : option string)
    (k : string -> option string -> option A) :
  rmatch (RChar c) (String c s) cap k = k s cap.
Proof. cbn [rmatch]. now rewrite Ascii.eqb_refl. Qed.

Lemma rmatch_group {A : Type} (r : regex) (s : string) (cap : option string)
    (k : string -> option string -> option A) :
  rmatch (RGroup r) s cap k
  = rmatch r s cap
      (fun s1 _ =>
         k s1 (Some (String.substring 0 (String.length s - String.length s1) s))).
Proof. reflexivity. Qed.

Lemma field_text_app (key ws1 ws2 value rest : string) :
  field_text key ws1 ws2 value +:+ rest
  = key +:+ (ws1 +:+ String ":" (ws2 +:+ String dquote
                                    (value +:+ String dquote rest))).
Proof.
  unfold field_text. rewrite !string_app_assoc. cbn [String.append].
  rewrite !string_app_assoc. cbn [String.append].
  rewrite ?string_app_assoc. reflexivity.
Qed.

(** A field at the head of the input is matched, and its value captured. *)
Lemma match_here_field (key ws1 ws2 value rest : string) :
  string_forallb isspace ws1 = true ->
  string_forallb isspace ws2 = true ->
  raw_value value = true ->
  match_here (RLit key value_tail) (field_text key ws1 ws2 value +:+ rest)
  = Some (rest, value).
Proof.
  intros Hws1 Hws2 Hraw. unfold match_here, value_tail.
  rewrite field_text_app, rmatch_lit. unfold re_colon_quote.
  rewrite rmatch_seq, rmatch_star.
  apply star_loop_space;
    [reflexivity| |exact Hws1|rewrite string_length_app; lia].
  rewrite rmatch_seq, rmatch_char, rmatch_seq, rmatch_star.
  apply star_loop_space;
    [reflexivity| |exact Hws2|rewrite string_length_app; lia].
  rewrite rmatch_seq, rmatch_char, rmatch_seq, rmatch_group, rmatch_star.
  apply star_loop_value;
    [|exact Hraw|rewrite string_length_app; lia].
  rewrite rmatch_char, string_length_app. cbn [String.length].
  replace (String.length value + S (String.length rest)
           - S (String.length rest)) with (String.length value) by lia.
  now rewrite substring_prefix.
Qed.

(** The pattern of a quoted name matches the text of the quoted name. *)
Lemma rmatch_closed {A : Type} (c : ascii) (r : regex)
    (k : string -> option string -> option A) (name : string) :
  forall s cap,
    rmatch (RLit name (RChar c)) s cap (fun s1 cap1 => rmatch r s1 cap1 k)
    = rmatch (RLit (name +:+ String c EmptyString) r) s cap k.
Proof.
  induction name as [|a name IH]; intros s cap; [reflexivity|].
  cbn [RLit rmatch String.append]. destruct s as [|b s]; [reflexivity|].
  destruct (Ascii.eqb b a); [apply IH|reflexivity].
Qed.

Lemma match_here_quoted (name s : string) :
  match_here (value_re (quoted_re name)) s
  = match_here (RLit (quoted_key name) value_tail) s.
Proof.
  unfold match_here, value_re, quoted_re, quoted_key.
  cbn [RLit rmatch]. destruct s as [|b s]; [reflexivity|].
  destruct (Ascii.eqb b dquote); [|reflexivity].
  apply (rmatch_closed dquote value_tail).
Qed.

Lemma regex_search_quoted (name s : string) :
  regex_search (value_re (quoted_re name)) s
  = regex_search (RLit (quoted_key name) value_tail) s.
Proof.
  induction s as [|c s IH]; cbn [regex_search]; rewrite match_here_quoted;
    [reflexivity|].
  now rewrite IH.
Qed.

(** On a stack that holds the characters of a quoted name, a text that
    does not start with the quoted name is given up. *)
Lemma rmatch_in_closed_mismatch {A : Type} (stack : nat) (c : ascii)
    (k : string -> option string -> nat -> attempt (option A))
    (name : string) :
  forall s cap depth,
    depth + String.length name <= stack ->
    String.substring 0 (S (String.length name)) s
    <> name +:+ String c EmptyString ->
    rmatch_in stack (RLit name (RChar c)) s cap depth k = Returned None.
Proof.
  induction name as [|a name IH]; intros s cap depth Hd H.
  - cbn [RLit rmatch_in]. cbn [String.length] in Hd.
    destruct (Nat.ltb_spec stack depth); [lia|].
    destruct s as [|b s]; [reflexivity|].
    destruct (Ascii.eqb_spec b c) as [->|]; [|reflexivity].
    exfalso. apply H. cbn [String.length String.substring String.append].
    now rewrite substring_0_0.
  - cbn [RLit rmatch_in]. cbn [String.length] in Hd.
    destruct (Nat.ltb_spec stack depth); [lia|].
    destruct s as [|b s]; [reflexivity|].
    destruct (Ascii.eqb_spec b a) as [->|]; [|reflexivity].
    apply IH; [lia|]. intros E. apply H.
    cbn [String.length String.substring String.append]. now rewrite E.
Qed.

Lemma match_here_in_absent (stack : nat) (name s : string) :
  String.length (quoted_key name) <= stack ->
  String.substring 0 (String.length (quoted_key name)) s <> quoted_key name ->
  match_here_in stack (value_re (quoted_re name)) s = Returned None.
Proof.
  unfold quoted_key. cbn [String.length]. rewrite string_length_app.
  cbn [String.length]. intros Hd H.
  unfold match_here_in, value_re, quoted_re. cbn [rmatch_in].
  destruct (Nat.ltb_spec stack 0); [lia|].
  destruct s as [|b s]; [reflexivity|].
  destruct (Ascii.eqb_spec b dquote) as [->|]; [|reflexivity].
  apply rmatch_in_closed_mismatch; [lia|]. intros E. apply H.
  cbn [String.substring].
  replace (String.length name + 1) with (S (String.length name)) by lia.
  now rewrite E.
Qed.

Lemma regex_search_in_absent (stack : nat) (name s : string) :
  String.length (quoted_key name) <= stack ->
  (forall p,
      String.substring p (String.length (quoted_key name)) s
      <> quoted_key name) ->
  regex_search_in stack (value_re (quoted_re name)) s = Returned None.
Proof.
  intros Hd. induction s as [|c s IH]; intros H.
  - cbn [regex_search_in].
    now rewrite match_here_in_absent by (exact Hd || apply H).
  - cbn [regex_search_in].
    rewrite match_here_in_absent by (exact Hd || apply H).
    apply IH. intros p. exact (H (S p)).
Qed.

(** X22: [extract_json_string_value] with the pattern of a name in double
    quotes, the name made of letters, digits and underscores, as
    [parse_zgrab_titles] calls it. In a line in which the quoted name does
    not stand, it finds nothing, on any stack that holds one call for each
    character of the quoted name. When the first place where the quoted
    name stands starts a field (the quoted name, a colon between optional
    whitespace, and a value in double quotes in which every double quote
    is escaped), the result is that value, unescaped, whatever comes
    before and after the field, if the stack holds the search; if it does
    not, the search overflows the stack. *)
Theorem extract_json_string_value_first (stack : nat) (name : string) :
  string_forallb is_word name = true ->
  (forall line,
      String.length (quoted_key name) <= stack ->
      String.index 0 (quoted_key name) line = None ->
      extract_json_string_value stack line (quoted_re name) = Returned None)
  /\ (forall pre ws1 ws2 value rest,
         String.index 0 (quoted_key name)
           (pre +:+ field_text (quoted_key name) ws1 ws2 value +:+ rest)
         = Some (String.length pre) ->
         string_forallb isspace ws1 = true ->
         string_forallb isspace ws2 = true ->
         raw_value value = true ->
         extract_json_string_value stack
           (pre +:+ field_text (quoted_key name) ws1 ws2 value +:+ rest)
           (quoted_re name)
         = if search_fits stack
                (pre +:+ field_text (quoted_key name) ws1 ws2 value +:+ rest)
                (quoted_re name)
           then Returned (Some (unescape_json_string value))
           else Overflow).
Proof.
  intros _. split.
  - intros line Hd Hnone. unfold extract_json_string_value.
    rewrite regex_search_in_absent; [reflexivity|exact Hd|]. intros p.
    apply (String.index_correct3 0 p _ _ Hnone); [discriminate|lia].
  - intros pre ws1 ws2 value rest Hfirst Hws1 Hws2 Hraw.
    pose proof (match_here_field (quoted_key name) ws1 ws2 value rest
                  Hws1 Hws2 Hraw) as Hm.
    assert (json_string_value
              (pre +:+ field_text (quoted_key name) ws1 ws2 value +:+ rest)
              (quoted_re name)
            = Some (unescape_json_string value)) as Hvalue.
    { unfold json_string_value. rewrite regex_search_quoted.
      rewrite (regex_search_skip (quoted_key name) _ pre _ rest value);
        [reflexivity| |exact Hm].
      intros p Hp. apply (String.index_correct2 _ _ _ _ Hfirst); lia. }
    unfold search_fits.
    destruct (extract_json_string_value_agrees stack
                (pre +:+ field_text (quoted_key name) ws1 ws2 value +:+ rest)
                (quoted_re name)) as [-> | ->]; [reflexivity|].
    now rewrite Hvalue.
Qed.

(** The address of a line of grabber output, after another field. *)
Lemma extract_json_string_value_first_witness :
  extract_json_string_value 4096
    ("{" +:+ json_field "port" "80" +:+ ", "
     +:+ field_text (quoted_key "ip") EmptyString " " "1.1.1.1" +:+ "}")
    (quoted_re "ip")
  = if search_fits 4096
         ("{" +:+ json_field "port" "80" +:+ ", "
          +:+ field_text (quoted_key "ip") EmptyString " " "1.1.1.1" +:+ "}")
         (quoted_re "ip")
    then Returned (Some (unescape_json_string "1.1.1.1"))
    else Overflow.
Proof.
  apply (proj2 (extract_json_string_value_first 4096 "ip" eq_refl)
           ("{" +:+ json_field "port" "80" +:+ ", ") EmptyString " "
           "1.1.1.1" "}");
    vm_compute; reflexivity.
Defined.

(** ** The addresses of the scanner output *)

Lemma hit_ip_scan_line (port port' ip trailing : string) :
  is_token port = true -> is_token ip = true ->
  hit_ip port' (scan_line port ip trailing)
  = if String.eqb port port' then Some ip else None.
Proof.
  intros Hport Hip. unfold hit_ip, scan_line.
  rewrite (split_ws_token_app "open") by reflexivity.
  rewrite (split_ws_token_app "tcp") by reflexivity.
  rewrite (split_ws_token_app port) by exact Hport.
  rewrite (split_ws_token_app ip) by exact Hip.
  reflexivity.
Qed.

Lemma hit_lines_scan_lines (port port' trailing : string) (ips : list string) :
  is_token port = true -> forallb is_token ips = true ->
  hit_lines port' (map (fun ip => scan_line port ip trailing) ips)
  = if String.eqb port port' then map (fun ip => ip +:+ newline) ips else [].
Proof.
  intros Hport. unfold hit_lines.
  induction ips as [|ip ips IH]; intros Hips.
  - now destruct (String.eqb port port').
  - cbn [forallb] in Hips. apply andb_true_iff in Hips as [Hip Hips].
    cbn [map omap list_omap].
    rewrite (hit_ip_scan_line port port' ip trailing Hport Hip).
    specialize (IH Hips). cbn [omap] in IH.
    destruct (String.eqb port port'); cbn [map]; now rewrite IH.
Qed.

(** X23: the loop of [parse_masscan_results] takes the fourth token of a
    line as it stands: for lines of the form open, tcp, 80, a token and
    anything after it, every token is written to the port-80 file, one per
    line and in the order of the lines, whether or not it is an address and
    whether or not it occurred before; the port-443 file gets nothing. *)
Theorem split_hits_scan_lines (ips : list string) (trailing f80 f443 a b : string)
    (w : world) :
  forallb is_token ips = true ->
  f80 <> f443 ->
  files w !! f80 = Some a ->
  files w !! f443 = Some b ->
  split_hits (map (fun ip => scan_line "80" ip trailing) ips)
    (Some f80) (Some f443) 0 0 w
  = (length ips, 0,
     set_files
       (<[f443 := b]>
          (<[f80 := a +:+ concat_lines (map (fun ip => ip +:+ newline) ips)]>
             (files w))) w).
Proof.
  intros Hips Hne H80 H443.
  rewrite (split_hits_spec f80 f443 _ Hne 0 0 w a b H80 H443).
  rewrite (hit_lines_scan_lines "80" "80" trailing ips eq_refl Hips).
  rewrite (hit_lines_scan_lines "80" "443" trailing ips eq_refl Hips).
  cbn [String.eqb Ascii.eqb Bool.eqb length concat_lines].
  change (String.eqb "80" "80") with true.
  change (String.eqb "80" "443") with false. cbn iota.
  cbn [length concat_lines].
  now rewrite length_map, string_app_nil_r.
Qed.

(** A token that is no address, twice. *)
Lemma split_hits_scan_lines_witness :
  split_hits
    (map (fun ip => scan_line "80" ip "1700000000") ["host-a"; "host-a"])
    (Some "/w/open_ips80.txt") (Some "/w/open_ips443.txt") 0 0
    (world_with [("/w/open_ips80.txt", EmptyString);
                 ("/w/open_ips443.txt", EmptyString)])
  = (length ["host-a"; "host-a"], 0,
     set_files
       (<["/w/open_ips443.txt" := EmptyString]>
          (<["/w/open_ips80.txt"
             := EmptyString
                +:+ concat_lines
                      (map (fun ip => ip +:+ newline) ["host-a"; "host-a"])]>
             (files (world_with [("/w/open_ips80.txt", EmptyString);
                                 ("/w/open_ips443.txt", EmptyString)]))))
       (world_with [("/w/open_ips80.txt", EmptyString);
                    ("/w/open_ips443.txt", EmptyString)])).
Proof.
  apply split_hits_scan_lines.
  - reflexivity.
  - discriminate.
  - vm_compute. reflexivity.
  - vm_compute. reflexivity.
Defined.

(** ** The path of the scanner and of the grabber *)

Lemma path_exists_bind {A : Type} (c : prog A) (k : A -> prog (option string))
    (w : world) :
  (forall a w1, c w = (Value a, w1) -> path_exists (k a w1)) ->
  path_exists (bind c k w).
Proof.
  intros H. unfold bind. destruct (c w) as [[a|status] w1]; [|exact I].
  now apply H.
Qed.

Lemma copy_file_target (source target : string) (w w' : world) :
  copy_file source target w = (Value tt, w') ->
  present w' target = true.
Proof.
  unfold copy_file. destruct (files w !! resolve w source); [|discriminate].
  destruct (_ || _); [discriminate|]. intros H. injection H as <-.
  unfold present, resolve. cbn [files cwd set_files log].
  fold (resolve w target). rewrite lookup_insert_eq.
  now rewrite bool_decide_eq_true_2.
Qed.

(** X24: the path that [ensure_masscan] returns names a file or directory
    that exists when it returns, whatever the shell commands did and
    whether or not downloads are allowed: it was found on the PATH or under
    bin, or the built binary has just been copied there. *)
Theorem ensure_masscan_path_exists
    (system_call : string -> world -> Z * world) (base_dir : string)
    (no_download : bool) (w : world) :
  match ensure_masscan system_call base_dir no_download w with
  | (Value (Some p), w') => present w' p = true
  | _ => True
  end.
Proof.
  change (path_exists (ensure_masscan system_call base_dir no_download w)).
  unfold ensure_masscan.
  cbn zeta. apply path_exists_bind. intros found w1 Hfind.
  pose proof (find_in_path_present "masscan" w) as [Hs Hp].
  rewrite Hfind in Hs, Hp. cbn [fst snd] in Hs, Hp.
  destruct found as [p|].
  { cbn [path_exists ret]. now rewrite (present_same_store w w1 p Hs). }
  apply path_exists_bind. intros local_found w2 Hlocal.
  unfold fs_exists in Hlocal.
  destruct (status_fails w1 _); [discriminate Hlocal|].
  injection Hlocal as <- <-.
  destruct (present w1 _) eqn:Hpres; [exact Hpres|].
  destruct no_download; [exact I|].
  apply path_exists_bind. intros _ w3 _.
  apply path_exists_bind. intros have_repo w4 _.
  apply path_exists_bind. intros cloned w5 _.
  destruct cloned; cbn [negb]; [|exact I].
  apply path_exists_bind. intros made w6 _.
  destruct made; cbn [negb]; [|exact I].
  apply path_exists_bind. intros _ w7 _.
  apply path_exists_bind. intros built_found w8 _.
  destruct built_found; cbn [negb]; [|exact I].
  apply path_exists_bind. intros [] w9 Hcopy.
  exact (copy_file_target _ _ _ _ Hcopy).
Qed.
